(** * Key-point annotation tool: workflow models and upload pipeline

    A shallow embedding of the Django models of [backend/images/models.py],
    [backend/annotations/models.py] and [backend/verifications/models.py],
    and of the upload / detection pipeline of [backend/images/views.py] and
    [backend/images/tasks.py].

    Conventions.
    - A database table is the list of its rows in default query order
      (the [ImageBatch] table, only ever read by key, is a finite map); a
      model instance is a record holding a copy of one row.  [Model.save()]
      writes every column of the instance back to its row, so an instance
      loaded earlier and saved later overwrites whatever was stored in
      between.
    - [IntegerField]s are [Z]; [CharField]s and UUID primary keys are
      [string]; nullable columns are [option].
    - An exception that leaves a function is a [Raise] value. *)

From Stdlib Require Import ZArith QArith Qminmax Ascii SpecFloat.
From stdpp Require Import base decidable option list strings pretty gmap.

Local Open Scope string_scope.
Local Open Scope Z_scope.

(** ** Exceptions and results *)

Inductive exn : Type :=
  | DoesNotExist
  | IntegrityError
  | DatabaseError
  | DataError
  | ProcessingError (msg : string).

Inductive result (A : Type) : Type :=
  | Ok (a : A)
  | Raise (e : exn).

Arguments Ok {A} a.
Arguments Raise {A} e.

Definition is_ok {A} (r : result A) : bool :=
  match r with Ok _ => true | Raise _ => false end.

(** ** The database engine

    The settings module is not among the sources, so the engine behind
    the models is a parameter.  Of it the code below needs three
    things: how many bits an [IntegerField] column holds (64 on SQLite,
    32 on PostgreSQL and MySQL; a value outside is refused by the
    insert), how a two-decimal column rounds a tie (to even where
    Django quantizes the value itself, away from zero where PostgreSQL
    does the rounding), and whether the [max_length] of a [CharField]
    is checked by the insert (SQLite does not check it). *)
Record database : Type := mk_database {
  integer_bits : Z;
  ties_even : bool;
  varchar_checked : bool
}.

Definition sqlite : database := mk_database 64 true false.
Definition postgresql : database := mk_database 32 false true.

Definition integer_field (engine : database) (n : Z) : bool :=
  (- 2 ^ (integer_bits engine - 1) <=? n) && (n <? 2 ^ (integer_bits engine - 1)).

(** ** Python's numbers

    A [float] is a binary64 number.  [a / b] on integers is the exact
    quotient rounded once to the nearest float; it raises when the
    divisor is 0 or the quotient is too large for a float.  [x * y] on
    floats is the product rounded to the nearest float. *)
Definition float : Type := spec_float.

Definition int_float (z : Z) : float :=
  match z with
  | Z0 => S754_zero false
  | Zpos p => S754_finite false p 0
  | Zneg p => S754_finite true p 0
  end.

Definition true_div (a b : Z) : result float :=
  if b =? 0
  then Raise (ProcessingError "division by zero")
  else
    match SFdiv 53 1024 (int_float a) (int_float b) with
    | S754_infinity _ =>
        Raise (ProcessingError "integer division result too large for a float")
    | f => Ok f
    end.

Definition float_mul (x y : float) : float := SFmul 53 1024 x y.

(** The value of a finite float, as a fraction with a positive
    denominator. *)
Definition float_fraction (f : float) : option (Z * Z) :=
  match f with
  | S754_zero _ => Some (0, 1)
  | S754_finite s m e =>
      let n := if s then Zneg m else Zpos m in
      Some (if 0 <=? e then (n * 2 ^ e, 1) else (n, 2 ^ (- e)))
  | S754_infinity _ | S754_nan => None
  end.

(** What an attribute of a [DecimalField(max_digits=5,
    decimal_places=2)] holds: the [Decimal] read from the column, in
    hundredths, or a [float] assigned since. *)
Inductive number : Type :=
  | Decimal (hundredths : Z)
  | Float (f : float).

(** [n / d], for [0 <= n] and [0 < d], rounded to an integer: to the
    nearest, a tie to the even one or upwards. *)
Definition round_fraction (to_even : bool) (n d : Z) : Z :=
  let q := n / d in
  match 2 * (n mod d) ?= d with
  | Lt => q
  | Gt => q + 1
  | Eq => if to_even && Z.even q then q else q + 1
  end.

(** The power of ten that brings [n / d], below 1000, to five
    significant digits; 0 stands for a value below one thousandth,
    [None] for one of 1000 or more. *)
Definition five_digits_scale (n d : Z) : option Z :=
  if 1000 * d <=? n then None
  else if 100 * d <=? n then Some 100
  else if 10 * d <=? n then Some 1000
  else if d <=? n then Some 10000
  else if d <=? 10 * n then Some 100000
  else if d <=? 100 * n then Some 1000000
  else if d <=? 1000 * n then Some 10000000
  else Some 0.

(** What saving the attribute writes to the column, in hundredths.  A
    float is first made a [Decimal] of five significant digits, a tie
    going to the even digit ([DecimalField.to_python], in a context of
    precision [max_digits]); the value is then rounded to two decimals,
    and refused when it needs more than five digits, that is from 1000
    on.  A float that is not finite is refused. *)
Definition decimal_column (engine : database) (x : number) : result Z :=
  match x with
  | Decimal h => if Z.abs h <? 100000 then Ok h else Raise DataError
  | Float f =>
      match float_fraction f with
      | None => Raise DataError
      | Some (n, d) =>
          match five_digits_scale (Z.abs n) d with
          | None => Raise DataError
          | Some 0 => Ok 0
          | Some s =>
              let c := round_fraction true (Z.abs n * s) d in
              let h := round_fraction (ties_even engine) (c * 100) s in
              if h <? 100000
              then Ok (if n <? 0 then - h else h)
              else Raise DataError
          end
      end
  end.

(** ** Tables

    Rows are found by primary key.  [tbl_save] is [Model.save()]: an UPDATE
    of the row with that key when there is one, an INSERT otherwise.  New
    rows come first, as every model orders by its creation time,
    descending. *)

Section Table.
Context {R : Type} (pk : R → string).

Definition tbl_get (k : string) (t : list R) : option R :=
  find (λ r, bool_decide (pk r = k)) t.

Definition tbl_update (r : R) (t : list R) : list R :=
  map (λ x, if bool_decide (pk x = pk r) then r else x) t.

Definition tbl_save (r : R) (t : list R) : list R :=
  match tbl_get (pk r) t with
  | Some _ => tbl_update r t
  | None => r :: t
  end.

(** [queryset.filter(...).count()] *)
Definition tbl_count (p : R → bool) (t : list R) : Z :=
  Z.of_nat (length (filter (λ r, p r = true) t)).
End Table.

(** [value in [...]] on strings. *)
Definition str_in (s : string) (l : list string) : bool := bool_decide (s ∈ l).

(** * [backend/images/models.py]: [ImageBatch] and [Image] *)

Module Images.

(** ** [Image] *)

Definition IMAGE_STATUS : list (string * string) :=
  [ ("UPLOADED", "Uploaded");
    ("YOLO_PROCESSED", "YOLO Processed");
    ("ASSIGNED", "Assigned");
    ("IN_PROGRESS", "In Progress");
    ("ANNOTATED", "Annotated");
    ("SUBMITTED", "Submitted");
    ("UNDER_REVIEW", "Under Review");
    ("APPROVED", "Approved");
    ("REJECTED", "Rejected");
    ("REQUIRES_REVISION", "Requires Revision") ].

(** The columns of [Image] that the workflow reads: key, owning batch,
    file name, workflow status and the two user references. *)
Record Image : Type := mkImage {
  id : string;
  batch : string;
  filename : string;
  status : string;
  current_annotator : option string;
  current_verifier : option string
}.

(** [Image(batch=..., filename=...)]: [status] takes its declared default. *)
Definition new_image (k b f : string) : Image :=
  mkImage k b f "UPLOADED" None None.

(** [image.status = s] *)
Definition set_status (s : string) (i : Image) : Image :=
  mkImage (id i) (batch i) (filename i) s (current_annotator i) (current_verifier i).

(** [image.save()] *)
Definition save_image (i : Image) (t : list Image) : list Image :=
  tbl_save id i t.


(** ** [ImageBatch] *)

Record ImageBatch : Type := mkImageBatch {
  batch_id : string;
  batch_name : string;
  total_images : Z;
  batch_status : string;
  failed_yolo_count : Z;
  processing_priority : Z;
  assigned_count : Z;
  completed_count : Z;
  approved_count : Z;
  rejected_count : Z
}.

(** [ImageBatch(batch_name=..., total_images=...)] with the declared
    defaults: status ['UPLOADED'], priority 5, every counter 0. *)
Definition new_batch (k name : string) (total : Z) : ImageBatch :=
  mkImageBatch k name total "UPLOADED" 0 5 0 0 0 0.

Record db : Type := mkDb {
  batches : gmap string ImageBatch;
  images : list Image
}.

(** [self.images.all()]: the reverse side of [Image.batch]. *)
Definition batch_images (b : ImageBatch) (t : list Image) : list Image :=
  filter (λ i, batch i = batch_id b) t.

Definition with_counters (a c ap r : Z) (b : ImageBatch) : ImageBatch :=
  mkImageBatch (batch_id b) (batch_name b) (total_images b) (batch_status b)
               (failed_yolo_count b) (processing_priority b) a c ap r.

(** [ImageBatch.update_progress].  The four counts are taken over the
    batch's images as stored now; [save(update_fields=[...])] writes the
    four columns into the stored row and raises when there is no such
    row. *)
Definition update_progress (b : ImageBatch) (d : db) : result (ImageBatch * db) :=
  let imgs := batch_images b (images d) in
  let a := tbl_count (λ i, str_in (status i) ["ASSIGNED"; "IN_PROGRESS"; "ANNOTATED"; "SUBMITTED"]) imgs in
  let c := tbl_count (λ i, str_in (status i) ["APPROVED"; "REJECTED"]) imgs in
  let ap := tbl_count (λ i, bool_decide (status i = "APPROVED")) imgs in
  let r := tbl_count (λ i, bool_decide (status i = "REJECTED")) imgs in
  let b' := with_counters a c ap r b in
  match batches d !! batch_id b with
  | Some row => Ok (b', mkDb (<[batch_id b := with_counters a c ap r row]> (batches d)) (images d))
  | None => Raise DatabaseError
  end.

(** ** Operations on the stored state

    What the models allow: inserting a batch built with the declared
    defaults, saving an image with whatever status, deleting an image,
    and [update_progress] on an instance of a stored batch. *)
Inductive step : db → db → Prop :=
  | step_create_batch d k name total :
      batches d !! k = None →
      step d (mkDb (<[k := new_batch k name total]> (batches d)) (images d))
  | step_save_image d i :
      step d (mkDb (batches d) (save_image i (images d)))
  | step_delete_image d k :
      step d (mkDb (batches d) (filter (λ i, id i ≠ k) (images d)))
  | step_update_progress d b b' d' :
      update_progress b d = Ok (b', d') →
      step d d'.

Inductive reachable : db → Prop :=
  | reachable_empty : reachable (mkDb ∅ [])
  | reachable_step d d' : reachable d → step d d' → reachable d'.



(** [ImageBatch.progress_percentage], over the rationals. *)
Definition progress_percentage (b : ImageBatch) : Q :=
  if total_images b =? 0
  then inject_Z 0
  else (inject_Z (completed_count b) / inject_Z (total_images b) * inject_Z 100)%Q.

End Images.

(** * [backend/annotations/models.py]: [BatchAssignment] and [Annotation] *)

Module Annotations.

Module Annotation.

Definition ANNOTATION_STATUS : list (string * string) :=
  [ ("DRAFT", "Draft");
    ("COMPLETED", "Completed");
    ("SUBMITTED", "Submitted");
    ("UNDER_REVIEW", "Under Review");
    ("APPROVED", "Approved");
    ("REVISION_REQUESTED", "Revision Requested") ].

(** Key, the two owning references, the versioning columns, the time
    spent and the status.  The keypoint payload and the free-text
    columns play no part in what follows and are left out. *)
Record t : Type := mk {
  id : string;
  image : string;
  batch_assignment : string;
  version : Z;
  is_revision : bool;
  original_annotation : option string;
  time_spent_seconds : Z;
  status : string
}.

(** The keyword arguments of [Annotation.objects.create(...)].  The
    columns that declare a default may be omitted. *)
Record kwargs : Type := mk_kwargs {
  kw_image : string;
  kw_batch_assignment : string;
  kw_time_spent_seconds : Z;
  kw_version : option Z;
  kw_is_revision : option bool;
  kw_original_annotation : option string;
  kw_status : option string
}.

Definition row_of (k : string) (a : kwargs) : t :=
  mk k (kw_image a) (kw_batch_assignment a)
     (default 1 (kw_version a))
     (default false (kw_is_revision a))
     (kw_original_annotation a)
     (kw_time_spent_seconds a)
     (default "DRAFT" (kw_status a)).

(** [Annotation.objects.create(...)], [k] being the key drawn by
    [uuid.uuid4].  The table has a primary key and, for
    [original_annotation], a foreign key into itself; [image] and
    [batch_assignment] are plain foreign keys and [Meta] lists
    indexes only, none unique. *)
Definition create (k : string) (a : kwargs) (tbl : list t) : result (t * list t) :=
  match tbl_get id k tbl with
  | Some _ => Raise IntegrityError
  | None =>
      match kw_original_annotation a with
      | Some o =>
          match tbl_get id o tbl with
          | Some _ => Ok (row_of k a, row_of k a :: tbl)
          | None => Raise IntegrityError
          end
      | None => Ok (row_of k a, row_of k a :: tbl)
      end
  end.

(** [image.annotations]: the reverse side of [Annotation.image]. *)
Definition of_image (i : string) (tbl : list t) : list t :=
  filter (λ a, image a = i) tbl.


(** The specification's rule for the next version of an image. *)
Definition spec_next_version (i : string) (tbl : list t) : Z :=
  foldr Z.max 0 (version <$> of_image i tbl) + 1.


(** The specification's revision chain, as a property of [create]: a
    further annotation of an image gets the next version and points
    at the version-1 root. *)
Definition spec_revision_chain : Prop :=
  ∀ (tbl : list t) (root row : t) (tbl' : list t) (k : string) (a : kwargs),
    root ∈ tbl → image root = kw_image a → version root = 1 →
    create k a tbl = Ok (row, tbl') →
    version row = spec_next_version (kw_image a) tbl ∧
    original_annotation row = Some (id root).

End Annotation.

Module BatchAssignment.

Record t : Type := mk {
  id : string;
  batch : string;
  annotator : string;
  assigned_by : string;
  assignment_type : string;
  priority : Z;
  status : string;
  progress_percentage : number;
  images_completed : Z;
  images_total : Z;
  due_date : option Z
}.

Definition with_progress (c : Z) (p : number) (a : t) : t :=
  mk (id a) (batch a) (annotator a) (assigned_by a) (assignment_type a)
     (priority a) (status a) p c (images_total a) (due_date a).

(** [self.annotations]: the reverse side of [Annotation.batch_assignment]. *)
Definition annotations (a : t) (anns : list Annotation.t) : list Annotation.t :=
  filter (λ x, Annotation.batch_assignment x = id a) anns.

(** [(completed / self.images_total) * 100] *)
Definition percentage (completed total : Z) : result number :=
  match true_div completed total with
  | Ok f => Ok (Float (float_mul f (int_float 100)))
  | Raise e => Raise e
  end.

(** [BatchAssignment.update_progress].  The instance keeps the float
    it computes; [save(update_fields=[...])] writes the count and the
    percentage, as the column takes it, into the stored row, and raises
    when the column refuses the value or there is no such row. *)
Definition update_progress (engine : database) (a : t) (anns : list Annotation.t)
    (tbl : list t) : result (t * list t) :=
  let completed :=
    tbl_count (λ x, bool_decide (Annotation.status x = "SUBMITTED")) (annotations a anns) in
  match (if 0 <? images_total a
         then percentage completed (images_total a)
         else Ok (progress_percentage a)) with
  | Raise e => Raise e
  | Ok p =>
      match decimal_column engine p with
      | Raise e => Raise e
      | Ok h =>
          match tbl_get id (id a) tbl with
          | Some row =>
              Ok (with_progress completed p a,
                  tbl_update id (with_progress completed (Decimal h) row) tbl)
          | None => Raise DatabaseError
          end
      end
  end.

(** [is_overdue], [now] being [timezone.now()]. *)
Definition is_overdue (now : Z) (a : t) : bool :=
  match due_date a with
  | Some d => bool_decide (d < now)
  | None => false
  end.

(** The specification's reading: every recount sets the percentage to
    the formula [images_completed / images_total * 100]. *)
Definition spec_always_recomputed : Prop :=
  ∀ (engine : database) (a a' : t) (anns : list Annotation.t) (tbl tbl' : list t),
    update_progress engine a anns tbl = Ok (a', tbl') →
    Ok (progress_percentage a') = percentage (images_completed a') (images_total a').

End BatchAssignment.

End Annotations.

(** * [backend/verifications/models.py]: [Verification] *)

Module Verifications.

Definition VERIFICATION_DECISIONS : list (string * string) :=
  [ ("APPROVED", "Approved");
    ("APPROVED_WITH_CORRECTIONS", "Approved with Corrections");
    ("MINOR_REVISION_NEEDED", "Minor Revision Needed");
    ("MAJOR_REVISION_NEEDED", "Major Revision Needed");
    ("REJECTED", "Rejected") ].

Record Verification : Type := mkVerification {
  id : string;
  annotation : string;
  verifier : string;
  decision : string;
  overall_quality_score : Z;
  can_be_reannotated : bool;
  verification_time_seconds : Z;
  certainty_level : Z;
  is_final_decision : bool;
  requires_second_opinion : bool
}.

(** The keyword arguments of [Verification.objects.create(...)]. *)
Record kwargs : Type := mk_kwargs {
  kw_annotation : string;
  kw_verifier : string;
  kw_decision : string;
  kw_overall_quality_score : Z;
  kw_can_be_reannotated : option bool;
  kw_verification_time_seconds : Z;
  kw_certainty_level : Z;
  kw_is_final_decision : option bool;
  kw_requires_second_opinion : option bool
}.

Definition row_of (k : string) (a : kwargs) : Verification :=
  mkVerification k (kw_annotation a) (kw_verifier a) (kw_decision a)
    (kw_overall_quality_score a)
    (default true (kw_can_be_reannotated a))
    (kw_verification_time_seconds a) (kw_certainty_level a)
    (default true (kw_is_final_decision a))
    (default false (kw_requires_second_opinion a)).

(** The rows that judge annotation [a]. *)
Definition of_annotation (a : string) (tbl : list Verification) : list Verification :=
  filter (λ v, annotation v = a) tbl.

(** What the columns take: the three [IntegerField]s a value of the
    engine's integer type ([validators] are not run by [create]), and
    [decision], a [CharField] of [max_length] 30 whose [choices] are
    not checked either, at most 30 characters where the engine checks
    the length. *)
Definition columns_fit (engine : database) (a : kwargs) : bool :=
  integer_field engine (kw_overall_quality_score a)
  && integer_field engine (kw_verification_time_seconds a)
  && integer_field engine (kw_certainty_level a)
  && (negb (varchar_checked engine)
      || bool_decide (String.length (kw_decision a) ≤ 30)%nat).

(** [Verification.objects.create(...)], [k] being the key drawn by
    [uuid.uuid4], [users] the keys of the user table and [anns] the
    annotation table.  A value that its column does not take is refused
    first.  [verifier] is a foreign key, and [annotation] is a
    [OneToOneField]: a foreign key that is also unique, so the insert is
    refused when the annotation is missing or already has a row. *)
Definition create (engine : database) (users : list string)
                  (anns : list Annotations.Annotation.t) (k : string) (a : kwargs)
                  (tbl : list Verification) : result (Verification * list Verification) :=
  if negb (columns_fit engine a) then Raise DataError
  else
    match tbl_get id k tbl with
    | Some _ => Raise IntegrityError
    | None =>
        if negb (bool_decide (kw_verifier a ∈ users)) then Raise IntegrityError
        else
          match tbl_get Annotations.Annotation.id (kw_annotation a) anns with
          | None => Raise IntegrityError
          | Some _ =>
              match of_annotation (kw_annotation a) tbl with
              | [] => Ok (row_of k a, row_of k a :: tbl)
              | _ :: _ => Raise IntegrityError
              end
          end
    end.

Definition is_approved (v : Verification) : bool :=
  str_in (decision v) ["APPROVED"; "APPROVED_WITH_CORRECTIONS"].

Definition needs_revision (v : Verification) : bool :=
  str_in (decision v) ["MINOR_REVISION_NEEDED"; "MAJOR_REVISION_NEEDED"].

Definition is_rejected (v : Verification) : bool :=
  bool_decide (decision v = "REJECTED").

(** The tables that [create] can build, starting from none, whatever
    the engine, the users and the annotation table are at each call. *)
Inductive built : list Verification → Prop :=
  | built_nil : built []
  | built_create engine users anns tbl k a v tbl' :
      built tbl → create engine users anns k a tbl = Ok (v, tbl') → built tbl'.

End Verifications.

(** * [backend/images]: the upload and detection pipeline

    [models.py] ([UploadBatch], [ImageUpload]), [views.py] and [tasks.py].
    The detector, the file storage and the notification channel are
    outside the repository: the detector is a function handed to the
    tasks, the storage is the list of saved paths with its naming policy
    and its refusals as functions, and the channel layer is a function
    that says which sends raise.  The per-detection rows of the legacy
    [Annotation] table, the model-version and timing columns are not
    read by anything below and are left out as well. *)

Module Uploads.

Definition exn_message (e : exn) : string :=
  match e with
  | DoesNotExist => "matching query does not exist"
  | IntegrityError => "integrity error"
  | DatabaseError => "database error"
  | DataError => "value out of range"
  | ProcessingError msg => msg
  end.

(** One entry of the detector's output. *)
Record detection : Type := mk_detection {
  det_type : string;
  det_label : string;
  det_x : Q;
  det_y : Q;
  det_confidence : Q
}.

Module UploadBatch.

Record t : Type := mk {
  id : string;
  user : string;
  total_files : Z;
  uploaded_files : Z;
  processed_files : Z;
  failed_files : Z;
  status : string;
  completed_at : option Z
}.

Definition set_status (s : string) (b : t) : t :=
  mk (id b) (user b) (total_files b) (uploaded_files b) (processed_files b)
     (failed_files b) s (completed_at b).

Definition set_completed_at (c : option Z) (b : t) : t :=
  mk (id b) (user b) (total_files b) (uploaded_files b) (processed_files b)
     (failed_files b) (status b) c.

Definition set_uploaded_files (n : Z) (b : t) : t :=
  mk (id b) (user b) (total_files b) n (processed_files b)
     (failed_files b) (status b) (completed_at b).

Definition set_processed_files (n : Z) (b : t) : t :=
  mk (id b) (user b) (total_files b) (uploaded_files b) n
     (failed_files b) (status b) (completed_at b).

Definition set_failed_files (n : Z) (b : t) : t :=
  mk (id b) (user b) (total_files b) (uploaded_files b) (processed_files b)
     n (status b) (completed_at b).

End UploadBatch.

Module ImageUpload.

Record t : Type := mk {
  id : string;
  batch : string;
  file_id : string;
  original_filename : string;
  file_path : string;
  file_size : Z;
  mime_type : string;
  status : string;
  yolo_keypoints : option (list detection);
  keypoints_count : Z;
  avg_keypoint_confidence : option Q;
  error_message : option string;
  processed_at : option Z
}.

Definition set_status (s : string) (i : t) : t :=
  mk (id i) (batch i) (file_id i) (original_filename i) (file_path i) (file_size i)
     (mime_type i) s (yolo_keypoints i) (keypoints_count i)
     (avg_keypoint_confidence i) (error_message i) (processed_at i).

Definition set_error_message (e : option string) (i : t) : t :=
  mk (id i) (batch i) (file_id i) (original_filename i) (file_path i) (file_size i)
     (mime_type i) (status i) (yolo_keypoints i) (keypoints_count i)
     (avg_keypoint_confidence i) e (processed_at i).

Definition set_results (r : list detection) (n : Z) (avg : Q) (now : Z) (i : t) : t :=
  mk (id i) (batch i) (file_id i) (original_filename i) (file_path i) (file_size i)
     (mime_type i) (status i) (Some r) n (Some avg) (error_message i) (Some now).

End ImageUpload.

Record db : Type := mkDb {
  batches : list UploadBatch.t;
  images : list ImageUpload.t;
  storage : list string
}.

Definition save_batch (b : UploadBatch.t) (d : db) : db :=
  mkDb (tbl_save UploadBatch.id b (batches d)) (images d) (storage d).

Definition save_image (i : ImageUpload.t) (d : db) : db :=
  mkDb (batches d) (tbl_save ImageUpload.id i (images d)) (storage d).

(** [batch.images]: the reverse side of [ImageUpload.batch]. *)
Definition batch_images (b : UploadBatch.t) (d : db) : list ImageUpload.t :=
  filter (λ i, ImageUpload.batch i = UploadBatch.id b) (images d).

(** [UploadBatch.objects.get(id=batch_id, user=request.user)] *)
Definition get_batch (batch_id user : string) (d : db) : option UploadBatch.t :=
  match tbl_get UploadBatch.id batch_id (batches d) with
  | Some b => if bool_decide (UploadBatch.user b = user) then Some b else None
  | None => None
  end.

(** ** [tasks.py] *)

Definition is_keypoint (r : detection) : bool := bool_decide (det_type r = "keypoint").

Definition avg_confidence (keypoints : list detection) : Q :=
  match keypoints with
  | [] => inject_Z 0
  | _ :: _ =>
      (foldr Qplus (inject_Z 0) (det_confidence <$> keypoints)
       / inject_Z (Z.of_nat (length keypoints)))%Q
  end.

(** The handler [except Exception as e] of both tasks: the image is read
    again and stored as failed with the message, and its batch, read
    again, gets one more failed file.  Either read failing ends the
    handler where it stands. *)
Definition record_failure (e : exn) (image_id : string) (d : db) : db :=
  match tbl_get ImageUpload.id image_id (images d) with
  | None => d
  | Some image_upload =>
      let image_upload :=
        ImageUpload.set_error_message (Some (exn_message e))
          (ImageUpload.set_status "failed" image_upload) in
      let d := save_image image_upload d in
      match tbl_get UploadBatch.id (ImageUpload.batch image_upload) (batches d) with
      | None => d
      | Some batch =>
          save_batch (UploadBatch.set_failed_files (UploadBatch.failed_files batch + 1) batch) d
      end
  end.

(** The part of the [try] block after the detector has answered: the
    image is stored as completed with the results, the batch instance
    read at the start gets one more processed file and becomes completed
    when its two counters add up to [total_files]. *)
Definition record_success (results : list detection) (now : Z)
    (image_upload : ImageUpload.t) (batch : UploadBatch.t) (d : db) : db :=
  let keypoints := filter (λ r, is_keypoint r = true) results in
  let image_upload :=
    ImageUpload.set_results results (Z.of_nat (length keypoints))
      (avg_confidence keypoints) now
      (ImageUpload.set_status "completed" image_upload) in
  let d := save_image image_upload d in
  let batch := UploadBatch.set_processed_files (UploadBatch.processed_files batch + 1) batch in
  let batch :=
    if UploadBatch.processed_files batch + UploadBatch.failed_files batch
       =? UploadBatch.total_files batch
    then UploadBatch.set_completed_at (Some now) (UploadBatch.set_status "completed" batch)
    else batch in
  save_batch batch d.

(** [process_image_with_yolo_sync(image_id)]; [detector] is
    [YOLOProcessor(...).process_image] and [now] the clock. *)
Definition process_image_with_yolo_sync
    (detector : string → result (list detection)) (now : Z)
    (image_id : string) (d : db) : bool * db :=
  match tbl_get ImageUpload.id image_id (images d) with
  | None => (false, d)
  | Some image_upload =>
      match tbl_get UploadBatch.id (ImageUpload.batch image_upload) (batches d) with
      | None => (false, record_failure DoesNotExist image_id d)
      | Some batch =>
          let image_upload := ImageUpload.set_status "processing" image_upload in
          let d := save_image image_upload d in
          match detector (ImageUpload.file_path image_upload) with
          | Raise e => (false, record_failure e image_id d)
          | Ok results => (true, record_success results now image_upload batch d)
          end
      end
  end.

(** What a run of the Celery task asks of the worker. *)
Inductive outcome : Type :=
  | Done
  | Retry (countdown : Z).

Definition max_retries : nat := 3.

(** [self.retry(countdown=60 * (self.request.retries + 1))] *)
Definition retry_countdown (retries : nat) : Z := 60 * (Z.of_nat retries + 1).

(** The channel layer as the Celery task meets it: [channel group
    message_type] is [get_channel_layer()] followed by
    [async_to_sync(channel_layer.group_send)(group, {"type":
    message_type, ...})], which returns nothing or raises.  The
    synchronous task sends the same messages, each in a [try] of its
    own that logs what is raised, so that the layer leaves no trace
    there. *)
Definition channel_layer : Type := string → string → result unit.

(** [f"upload_batch_{batch.id}"] *)
Definition group_name (batch : UploadBatch.t) : string :=
  "upload_batch_" +:+ UploadBatch.id batch.

(** [process_image_with_yolo(self, image_id)], [retries] being
    [self.request.retries].  The two sends of the [try] block are not
    guarded: one that raises ends the block in the handler, like the
    detector.  The send of the handler is inside the handler's own
    [try]. *)
Definition process_image_with_yolo (channel : channel_layer)
    (detector : string → result (list detection)) (now : Z)
    (retries : nat) (image_id : string) (d : db) : outcome * db :=
  let retry := if bool_decide (retries < max_retries)%nat
               then Retry (retry_countdown retries) else Done in
  match tbl_get ImageUpload.id image_id (images d) with
  | None => (Done, d)
  | Some image_upload =>
      match tbl_get UploadBatch.id (ImageUpload.batch image_upload) (batches d) with
      | None => (retry, record_failure DoesNotExist image_id d)
      | Some batch =>
          let image_upload := ImageUpload.set_status "processing" image_upload in
          let d := save_image image_upload d in
          match channel (group_name batch) "processing_progress" with
          | Raise e => (retry, record_failure e image_id d)
          | Ok _ =>
              match detector (ImageUpload.file_path image_upload) with
              | Raise e => (retry, record_failure e image_id d)
              | Ok results =>
                  let d := record_success results now image_upload batch d in
                  match channel (group_name batch) "processing_complete" with
                  | Raise e => (retry, record_failure e image_id d)
                  | Ok _ => (Done, d)
                  end
              end
          end
      end
  end.

(** The worker: a run that asks for a retry is run again, after the
    countdown, with one more retry on its request.  [channel n],
    [detector n] and [clock n] are the channel layer, the detector and
    the time at the run with [n] retries.  The result is the final
    state with the countdowns waited, in order; [None] when [fuel] runs
    were not enough. *)
Fixpoint celery_worker (fuel : nat) (channel : nat → channel_layer)
    (detector : nat → string → result (list detection)) (clock : nat → Z)
    (retries : nat) (image_id : string) (d : db) : option (db * list Z) :=
  match fuel with
  | O => None
  | S fuel =>
      match process_image_with_yolo (channel retries) (detector retries) (clock retries)
                                    retries image_id d with
      | (Done, d) => Some (d, [])
      | (Retry countdown, d) =>
          match celery_worker fuel channel detector clock (S retries) image_id d with
          | Some (d, waits) => Some (d, countdown :: waits)
          | None => None
          end
      end
  end.

(** The first task of a [delay(image_id)] call. *)
Definition celery_delay (channel : nat → channel_layer)
    (detector : nat → string → result (list detection))
    (clock : nat → Z) (image_id : string) (d : db) : option (db * list Z) :=
  celery_worker (S max_retries) channel detector clock 0 image_id d.

(** ** [views.py] *)

Inductive body : Type :=
  | Error (msg : string)
  | BatchCreated (batch_id : string)
  | ImageUploaded (image_id : string)
  | Message (msg : string)
  | Processing (processing_count failed_count : Z) (status : string).

(** [JsonResponse(body, status=code)]; the code is 200 when not given. *)
Record response : Type := JsonResponse {
  content : body;
  status_code : Z
}.

(** [create_upload_batch]: [total_files] is [data.get('total_files')] and
    [k] the key drawn by [uuid.uuid4].  The insert is refused when
    [total_files] does not fit the [IntegerField] column of the engine,
    or the key is taken; the view answers either with 500. *)
Definition create_upload_batch (engine : database) (k : string) (user : string)
    (total_files : option Z) (d : db) : response * db :=
  match total_files with
  | None => (JsonResponse (Error "Invalid total_files") 400, d)
  | Some n =>
      if bool_decide (n = 0) || bool_decide (n ≤ 0)
      then (JsonResponse (Error "Invalid total_files") 400, d)
      else if negb (integer_field engine n)
      then (JsonResponse (Error (exn_message DataError)) 500, d)
      else
        match tbl_get UploadBatch.id k (batches d) with
        | Some _ => (JsonResponse (Error (exn_message IntegrityError)) 500, d)
        | None =>
            let batch := UploadBatch.mk k user n 0 0 0 "pending" None in
            (JsonResponse (BatchCreated k) 200,
             mkDb (batch :: batches d) (images d) (storage d))
        end
  end.

(** [request.FILES['file']] *)
Record uploaded_file : Type := mk_file {
  name : string;
  size : Z;
  content_type : string
}.

Record upload_request : Type := mk_request {
  request_user : string;
  post_batch_id : option string;
  post_file_id : option string;
  files_file : option uploaded_file
}.

(** Truth value of [request.POST.get(...)]: absent and empty are false. *)
Definition truthy (o : option string) : bool :=
  match o with
  | Some s => negb (bool_decide (s = ""))
  | None => false
  end.

(** Truth value of an uploaded file: that of its name. *)
Definition file_truthy (o : option uploaded_file) : bool :=
  match o with
  | Some f => negb (bool_decide (name f = ""))
  | None => false
  end.

Definition allowed_types : list string :=
  ["image/jpeg"; "image/png"; "image/webp"; "image/bmp"].

(** [os.path.splitext(p)[1]]: the part of the last path component from
    its last dot on, provided something other than dots comes before
    that dot. *)
Definition last_component (p : list ascii) : list ascii :=
  fold_left (λ acc c, if bool_decide (c = "/"%char) then [] else (acc ++ [c])%list) p [].

Fixpoint split_last_dot (rev_name suffix : list ascii) : option (list ascii * list ascii) :=
  match rev_name with
  | [] => None
  | c :: rest =>
      if bool_decide (c = "."%char)
      then Some (rev rest, c :: suffix)
      else split_last_dot rest (c :: suffix)
  end.

Definition splitext_ext (p : string) : string :=
  match split_last_dot (rev (last_component (String.list_ascii_of_string p))) [] with
  | Some (stem, ext) =>
      if forallb (λ c, bool_decide (c = "."%char)) stem
      then ""
      else String.string_of_list_ascii ext
  | None => ""
  end.

(** What the view takes from outside the repository: whether a string
    parses as a UUID, and the name the storage gives to a file saved
    under a wanted name, given the names it holds. *)
Record collaborators : Type := mk_collaborators {
  is_uuid : string → bool;
  get_available_name : list string → string → string
}.

(** [upload_image]; [k] is the key drawn for the new [ImageUpload]. *)
Definition upload_image (env : collaborators) (k : string) (request : upload_request)
    (d : db) : response * db :=
  if negb (truthy (post_batch_id request) && truthy (post_file_id request)
           && file_truthy (files_file request))
  then (JsonResponse (Error "Missing required fields") 400, d)
  else
    match post_batch_id request, post_file_id request, files_file request with
    | Some batch_id, Some file_id, Some uploaded_file =>
        if bool_decide (size uploaded_file > 10 * 1024 * 1024)
        then (JsonResponse (Error "File too large. Maximum size is 10MB") 400, d)
        else if negb (str_in (content_type uploaded_file) allowed_types)
        then (JsonResponse (Error "Invalid file type") 400, d)
        else if negb (is_uuid env batch_id)
        then (JsonResponse (Error "Upload failed. Please try again.") 500, d)
        else
          match get_batch batch_id (request_user request) d with
          | None => (JsonResponse (Error "Batch not found") 404, d)
          | Some batch =>
              let file_extension := splitext_ext (name uploaded_file) in
              let unique_filename := batch_id +:+ "/" +:+ file_id +:+ file_extension in
              let file_path := get_available_name env (storage d) unique_filename in
              let d := mkDb (batches d) (images d) (file_path :: storage d) in
              match tbl_get ImageUpload.id k (images d) with
              | Some _ => (JsonResponse (Error "Upload failed. Please try again.") 500, d)
              | None =>
                  let image_upload :=
                    ImageUpload.mk k (UploadBatch.id batch) file_id (name uploaded_file)
                      file_path (size uploaded_file) (content_type uploaded_file)
                      "uploaded" None 0 None None None in
                  let d := mkDb (batches d) (image_upload :: images d) (storage d) in
                  let batch :=
                    UploadBatch.set_uploaded_files (UploadBatch.uploaded_files batch + 1) batch in
                  let batch :=
                    if bool_decide (UploadBatch.status batch = "pending")
                    then UploadBatch.set_status "uploading" batch else batch in
                  (JsonResponse (ImageUploaded k) 200, save_batch batch d)
              end
          end
    | _, _, _ => (JsonResponse (Error "Missing required fields") 400, d)
    end.

(** [cancel_batch] *)
Definition cancel_batch (user batch_id : string) (d : db) : response * db :=
  match get_batch batch_id user d with
  | None => (JsonResponse (Error "Batch not found") 404, d)
  | Some batch =>
      if str_in (UploadBatch.status batch) ["completed"]
      then (JsonResponse (Error "Cannot cancel completed batch") 400, d)
      else
        let d := save_batch (UploadBatch.set_status "cancelled" batch) d in
        let cancel i :=
          if bool_decide (ImageUpload.batch i = UploadBatch.id batch)
             && str_in (ImageUpload.status i) ["uploaded"; "processing"]
          then ImageUpload.set_status "cancelled" i else i in
        (JsonResponse (Message "Batch cancelled successfully") 200,
         mkDb (batches d) (cancel <$> images d) (storage d))
  end.

(** The variables of the loop of [process_batch_with_yolo]: the
    database, the view's [batch] instance, its two counts, and the ids
    handed to [process_image_with_yolo.delay]. *)
Record loop_state : Type := mk_loop {
  loop_db : db;
  loop_batch : UploadBatch.t;
  processed_count : Z;
  failed_count : Z;
  delayed : list string
}.

(** One turn of the loop [for image in processable_images].  The task
    catches every exception itself, so the [except] around the
    synchronous call never runs. *)
Definition process_batch_turn (use_async : bool)
    (detector : string → result (list detection)) (now : Z)
    (st : loop_state) (image : ImageUpload.t) : loop_state :=
  let was_failed := bool_decide (ImageUpload.status image = "failed") in
  let image := if was_failed then ImageUpload.set_error_message None image else image in
  let batch :=
    if was_failed
    then UploadBatch.set_failed_files
           (Z.max 0 (UploadBatch.failed_files (loop_batch st) - 1)) (loop_batch st)
    else loop_batch st in
  let image := ImageUpload.set_status "uploaded" image in
  let d := save_image image (loop_db st) in
  if use_async
  then mk_loop d batch (processed_count st + 1) (failed_count st)
               (delayed st ++ [ImageUpload.id image])%list
  else
    let '(success, d) := process_image_with_yolo_sync detector now (ImageUpload.id image) d in
    if success
    then mk_loop d batch (processed_count st + 1) (failed_count st) (delayed st)
    else mk_loop d batch (processed_count st) (failed_count st + 1) (delayed st).

(** [process_batch_with_yolo]; [use_async] is the setting
    [PROCESS_IMAGES_ASYNC].  Also returned: the ids handed to the Celery
    task. *)
Definition process_batch_with_yolo (use_async : bool)
    (detector : string → result (list detection)) (now : Z)
    (user batch_id : string) (d : db) : response * db * list string :=
  match get_batch batch_id user d with
  | None => (JsonResponse (Error "Batch not found") 404, d, [])
  | Some batch =>
      if negb (str_in (UploadBatch.status batch) ["uploading"; "completed"; "failed"])
      then (JsonResponse (Error ("Cannot process batch with status: " +:+ UploadBatch.status batch)) 400,
            d, [])
      else
        let processable d :=
          filter (λ i, str_in (ImageUpload.status i) ["uploaded"; "failed"] = true)
                 (batch_images batch d) in
        match processable d with
        | [] => (JsonResponse (Message "No images to process in this batch") 200, d, [])
        | _ :: _ =>
            let batch := UploadBatch.set_status "processing" batch in
            let d := save_batch batch d in
            let st :=
              fold_left (process_batch_turn use_async detector now)
                        (processable d) (mk_loop d batch 0 0 []) in
            let batch := loop_batch st in
            let d := save_batch batch (loop_db st) in
            let '(batch, d) :=
              if negb use_async
                 && (UploadBatch.processed_files batch + UploadBatch.failed_files batch
                     >=? UploadBatch.uploaded_files batch)
              then
                let batch :=
                  UploadBatch.set_completed_at (Some now)
                    (UploadBatch.set_status "completed" batch) in
                (batch, save_batch batch d)
              else (batch, d) in
            (JsonResponse
               (Processing (processed_count st) (failed_count st)
                  (if use_async then "processing_started" else "processing_completed"))
               200,
             d, delayed st)
        end
  end.

(** [process_single_image]; the image is read together with its batch,
    which must be the user's. *)
Definition process_single_image (use_async : bool)
    (detector : string → result (list detection)) (now : Z)
    (user image_id : string) (d : db) : response * db * list string :=
  match tbl_get ImageUpload.id image_id (images d) with
  | None => (JsonResponse (Error "Image not found") 404, d, [])
  | Some image =>
      match get_batch (ImageUpload.batch image) user d with
      | None => (JsonResponse (Error "Image not found") 404, d, [])
      | Some batch =>
          if negb (str_in (ImageUpload.status image) ["uploaded"; "failed"])
          then (JsonResponse
                  (Error ("Cannot process image with status: " +:+ ImageUpload.status image)) 400,
                d, [])
          else
            let was_failed := bool_decide (ImageUpload.status image = "failed") in
            let image := if was_failed then ImageUpload.set_error_message None image else image in
            let d :=
              if was_failed
              then save_batch
                     (UploadBatch.set_failed_files
                        (Z.max 0 (UploadBatch.failed_files batch - 1)) batch) d
              else d in
            let image := ImageUpload.set_status "uploaded" image in
            let d := save_image image d in
            if use_async
            then (JsonResponse (Message "Image queued for YOLO processing") 200, d,
                  [ImageUpload.id image])
            else
              let '(success, d) :=
                process_image_with_yolo_sync detector now (ImageUpload.id image) d in
              if success
              then (JsonResponse (Message "Image processed successfully") 200, d, [])
              else (JsonResponse (Error "Image processing failed") 500, d, [])
      end
  end.

(** An image that [cancel_batch] would still cancel: not yet at rest. *)
Definition pending (i : ImageUpload.t) : bool :=
  str_in (ImageUpload.status i) ["uploaded"; "processing"].

(** The specification's rule for completion, on the upload pipeline: a
    stored batch is completed exactly when none of its images is
    pending. *)
Definition spec_completed_iff_children_at_rest (d : db) : Prop :=
  ∀ b, b ∈ batches d →
    (UploadBatch.status b = "completed" ↔
     Forall (λ i, pending i = false) (batch_images b d)).

(** The specification's backoff: from one retry to the next the
    countdown grows by one and the same ratio [p / q], above one. *)
Definition spec_exponential_backoff (countdown : nat → Z) : Prop :=
  ∃ p q : Z, 0 < q ∧ q < p ∧
    ∀ n, (S n < max_retries)%nat → q * countdown (S n) = p * countdown n.

(** ** More of [models.py]: the queries of [ImageUpload] *)

(** [a > b] on the rationals. *)
Definition Qgtb (a b : Q) : bool := negb (Qle_bool a b).

(** [ImageUpload.get_keypoints_by_type] *)
Definition get_keypoints_by_type (keypoint_type : string) (i : ImageUpload.t)
  : list detection :=
  match ImageUpload.yolo_keypoints i with
  | None => []
  | Some keypoints => filter (λ kp, det_type kp = keypoint_type) keypoints
  end.

(** [ImageUpload.has_sufficient_keypoints(min_confidence)] *)
Definition has_sufficient_keypoints (min_confidence : Q) (i : ImageUpload.t) : bool :=
  let keypoints := get_keypoints_by_type "keypoint" i in
  let high_conf_keypoints :=
    filter (λ kp, Qgtb (det_confidence kp) min_confidence = true) keypoints in
  bool_decide (15 ≤ length high_conf_keypoints)%nat.

(** ** More of [views.py] *)

Inductive retry_body : Type :=
  | RetryError (msg : string)
  | NothingToRetry
  | Retrying (retry_count failed_count : Z).

(** The variables of the loop of [retry_failed_images]. *)
Record retry_state : Type := mk_retry {
  retry_db : db;
  retried : Z;
  still_failed : Z;
  requeued : list string
}.

(** One turn of the loop [for image in failed_images]; as in
    [process_batch_turn] the [except] around the synchronous call never
    runs. *)
Definition retry_turn (use_async : bool)
    (detector : string → result (list detection)) (now : Z)
    (st : retry_state) (image : ImageUpload.t) : retry_state :=
  let image := ImageUpload.set_error_message None (ImageUpload.set_status "uploaded" image) in
  let d := save_image image (retry_db st) in
  if use_async
  then mk_retry d (retried st + 1) (still_failed st) (requeued st ++ [ImageUpload.id image])%list
  else
    let '(success, d) := process_image_with_yolo_sync detector now (ImageUpload.id image) d in
    if success
    then mk_retry d (retried st + 1) (still_failed st) (requeued st)
    else mk_retry d (retried st) (still_failed st + 1) (requeued st).

(** [retry_failed_images]: the answer with its status code, the
    database, and the ids handed to the Celery task. *)
Definition retry_failed_images (use_async : bool)
    (detector : string → result (list detection)) (now : Z)
    (user batch_id : string) (d : db) : retry_body * Z * db * list string :=
  match get_batch batch_id user d with
  | None => (RetryError "Batch not found", 404, d, [])
  | Some batch =>
      let failed_images :=
        filter (λ i, ImageUpload.status i = "failed") (batch_images batch d) in
      match failed_images with
      | [] => (NothingToRetry, 200, d, [])
      | _ :: _ =>
          let st := fold_left (retry_turn use_async detector now) failed_images
                              (mk_retry d 0 0 []) in
          let batch :=
            UploadBatch.set_failed_files (UploadBatch.failed_files batch - retried st) batch in
          (Retrying (retried st) (still_failed st), 200,
           save_batch batch (retry_db st), requeued st)
      end
  end.

Inductive delete_body : Type :=
  | DeleteError (msg : string)
  | Deleted (deleted_images deleted_files : Z).

(** The first loop of [delete_batch]: a file that the storage holds is
    deleted and counted.  [faulty] tells the paths on which
    [default_storage] raises; the loop catches that, logs a warning and
    goes on, so such a file is kept and not counted. *)
Definition delete_files (faulty : string → bool) (paths : list string)
    (files : list string) : list string * Z :=
  fold_left
    (λ '(files, n) path,
       if faulty path
       then (files, n)
       else if bool_decide (path ∈ files)
       then (filter (λ f, f ≠ path) files, n + 1)
       else (files, n))
    paths (files, 0).

(** [delete_batch]; the rows of the legacy [Annotation] table, and their
    count in the answer, are left out with that table. *)
Definition delete_batch (faulty : string → bool) (user batch_id : string) (d : db)
  : delete_body * Z * db :=
  match get_batch batch_id user d with
  | None => (DeleteError "Batch not found", 404, d)
  | Some batch =>
      let images_of_batch := batch_images batch d in
      let '(files, deleted_files_count) :=
        delete_files faulty (ImageUpload.file_path <$> images_of_batch) (storage d) in
      let image_count := Z.of_nat (length images_of_batch) in
      (Deleted image_count deleted_files_count, 200,
       mkDb (filter (λ b, UploadBatch.id b ≠ UploadBatch.id batch) (batches d))
            (filter (λ i, ImageUpload.batch i ≠ UploadBatch.id batch) (images d))
            files)
  end.

(** ** [consumers.py] *)

(** What [UploadProgressConsumer.get_batch_status] sends on connect. *)
Record batch_status_message : Type := mk_status_message {
  msg_batch_id : string;
  msg_status : string;
  msg_total_files : Z;
  msg_uploaded_files : Z;
  msg_processed_files : Z;
  msg_failed_files : Z
}.

(** [UploadProgressConsumer.get_batch_status]: [None] is the empty
    message sent when the batch is not found. *)
Definition consumer_get_batch_status (batch_id : string) (d : db)
  : option batch_status_message :=
  match tbl_get UploadBatch.id batch_id (batches d) with
  | None => None
  | Some batch =>
      let images_of_batch := batch_images batch d in
      Some (mk_status_message
              (UploadBatch.id batch) (UploadBatch.status batch) (UploadBatch.total_files batch)
              (Z.of_nat (length images_of_batch))
              (tbl_count (λ i, bool_decide (ImageUpload.status i = "processed")) images_of_batch)
              (tbl_count (λ i, bool_decide (ImageUpload.status i = "failed")) images_of_batch))
  end.

(** [UploadProgressConsumer.check_batch_access] *)
Definition check_batch_access (user batch_id : string) (d : db) : bool :=
  match get_batch batch_id user d with
  | Some _ => true
  | None => false
  end.

(** ** Runs of the pipeline

    One request or one task at a time: every view that writes, and the
    worker running a delayed task to its end. *)
Inductive api_step : db → db → Prop :=
  | step_create_upload_batch engine k user total_files d :
      api_step d (create_upload_batch engine k user total_files d).2
  | step_upload_image env k request d :
      api_step d (upload_image env k request d).2
  | step_cancel_batch user batch_id d :
      api_step d (cancel_batch user batch_id d).2
  | step_process_single_image use_async detector now user image_id d :
      api_step d (process_single_image use_async detector now user image_id d).1.2
  | step_process_batch_with_yolo use_async detector now user batch_id d :
      api_step d (process_batch_with_yolo use_async detector now user batch_id d).1.2
  | step_retry_failed_images use_async detector now user batch_id d :
      api_step d (retry_failed_images use_async detector now user batch_id d).1.2
  | step_delete_batch faulty user batch_id d :
      api_step d (delete_batch faulty user batch_id d).2
  | step_celery channel detector clock image_id d d' waits :
      celery_delay channel detector clock image_id d = Some (d', waits) →
      api_step d d'.

Inductive api_reachable : db → Prop :=
  | api_start : api_reachable (mkDb [] [] [])
  | api_next d d' : api_reachable d → api_step d d' → api_reachable d'.

(** The declared choices of the two status columns. *)
Definition UPLOAD_BATCH_STATUS : list string :=
  ["pending"; "uploading"; "processing"; "completed"; "failed"; "cancelled"].

Definition IMAGE_UPLOAD_STATUS : list string :=
  ["uploaded"; "processing"; "completed"; "failed"; "cancelled"].

End Uploads.

(** * [backend/images/yolo_processor.py]: [YOLOProcessor]

    The model file, the image file and the inference are outside the
    repository; what is embedded is what the class does with their
    answers.  Coordinates and confidences are floats in the source and
    rationals here: comparisons, [min] and [max] are the same on both,
    sums and halves are exact here. *)

Module YoloProcessor.

Definition keypoint_labels_26 : list string :=
  [ "nose"; "left_eye"; "right_eye"; "left_ear"; "right_ear";
    "left_shoulder"; "right_shoulder"; "left_elbow"; "right_elbow";
    "left_wrist"; "right_wrist"; "left_hip"; "right_hip";
    "left_knee"; "right_knee"; "left_ankle"; "right_ankle";
    "head"; "neck"; "mid_back"; "lower_back"; "upper_back";
    "left_palm_end"; "right_palm_end"; "left_foot_end"; "right_foot_end" ].

Definition keypoint_labels_17 : list string :=
  [ "nose"; "left_eye"; "right_eye"; "left_ear"; "right_ear";
    "left_shoulder"; "right_shoulder"; "left_elbow"; "right_elbow";
    "left_wrist"; "right_wrist"; "left_hip"; "right_hip";
    "left_knee"; "right_knee"; "left_ankle"; "right_ankle" ].

Definition connections_26 : list (nat * nat) :=
  [ (0, 1); (0, 2); (1, 3); (2, 4); (5, 7); (7, 9);
    (6, 8); (8, 10); (11, 13); (13, 15); (12, 14); (14, 16);
    (17, 18); (18, 21); (19, 21); (19, 20); (20, 11); (20, 12);
    (15, 24); (16, 25); (9, 22); (10, 23) ]%nat.

Definition connections_17 : list (nat * nat) :=
  [ (0, 1); (0, 2); (1, 3); (2, 4); (5, 6); (5, 7); (6, 8);
    (7, 9); (8, 10); (11, 12); (11, 13); (12, 14); (13, 15); (14, 16) ]%nat.

(** [self.keypoint_labels] and [self.connections], by
    [self.use_26_keypoints]. *)
Definition keypoint_labels (use_26_keypoints : bool) : list string :=
  if use_26_keypoints then keypoint_labels_26 else keypoint_labels_17.

Definition connections (use_26_keypoints : bool) : list (nat * nat) :=
  if use_26_keypoints then connections_26 else connections_17.

(** [get_keypoint_connections] *)
Definition get_keypoint_connections (use_26_keypoints : bool) (keypoint_index : nat)
  : list (nat * nat) :=
  filter (λ c, c.1 = keypoint_index ∨ c.2 = keypoint_index) (connections use_26_keypoints).

Definition point : Type := Q * Q.

(** [adjust_keypoints_to_bounds(keypoints, image_shape, margin)], the
    shape being [(height, width)]. *)
Definition adjust_keypoints_to_bounds (keypoints : list point) (height width margin : Z)
  : list point :=
  (λ p : point,
     (Qmax (inject_Z margin) (Qmin p.1 (inject_Z (width - margin))),
      Qmax (inject_Z margin) (Qmin p.2 (inject_Z (height - margin))))) <$> keypoints.

(** [corrected[i] = p]; out of range is Python's [IndexError]. *)
Definition set_at (i : nat) (p : point) (l : list point) : option (list point) :=
  if bool_decide (i < length l)%nat then Some (<[i := p]> l) else None.

(** [while len(corrected) < 26: corrected.append([0.0, 0.0])] *)
Definition pad_to_26 (l : list point) : list point :=
  (l ++ replicate (26 - length l) (inject_Z 0, inject_Z 0))%list.

Definition midpoint (a b : point) : point :=
  (((a.1 + b.1) / inject_Z 2)%Q, ((a.2 + b.2) / inject_Z 2)%Q).

Definition shifted (dx dy : Z) (a : point) : point :=
  ((a.1 + inject_Z dx)%Q, (a.2 + inject_Z dy)%Q).

(** The assignments inside the [try] of [correct_keypoints_26]; [None]
    is an exception raised on the way. *)
Definition corrections (corrected : list point) : option (list point) :=
  let corrected := pad_to_26 corrected in
  if bool_decide (22 ≤ length corrected)%nat
  then
    p5 ← corrected !! 5%nat; p6 ← corrected !! 6%nat;
    corrected ← set_at 18 (midpoint p5 p6) corrected;
    p18 ← corrected !! 18%nat;
    corrected ← set_at 21 (shifted 0 20 p18) corrected;
    p19 ← corrected !! 19%nat;
    corrected ← set_at 20 p19 corrected;
    p20 ← corrected !! 20%nat; p21 ← corrected !! 21%nat;
    corrected ← set_at 19 (midpoint p20 p21) corrected;
    p9 ← corrected !! 9%nat;
    corrected ← set_at 22 (shifted 0 15 p9) corrected;
    p10 ← corrected !! 10%nat;
    corrected ← set_at 23 (shifted 0 15 p10) corrected;
    p15 ← corrected !! 15%nat;
    corrected ← set_at 24 (shifted 15 10 p15) corrected;
    p16 ← corrected !! 16%nat;
    corrected ← set_at 25 (shifted 15 10 p16) corrected;
    p0 ← corrected !! 0%nat;
    set_at 17 (shifted 0 (-30) p0) corrected
  else Some corrected.

(** [correct_keypoints_26(keypoints, image_shape)] *)
Definition correct_keypoints_26 (keypoints : list point) (height width : Z) : list point :=
  if bool_decide (length keypoints < 17)%nat
  then keypoints
  else
    match corrections keypoints with
    | Some corrected => adjust_keypoints_to_bounds corrected height width 5
    | None => keypoints
    end.

(** One person of [result.keypoints.data]: rows [(x, y, conf)]. *)
Definition person : Type := list (Q * Q * Q).

(** One row [(x1, y1, x2, y2, conf, cls)] of [result.boxes.data]. *)
Record box : Type := mk_box {
  box_x1 : Q;
  box_y1 : Q;
  box_x2 : Q;
  box_y2 : Q;
  box_conf : Q;
  box_cls : Z
}.

(** One element of the model's results; either attribute may be absent. *)
Record yolo_result : Type := mk_result {
  result_keypoints : option (list person);
  result_boxes : option (list box)
}.

(** What the model hands over before any row is unpacked: a row is the
    list of the numbers it holds. *)
Definition row : Type := list Q.

Record raw_result : Type := mk_raw {
  raw_keypoints : option (list (list row));
  raw_boxes : option (list row)
}.

(** The exception of a tuple assignment from a row of another length. *)
Definition unpack_error (expected : nat) (r : row) : exn :=
  ProcessingError
    (if bool_decide (length r < expected)%nat
     then "not enough values to unpack (expected " +:+ pretty expected +:+ ", got "
          +:+ pretty (length r) +:+ ")"
     else "too many values to unpack (expected " +:+ pretty expected +:+ ")").

(** [for kp_idx, (x, y, conf) in enumerate(person_keypoints)] *)
Definition unpack_keypoint (r : row) : result (Q * Q * Q) :=
  match r with
  | [x; y; conf] => Ok (x, y, conf)
  | _ => Raise (unpack_error 3 r)
  end.

(** [int(cls)]: towards zero. *)
Definition int_of (q : Q) : Z := Z.quot (Qnum q) (Z.pos (Qden q)).

(** [x1, y1, x2, y2, conf, cls = box] *)
Definition unpack_box (r : row) : result box :=
  match r with
  | [x1; y1; x2; y2; conf; cls] => Ok (mk_box x1 y1 x2 y2 conf (int_of cls))
  | _ => Raise (unpack_error 6 r)
  end.

(** A loop whose body may raise: the first exception ends it. *)
Fixpoint mapM {A B : Type} (f : A → result B) (l : list A) : result (list B) :=
  match l with
  | [] => Ok []
  | x :: l =>
      match f x with
      | Raise e => Raise e
      | Ok y =>
          match mapM f l with
          | Raise e => Raise e
          | Ok ys => Ok (y :: ys)
          end
      end
  end.

Definition mapM_option {A B : Type} (f : A → result B) (o : option (list A))
  : result (option (list B)) :=
  match o with
  | None => Ok None
  | Some l =>
      match mapM f l with
      | Raise e => Raise e
      | Ok ys => Ok (Some ys)
      end
  end.

(** The rows of one result, unpacked in the order in which
    [process_image] meets them: the keypoint rows person by person,
    then the boxes. *)
Definition unpack_result (r : raw_result) : result yolo_result :=
  match mapM_option (mapM unpack_keypoint) (raw_keypoints r) with
  | Raise e => Raise e
  | Ok keypoints =>
      match mapM_option unpack_box (raw_boxes r) with
      | Raise e => Raise e
      | Ok boxes => Ok (mk_result keypoints boxes)
      end
  end.

(** The keypoint entries of one person: the rows that have a label are
    kept, corrected when the 26-point model saw at least 17 of them, and
    those above the confidence threshold reported. *)
Definition person_annotations (use_26_keypoints : bool) (threshold : Q)
    (height width : Z) (person_keypoints : person) : list Uploads.detection :=
  let labels := keypoint_labels use_26_keypoints in
  let seen := take (length labels) person_keypoints in
  let raw_keypoints := (λ r : Q * Q * Q, (r.1.1, r.1.2)) <$> seen in
  let confidences := (λ r : Q * Q * Q, r.2) <$> seen in
  let corrected_keypoints :=
    if use_26_keypoints && bool_decide (17 ≤ length raw_keypoints)%nat
    then correct_keypoints_26 raw_keypoints height width
    else raw_keypoints in
  omap id
    (imap (λ kp_idx (pc : point * Q),
             match labels !! kp_idx with
             | Some label =>
                 if Uploads.Qgtb pc.2 threshold
                 then Some (Uploads.mk_detection "keypoint" label pc.1.1 pc.1.2 pc.2)
                 else None
             | None => None
             end)
          (zip corrected_keypoints confidences)).

(** The bounding-box entries of one result; of each box the detection
    record keeps the corner, the confidence and the label. *)
Definition box_annotations (use_26_keypoints : bool) (boxes : list box)
  : list Uploads.detection :=
  imap (λ box_idx b,
          Uploads.mk_detection "bounding_box"
            ((if use_26_keypoints then "infant_" else "person_") +:+ pretty box_idx)
            (box_x1 b) (box_y1 b) (box_conf b))
       boxes.

Definition result_annotations (use_26_keypoints : bool) (threshold : Q)
    (height width : Z) (r : yolo_result) : list Uploads.detection :=
  ((default [] (result_keypoints r) ≫= person_annotations use_26_keypoints threshold height width)
   ++ box_annotations use_26_keypoints (default [] (result_boxes r)))%list.

(** [process_image(image_path)].  [image_shape] is what [cv2.imread]
    gives for the path ([None] when the file is missing or unreadable),
    [model] the inference, which may raise, [threshold] the setting
    [YOLO_CONFIDENCE_THRESHOLD].  Whatever is raised on the way is
    logged and raised again.  An exception leaves nothing of the
    annotations collected so far, so the rows are unpacked first, in
    the order of the loops, and the annotations made of them then. *)
Definition process_image (use_26_keypoints : bool) (threshold : Q)
    (file_exists : string → bool) (image_shape : string → option (Z * Z))
    (model : string → result (list raw_result)) (image_path : string)
  : result (list Uploads.detection) :=
  if negb (file_exists image_path)
  then Raise (ProcessingError ("Image not found: " +:+ image_path))
  else
    match image_shape image_path with
    | None => Raise (ProcessingError ("Could not load image from " +:+ image_path))
    | Some (height, width) =>
        match model image_path with
        | Raise e => Raise e
        | Ok raw_results =>
            match mapM unpack_result raw_results with
            | Raise e => Raise e
            | Ok results =>
                Ok (results ≫= result_annotations use_26_keypoints threshold height width)
            end
        end
    end.

End YoloProcessor.

(** * [Image.get_annotation] ([backend/images/models.py]) *)

Module ImageAnnotations.

(** [self.annotations.filter(status='SUBMITTED').first()], in the
    default order of annotations, newest first. *)
Definition get_annotation (i : Images.Image) (anns : list Annotations.Annotation.t)
  : option Annotations.Annotation.t :=
  head (filter (λ a, Annotations.Annotation.status a = "SUBMITTED")
               (Annotations.Annotation.of_image (Images.id i) anns)).

End ImageAnnotations.

(** * Properties *)

(** ** Tables *)

Section TableFacts.
Context {R : Type} (pk : R → string).

Lemma tbl_get_Some k t r : tbl_get pk k t = Some r → pk r = k ∧ r ∈ t.
Proof.
  unfold tbl_get. intros H. split.
  - apply find_some in H as [_ H]. by apply bool_decide_eq_true in H.
  - apply find_some in H as [H _]. by apply list_elem_of_In.
Qed.

Lemma tbl_get_update_eq r t :
  is_Some (tbl_get pk (pk r) t) → tbl_get pk (pk r) (tbl_update pk r t) = Some r.
Proof.
  unfold tbl_get, tbl_update. induction t as [|x t IH]; simpl.
  - intros [? ?]; discriminate.
  - destruct (bool_decide (pk x = pk r)) eqn:E; simpl.
    + intros _. by rewrite bool_decide_eq_true_2.
    + rewrite E. exact IH.
Qed.

Lemma tbl_get_update_ne r k t :
  k ≠ pk r → tbl_get pk k (tbl_update pk r t) = tbl_get pk k t.
Proof.
  intros Hne. unfold tbl_get, tbl_update. induction t as [|x t IH]; simpl; [done|].
  destruct (bool_decide (pk x = pk r)) eqn:E; simpl.
  - apply bool_decide_eq_true in E.
    rewrite !bool_decide_eq_false_2 by congruence. exact IH.
  - destruct (bool_decide (pk x = k)); [done | exact IH].
Qed.

Lemma tbl_get_save_eq r t : tbl_get pk (pk r) (tbl_save pk r t) = Some r.
Proof.
  unfold tbl_save. destruct (tbl_get pk (pk r) t) eqn:E.
  - apply tbl_get_update_eq. by rewrite E.
  - unfold tbl_get. simpl. by rewrite bool_decide_eq_true_2.
Qed.

Lemma tbl_get_save_ne r k t :
  k ≠ pk r → tbl_get pk k (tbl_save pk r t) = tbl_get pk k t.
Proof.
  intros Hne. unfold tbl_save. destruct (tbl_get pk (pk r) t) eqn:E.
  - by apply tbl_get_update_ne.
  - unfold tbl_get. simpl. by rewrite bool_decide_eq_false_2.
Qed.

Lemma tbl_count_nonneg (p : R → bool) t : 0 ≤ tbl_count p t.
Proof. unfold tbl_count. lia. Qed.

Lemma tbl_count_le_length (p : R → bool) t : tbl_count p t ≤ Z.of_nat (length t).
Proof. unfold tbl_count. pose proof (length_filter (λ r, p r = true) t). lia. Qed.

(** Counting over two exclusive conditions adds up. *)
Lemma tbl_count_disjoint (p q : R → bool) t :
  (∀ r, p r = true → q r = true → False) →
  tbl_count (λ r, p r || q r) t = tbl_count p t + tbl_count q t.
Proof.
  intros Hpq. unfold tbl_count. induction t as [|x t IH]; [done|].
  rewrite !filter_cons.
  destruct (p x) eqn:Ep, (q x) eqn:Eq; simpl;
    repeat case_decide; try done; simpl length; try lia.
  exfalso. by eapply Hpq.
Qed.

(** Two exclusive conditions never count more rows than there are. *)
Lemma tbl_count_disjoint_le (p q : R → bool) t :
  (∀ r, p r = true → q r = true → False) →
  tbl_count p t + tbl_count q t ≤ Z.of_nat (length t).
Proof.
  intros Hpq. rewrite <- tbl_count_disjoint by done. apply tbl_count_le_length.
Qed.
End TableFacts.

Lemma tbl_count_ext {R : Type} (p q : R → bool) (t : list R) :
  (∀ r, p r = q r) → tbl_count p t = tbl_count q t.
Proof.
  intros Hpq. unfold tbl_count. do 2 f_equal.
  apply list_filter_iff. intros r. by rewrite Hpq.
Qed.

Lemma str_in_two (s a b : string) :
  str_in s [a; b] = bool_decide (s = a) || bool_decide (s = b).
Proof.
  unfold str_in. apply eq_true_iff_eq.
  rewrite orb_true_iff, !bool_decide_eq_true, !elem_of_cons, elem_of_nil. tauto.
Qed.

(** ** The [Image] status field *)

Section ImageStatus.
Import Images.


End ImageStatus.

(** ** [ImageBatch.update_progress] *)

Section BatchProgress.
Import Images.

Definition counters_consistent (b : ImageBatch) : Prop :=
  completed_count b = approved_count b + rejected_count b.

Lemma completed_is_approved_plus_rejected (t : list Image) :
  tbl_count (λ i, str_in (status i) ["APPROVED"; "REJECTED"]) t =
  tbl_count (λ i, bool_decide (status i = "APPROVED")) t +
  tbl_count (λ i, bool_decide (status i = "REJECTED")) t.
Proof.
  rewrite <- tbl_count_disjoint.
  - apply tbl_count_ext. intros i. apply str_in_two.
  - intros i Ha Hr. apply bool_decide_eq_true in Ha, Hr. congruence.
Qed.

Lemma assigned_and_completed_exclusive (i : Image) :
  str_in (status i) ["ASSIGNED"; "IN_PROGRESS"; "ANNOTATED"; "SUBMITTED"] = true →
  str_in (status i) ["APPROVED"; "REJECTED"] = true → False.
Proof.
  unfold str_in. intros Ha Hc. apply bool_decide_eq_true in Ha, Hc.
  rewrite !elem_of_cons, elem_of_nil in Ha. rewrite !elem_of_cons, elem_of_nil in Hc.
  destruct Hc as [Hc|[Hc|[]]]; rewrite Hc in Ha;
    repeat (destruct Ha as [Ha|Ha]; [discriminate|]); done.
Qed.

Lemma update_progress_inv (b b' : ImageBatch) (d d' : db) :
  update_progress b d = Ok (b', d') →
  ∃ row a c ap r,
    batches d !! batch_id b = Some row ∧
    b' = with_counters a c ap r b ∧
    d' = mkDb (<[batch_id b := with_counters a c ap r row]> (batches d)) (images d) ∧
    c = ap + r ∧ 0 ≤ a ∧
    a + c ≤ Z.of_nat (length (batch_images b (images d))).
Proof.
  unfold update_progress. destruct (batches d !! batch_id b) as [row|] eqn:Hrow; [|done].
  intros [= <- <-]. eexists row, _, _, _, _. split_and!; try reflexivity.
  - apply completed_is_approved_plus_rejected.
  - apply tbl_count_nonneg.
  - apply tbl_count_disjoint_le. apply assigned_and_completed_exclusive.
Qed.

Lemma step_counters_consistent (d d' : db) :
  step d d' →
  (∀ k b, batches d !! k = Some b → counters_consistent b) →
  ∀ k b, batches d' !! k = Some b → counters_consistent b.
Proof.
  intros Hstep Hinv. destruct Hstep as [d k0 name total Hfresh | d i | d k0 | d b0 b' d' Hup];
    simpl; intros k b Hk; try by eapply Hinv.
  - destruct (decide (k0 = k)) as [->|Hne].
    + rewrite lookup_insert_eq in Hk. by injection Hk as <-.
    + rewrite lookup_insert_ne in Hk by done. by eapply Hinv.
  - apply update_progress_inv in Hup as (row & a & c & ap & r & Hrow & -> & -> & Hc & _).
    simpl in Hk. destruct (decide (batch_id b0 = k)) as [Heq|Hne].
    + rewrite Heq, lookup_insert_eq in Hk. injection Hk as <-. exact Hc.
    + rewrite lookup_insert_ne in Hk by done. by eapply Hinv.
Qed.

Lemma reachable_counters_consistent (d : db) :
  reachable d → ∀ k b, batches d !! k = Some b → counters_consistent b.
Proof.
  induction 1 as [|d d' _ IH Hstep].
  - intros k b Hk. simpl in Hk. by rewrite lookup_empty in Hk.
  - by apply (step_counters_consistent d d').
Qed.

(** A batch declared with one image that owns two assigned images. *)
Definition crowded_db : db :=
  mkDb (<["b" := new_batch "b" "demo" 1]> ∅)
       [ mkImage "i2" "b" "2.jpg" "ASSIGNED" None None;
         mkImage "i1" "b" "1.jpg" "ASSIGNED" None None ].

Lemma crowded_db_reachable : reachable crowded_db.
Proof.
  pose proof reachable_empty as H0.
  pose proof (reachable_step _ _ H0 (step_create_batch (mkDb ∅ []) "b" "demo" 1 eq_refl)) as H1.
  pose proof (reachable_step _ _ H1
    (step_save_image _ (mkImage "i1" "b" "1.jpg" "ASSIGNED" None None))) as H2.
  pose proof (reachable_step _ _ H2
    (step_save_image _ (mkImage "i2" "b" "2.jpg" "ASSIGNED" None None))) as H3.
  exact H3.
Qed.

(** C2, as stated, fails in its second half: nothing ties the number of
    images of a batch to its declared [total_images], so a recount can
    leave [assigned_count] above it. *)
Lemma assigned_count_can_exceed_total :
  ∃ b' d',
    reachable crowded_db ∧
    update_progress (new_batch "b" "demo" 1) crowded_db = Ok (b', d') ∧
    ¬ (assigned_count b' ≤ total_images b').
Proof.
  eexists _, _. split; [apply crowded_db_reachable|]. split; [reflexivity|].
  vm_compute. intros H. by apply H.
Qed.

(** C2, amended.  In every state reached by creating batches, writing
    and deleting images and recounting, each stored batch has
    [completed_count = approved_count + rejected_count]; and each
    [update_progress] returns, and stores, counters with that equation
    and with [assigned_count + completed_count] at most the number of
    images the batch has at that moment. *)
Theorem update_progress_counters (d d' : db) (b b' : ImageBatch) :
  reachable d →
  update_progress b d = Ok (b', d') →
  counters_consistent b' ∧
  0 ≤ assigned_count b' ∧
  assigned_count b' + completed_count b' ≤ Z.of_nat (length (batch_images b (images d))) ∧
  (∃ row, batches d' !! batch_id b = Some row ∧
          assigned_count row = assigned_count b' ∧
          completed_count row = completed_count b' ∧
          approved_count row = approved_count b' ∧
          rejected_count row = rejected_count b') ∧
  images d' = images d ∧
  reachable d' ∧
  map_Forall (λ _ row, counters_consistent row) (batches d').
Proof.
  intros Hreach Hup.
  assert (Hreach' : reachable d').
  { eapply reachable_step; [exact Hreach | by eapply step_update_progress]. }
  pose proof (reachable_counters_consistent d' Hreach') as Hall.
  apply update_progress_inv in Hup as (row & a & c & ap & r & Hrow & -> & -> & Hc & Ha & Hle).
  split_and!; try done.
  exists (with_counters a c ap r row). simpl. by rewrite lookup_insert_eq.
Qed.

Lemma update_progress_counters_witness :
  ∃ b' d', update_progress (new_batch "b" "demo" 1) crowded_db = Ok (b', d') ∧
           counters_consistent b' ∧ assigned_count b' = 2.
Proof.
  eexists _, _. split; [reflexivity|].
  pose proof (update_progress_counters crowded_db _ (new_batch "b" "demo" 1) _
                crowded_db_reachable eq_refl) as (Hc & _).
  split; [exact Hc | reflexivity].
Defined.
End BatchProgress.

(** ** [Verification]: one row per annotation *)

Section VerificationOnce.
Import Verifications.

Lemma verification_create_inv engine users anns k a tbl v tbl' :
  create engine users anns k a tbl = Ok (v, tbl') →
  columns_fit engine a = true ∧
  tbl_get id k tbl = None ∧
  kw_verifier a ∈ users ∧
  is_Some (tbl_get Annotations.Annotation.id (kw_annotation a) anns) ∧
  of_annotation (kw_annotation a) tbl = [] ∧
  v = row_of k a ∧ tbl' = v :: tbl.
Proof.
  unfold create. destruct (columns_fit engine a); [|done]. simpl.
  destruct (tbl_get id k tbl); [done|].
  case_bool_decide as Hv; [|done]. simpl.
  destruct (tbl_get Annotations.Annotation.id (kw_annotation a) anns); [|done].
  destruct (of_annotation (kw_annotation a) tbl) eqn:E; [|done].
  intros [= <- <-]. split_and!; eauto.
Qed.

Lemma of_annotation_cons v x tbl :
  of_annotation x (v :: tbl) =
  if bool_decide (annotation v = x) then v :: of_annotation x tbl else of_annotation x tbl.
Proof.
  unfold of_annotation. rewrite filter_cons.
  destruct (decide (annotation v = x)) as [H|H].
  - by rewrite bool_decide_eq_true_2.
  - by rewrite bool_decide_eq_false_2.
Qed.

Lemma built_at_most_one tbl :
  built tbl → ∀ x, (length (of_annotation x tbl) ≤ 1)%nat.
Proof.
  induction 1 as [|engine users anns tbl k a v tbl' _ IH Hc]; intros x; [simpl; lia|].
  apply verification_create_inv in Hc as (_ & _ & _ & _ & Hnone & -> & ->).
  rewrite of_annotation_cons. simpl. case_bool_decide as Hx; [|apply IH].
  subst x. rewrite Hnone. simpl. lia.
Qed.

Lemma create_first engine users anns tbl k a ann :
  columns_fit engine a = true →
  kw_verifier a ∈ users →
  tbl_get Annotations.Annotation.id (kw_annotation a) anns = Some ann →
  tbl_get id k tbl = None →
  of_annotation (kw_annotation a) tbl = [] →
  create engine users anns k a tbl = Ok (row_of k a, row_of k a :: tbl).
Proof.
  intros Hfit Hv Hann Hk Hnone. unfold create.
  by rewrite Hfit, Hk, bool_decide_eq_true_2, Hann, Hnone.
Qed.

Lemma create_again engine users anns tbl k a v rest :
  of_annotation (kw_annotation a) tbl = v :: rest →
  create engine users anns k a tbl
  = Raise (if columns_fit engine a then IntegrityError else DataError).
Proof.
  intros Hsome. unfold create. destruct (columns_fit engine a); [|done]. simpl.
  destruct (tbl_get id k tbl); [done|].
  destruct (bool_decide _); [|done]. simpl.
  destruct (tbl_get Annotations.Annotation.id (kw_annotation a) anns); [|done].
  by rewrite Hsome.
Qed.

(** C4.  On a table that [create] has built, for values that the
    columns take, a stored verifier, a stored annotation and a fresh
    key: when the annotation has no row yet, [create] succeeds and adds
    exactly one row, the one made of its arguments, and from then on
    every further [create] for that annotation, by whatever verifier
    and under whatever key, raises (the integrity error of the
    one-to-one column, which the specification names AlreadyVerified,
    unless a value is refused by its column before that), so that the
    table keeps that one row; when the annotation has a row already,
    [create] raises the integrity error.  No annotation ever has two
    rows. *)
Theorem verification_exactly_once engine users anns tbl k a ann :
  built tbl →
  columns_fit engine a = true →
  kw_verifier a ∈ users →
  tbl_get Annotations.Annotation.id (kw_annotation a) anns = Some ann →
  tbl_get id k tbl = None →
  match of_annotation (kw_annotation a) tbl with
  | [] =>
      create engine users anns k a tbl = Ok (row_of k a, row_of k a :: tbl) ∧
      built (row_of k a :: tbl) ∧
      of_annotation (kw_annotation a) (row_of k a :: tbl) = [row_of k a] ∧
      (∀ x, x ≠ kw_annotation a →
            of_annotation x (row_of k a :: tbl) = of_annotation x tbl) ∧
      (∀ engine2 users2 anns2 k2 a2,
         kw_annotation a2 = kw_annotation a →
         create engine2 users2 anns2 k2 a2 (row_of k a :: tbl)
         = Raise (if columns_fit engine2 a2 then IntegrityError else DataError))
  | v :: rest =>
      rest = [] ∧ create engine users anns k a tbl = Raise IntegrityError
  end ∧
  (∀ x, (length (of_annotation x tbl) ≤ 1)%nat).
Proof.
  intros Hb Hfit Hver Hann Hk. split; [|by apply built_at_most_one].
  destruct (of_annotation (kw_annotation a) tbl) as [|v rest] eqn:Hrows.
  - pose proof (create_first engine users anns tbl k a ann Hfit Hver Hann Hk Hrows) as Hc.
    assert (Hv : of_annotation (kw_annotation a) (row_of k a :: tbl) = [row_of k a]).
    { rewrite of_annotation_cons. simpl. rewrite bool_decide_eq_true_2 by done.
      by rewrite Hrows. }
    split_and!; try done.
    + by eapply built_create.
    + intros x Hx. rewrite of_annotation_cons. simpl.
      by rewrite bool_decide_eq_false_2 by congruence.
    + intros engine2 users2 anns2 k2 a2 Heq.
      apply (create_again engine2 users2 anns2 _ k2 a2 (row_of k a) []).
      by rewrite Heq.
  - split.
    + pose proof (built_at_most_one tbl Hb (kw_annotation a)) as Hone.
      rewrite Hrows in Hone. simpl in Hone. destruct rest; [done | simpl in Hone; lia].
    + rewrite (create_again engine users anns tbl k a v rest Hrows). by rewrite Hfit.
Qed.

Definition demo_annotation : Annotations.Annotation.t :=
  Annotations.Annotation.mk "a1" "img-1" "asg-1" 1 false None 30 "SUBMITTED".

Definition demo_decision (verifier decision : string) : kwargs :=
  mk_kwargs "a1" verifier decision 8 None 60 9 None None.

Lemma verification_exactly_once_witness :
  create postgresql ["vera"; "victor"] [demo_annotation] "v1"
         (demo_decision "vera" "APPROVED") []
    = Ok (row_of "v1" (demo_decision "vera" "APPROVED"),
          [row_of "v1" (demo_decision "vera" "APPROVED")]) ∧
  create postgresql ["vera"; "victor"] [demo_annotation] "v2"
         (demo_decision "victor" "REJECTED")
         [row_of "v1" (demo_decision "vera" "APPROVED")]
    = Raise IntegrityError.
Proof.
  assert (Hvera : "vera" ∈ ["vera"; "victor"]) by (apply list_elem_of_In; simpl; tauto).
  pose proof (verification_exactly_once postgresql ["vera"; "victor"] [demo_annotation] []
                "v1" (demo_decision "vera" "APPROVED") demo_annotation
                built_nil eq_refl Hvera eq_refl eq_refl)
    as [(Hfirst & _ & _ & _ & Hsecond) _].
  split; [exact Hfirst|].
  exact (Hsecond postgresql ["vera"; "victor"] [demo_annotation] "v2"
           (demo_decision "victor" "REJECTED") eq_refl).
Defined.

(** A score that the integer column does not hold is refused before
    the one-to-one column is looked at, on the first [create] and on a
    second one alike. *)
Example create_out_of_range :
  create postgresql ["vera"] [demo_annotation] "v1"
         (mk_kwargs "a1" "vera" "APPROVED" (2 ^ 31) None 60 9 None None) []
  = Raise DataError ∧
  create postgresql ["vera"] [demo_annotation] "v2"
         (mk_kwargs "a1" "vera" "APPROVED" (2 ^ 31) None 60 9 None None)
         [row_of "v1" (demo_decision "vera" "APPROVED")]
  = Raise DataError.
Proof. by vm_compute. Qed.
End VerificationOnce.

(** ** [Annotation]: no per-image guard, versioning as supplied *)

Section AnnotationRows.
Import Annotations.Annotation.

Definition first_draft : t := mk "a1" "img-1" "asg-1" 1 false None 30 "DRAFT".

Definition second_submission : kwargs :=
  mk_kwargs "img-1" "asg-1" 45 None None None None.


Definition original_ok (a : kwargs) (tbl : list t) : Prop :=
  match kw_original_annotation a with
  | Some o => is_Some (tbl_get id o tbl)
  | None => True
  end.


Lemma create_inv_annotation k a tbl row tbl' :
  create k a tbl = Ok (row, tbl') →
  tbl_get id k tbl = None ∧ original_ok a tbl ∧ row = row_of k a ∧ tbl' = row :: tbl.
Proof.
  unfold create, original_ok. destruct (tbl_get id k tbl); [done|].
  destruct (kw_original_annotation a) as [o|].
  - destruct (tbl_get id o tbl); [|done]. intros [= <- <-]. eauto.
  - intros [= <- <-]. eauto.
Qed.



(** C6, as stated, fails: a further annotation of an image that
    already has its version-1 root gets the declared defaults, version
    1 and no original, not the next version and the root. *)
Lemma revision_chain_not_derived : ¬ spec_revision_chain.
Proof.
  intros H.
  assert (Hin : first_draft ∈ [first_draft]) by apply list_elem_of_singleton, eq_refl.
  destruct (H [first_draft] first_draft _ _ "a2" second_submission
              Hin eq_refl eq_refl eq_refl) as [Hv _].
  vm_compute in Hv. discriminate Hv.
Qed.

(** C6, amended.  A created annotation carries [version], [is_revision]
    and [original_annotation] exactly as the caller supplied them, with
    the declared defaults 1, false and null for those left out; an
    original that is named is a stored annotation.  The row depends on
    the key and the arguments alone, not on the image's earlier
    annotations. *)
Theorem annotation_versioning_as_supplied k a tbl row tbl' :
  create k a tbl = Ok (row, tbl') →
  version row = default 1 (kw_version a) ∧
  is_revision row = default false (kw_is_revision a) ∧
  original_annotation row = kw_original_annotation a ∧
  original_ok a tbl ∧
  row = row_of k a ∧
  tbl' = row :: tbl.
Proof.
  intros Hc. apply create_inv_annotation in Hc as (_ & Ho & -> & ->). done.
Qed.

Definition revision_of_predecessor : kwargs :=
  mk_kwargs "img-1" "asg-2" 50 (Some 7) (Some true) (Some "a2") None.

(** A third annotation naming its immediate predecessor, with a version
    of the caller's choosing, is stored as given. *)
Lemma annotation_versioning_as_supplied_witness :
  ∃ row tbl',
    create "a3" revision_of_predecessor [row_of "a2" second_submission; first_draft]
      = Ok (row, tbl') ∧
    version row = 7 ∧ original_annotation row = Some "a2".
Proof.
  eexists _, _. split; [reflexivity|].
  pose proof (annotation_versioning_as_supplied "a3" revision_of_predecessor
                [row_of "a2" second_submission; first_draft] _ _ eq_refl)
    as (Hv & _ & Ho & _).
  split; [exact Hv | exact Ho].
Defined.
End AnnotationRows.

(** ** [BatchAssignment.update_progress] *)

Section AssignmentProgress.
Import Annotations.BatchAssignment.
Local Abbreviation Annotation := Annotations.Annotation.t.

Definition submitted_count (a : t) (anns : list Annotation) : Z :=
  tbl_count (λ x, bool_decide (Annotations.Annotation.status x = "SUBMITTED"))
            (annotations a anns).

(** An assignment whose [images_total] is -2 (the column takes any
    integer), with one submitted annotation. *)
Definition odd_assignment : t :=
  mk "asg-1" "b" "ann" "adm" "INITIAL" 5 "ASSIGNED" (Decimal 0) 0 (-2) None.

Definition one_submitted : list Annotation :=
  [ Annotations.Annotation.mk "a1" "img-1" "asg-1" 1 false None 30 "SUBMITTED" ].

(** C9, as stated for every assignment, fails: the percentage is only
    recomputed under the guard [images_total > 0]; here it stays 0
    where the formula gives -50. *)
Lemma progress_not_always_recomputed : ¬ spec_always_recomputed.
Proof.
  intros H.
  specialize (H sqlite odd_assignment _ one_submitted [odd_assignment] _ eq_refl).
  vm_compute in H. discriminate H.
Qed.

(** Rounding a fraction moves it by half a unit at most. *)
Lemma round_fraction_close (to_even : bool) (n d : Z) :
  0 < d → 2 * Z.abs (round_fraction to_even n d * d - n) ≤ d.
Proof.
  intros Hd. unfold round_fraction.
  pose proof (Z.div_mod n d ltac:(lia)) as Hn.
  pose proof (Z.mod_pos_bound n d Hd) as Hr.
  assert (E0 : n / d * d - n = - (n mod d)) by lia.
  assert (E1 : (n / d + 1) * d - n = d - n mod d) by lia.
  destruct (Z.compare_spec (2 * (n mod d)) d) as [Hcmp|Hcmp|Hcmp].
  - destruct (to_even && Z.even (n / d)); [rewrite E0 | rewrite E1]; lia.
  - rewrite E0. lia.
  - rewrite E1. lia.
Qed.

Lemma round_fraction_nonneg (to_even : bool) (n d : Z) :
  0 ≤ n → 0 < d → 0 ≤ round_fraction to_even n d.
Proof.
  intros Hn Hd. unfold round_fraction.
  pose proof (Z.div_pos n d Hn Hd).
  destruct (2 * (n mod d) ?= d); [destruct (to_even && Z.even (n / d))| |]; lia.
Qed.

Lemma float_fraction_positive (f : float) (n d : Z) :
  float_fraction f = Some (n, d) → 0 < d.
Proof.
  destruct f as [s| | |s m e]; simpl; try done.
  - by intros [= <- <-].
  - destruct (0 <=? e) eqn:He; intros [= <- <-]; [lia|].
    apply Z.leb_gt in He. apply Z.pow_pos_nonneg; lia.
Qed.

(** What the column holds of a number: a [Decimal] as it is, of a float
    the hundredths nearest to its value, one hundredth away at most. *)
Definition stored_as (x : number) (h : Z) : Prop :=
  match x with
  | Decimal h0 => h = h0
  | Float f =>
      ∃ n d, float_fraction f = Some (n, d) ∧ 0 < d ∧ Z.abs (h * d - 100 * n) ≤ d
  end.

Lemma decimal_column_stored (engine : database) (x : number) (h : Z) :
  decimal_column engine x = Ok h → stored_as x h ∧ Z.abs h < 100000.
Proof.
  destruct x as [h0|f]; simpl.
  - destruct (Z.abs h0 <? 100000) eqn:Hb; [|done]. intros [= <-].
    apply Z.ltb_lt in Hb. done.
  - destruct (float_fraction f) as [[n d]|] eqn:Hf; [|done].
    pose proof (float_fraction_positive f n d Hf) as Hd.
    destruct (five_digits_scale (Z.abs n) d) as [s|] eqn:Hs; [|done].
    assert (Hscale : s = 0 ∧ 1000 * Z.abs n < d ∨ 100 ≤ s).
    { unfold five_digits_scale in Hs.
      repeat (match type of Hs with
              | (if ?c then _ else _) = _ => destruct c eqn:?
              end); try (injection Hs as <-); try discriminate; try (right; lia).
      left. split; [done|]. rewrite Z.leb_gt in *. lia. }
    destruct Hscale as [[-> Hsmall] | Hbig].
    + intros [= <-]. split; [|simpl; lia]. exists n, d. split_and!; try done. lia.
    + destruct s as [|s|s]; [lia| |lia].
      set (c := round_fraction true (Z.abs n * Z.pos s) d).
      set (h' := round_fraction (ties_even engine) (c * 100) (Z.pos s)).
      destruct (h' <? 100000) eqn:Hlt; [|done]. apply Z.ltb_lt in Hlt.
      pose proof (round_fraction_close true (Z.abs n * Z.pos s) d Hd) as Hc. fold c in Hc.
      pose proof (round_fraction_close (ties_even engine) (c * 100) (Z.pos s) ltac:(lia)) as Hh.
      fold h' in Hh.
      assert (Hc0 : 0 ≤ c) by (apply round_fraction_nonneg; lia).
      assert (Hh0 : 0 ≤ h') by (apply round_fraction_nonneg; lia).
      assert (Hclose : Z.abs (h' * d - 100 * Z.abs n) ≤ d) by nia.
      intros [= <-]. split.
      * exists n, d. split_and!; try done.
        destruct (n <? 0) eqn:Hneg; [apply Z.ltb_lt in Hneg | apply Z.ltb_ge in Hneg]; lia.
      * destruct (n <? 0); lia.
Qed.

(** C9, amended.  On a stored assignment [update_progress] counts the
    assignment's annotations in SUBMITTED status and, when
    [images_total > 0], computes [images_completed / images_total *
    100] as a float; when [images_total <= 0] the percentage is left as
    it is.  The instance gets the count and the percentage; the stored
    row gets the count and the percentage as the two-decimal column
    takes it, within one hundredth of the float, and every other row
    stays.  The call fails, and writes nothing, only when the column
    refuses the percentage (from 1000 on) or the quotient is no
    float. *)
Theorem assignment_update_progress (engine : database) (a row : t)
    (anns : list Annotation) (tbl : list t) :
  tbl_get id (id a) tbl = Some row →
  match (if bool_decide (0 < images_total a)
         then percentage (submitted_count a anns) (images_total a)
         else Ok (progress_percentage a)) with
  | Raise e => update_progress engine a anns tbl = Raise e
  | Ok p =>
      match update_progress engine a anns tbl with
      | Ok (a', tbl') =>
          a' = with_progress (submitted_count a anns) p a ∧
          ∃ h,
            tbl_get id (id a) tbl'
              = Some (with_progress (submitted_count a anns) (Decimal h) row) ∧
            stored_as p h ∧ Z.abs h < 100000 ∧
            (∀ k, k ≠ id a → tbl_get id k tbl' = tbl_get id k tbl)
      | Raise e => decimal_column engine p = Raise e
      end
  end.
Proof.
  intros Hrow. unfold update_progress. fold (submitted_count a anns).
  set (c := submitted_count a anns).
  replace (0 <? images_total a) with (bool_decide (0 < images_total a)).
  2:{ case_bool_decide as Hpos; symmetry; [by apply Z.ltb_lt | by apply Z.ltb_nlt]. }
  destruct (if bool_decide (0 < images_total a) then _ else _) as [p|e]; [|done].
  destruct (decimal_column engine p) as [h|e] eqn:Hcol; [|done].
  rewrite Hrow. split; [done|]. exists h.
  destruct (decimal_column_stored engine p h Hcol) as [Hstored Hbound].
  destruct (tbl_get_Some id _ _ _ Hrow) as [Hid _].
  split_and!; try done.
  - rewrite <- Hid. apply (tbl_get_update_eq id (with_progress c (Decimal h) row)).
    simpl. by rewrite Hid, Hrow.
  - intros k Hk. apply (tbl_get_update_ne id (with_progress c (Decimal h) row)).
    simpl. congruence.
Qed.

(** One annotation submitted of three. *)
Definition third_done : t :=
  mk "asg-1" "b" "ann" "adm" "INITIAL" 5 "IN_PROGRESS" (Decimal 0) 0 3 None.

Lemma assignment_update_progress_witness :
  ∃ a' tbl',
    update_progress sqlite third_done one_submitted [third_done] = Ok (a', tbl') ∧
    images_completed a' = 1 ∧
    Ok (progress_percentage a') = percentage 1 3 ∧
    progress_percentage <$> tbl_get id "asg-1" tbl' = Some (Decimal 3333).
Proof.
  eexists _, _. split; [reflexivity|].
  pose proof (assignment_update_progress sqlite third_done third_done one_submitted
                [third_done] eq_refl) as H.
  vm_compute in H. destruct H as [_ (h & Hrow & _)].
  injection Hrow as <-. by split_and!.
Defined.

(** Ten annotations submitted where one image was declared: 1000 per
    cent, which the column refuses on either engine. *)
Example progress_column_overflow :
  ∀ engine,
    update_progress engine
      (mk "asg-1" "b" "ann" "adm" "INITIAL" 5 "IN_PROGRESS" (Decimal 0) 0 1 None)
      ((λ n, Annotations.Annotation.mk (pretty n) "img" "asg-1" 1 false None 30 "SUBMITTED")
         <$> seq 0 10)
      [mk "asg-1" "b" "ann" "adm" "INITIAL" 5 "IN_PROGRESS" (Decimal 0) 0 1 None]
    = Raise DataError.
Proof. by intros [bits [|]]. Qed.

(** A tie of the second rounding: one of eight hundred is 0.125 per
    cent, stored as 0.12 where Django rounds and as 0.13 where
    PostgreSQL does. *)
Example progress_column_tie :
  (λ engine,
     decimal_column engine (Float (float_mul (SFdiv 53 1024 (int_float 1) (int_float 800))
                                             (int_float 100))))
    <$> [sqlite; postgresql]
  = [Ok 12; Ok 13].
Proof. vm_compute. reflexivity. Qed.
End AssignmentProgress.

(** ** [upload_image]: validation comes before any write *)

Section UploadValidation.
Import Uploads.

(** C10.  A request whose file is larger than 10 MB, or whose content
    type is not one of the four allowed, is answered with status 400,
    and the database and the storage are exactly as before: no file
    saved, no [ImageUpload] row, the batch row untouched. *)
Theorem upload_rejected_before_any_write env k request d f :
  files_file request = Some f →
  size f > 10 * 1024 * 1024 ∨ content_type f ∉ allowed_types →
  status_code (upload_image env k request d).1 = 400 ∧
  (upload_image env k request d).2 = d.
Proof.
  intros Hf Hbad. unfold upload_image. rewrite Hf.
  destruct (negb _) eqn:Hmissing; [done|].
  destruct (post_batch_id request) as [batch_id|]; [|done].
  destruct (post_file_id request) as [file_id|]; [|done].
  case_bool_decide as Hsize; [done|].
  destruct Hbad as [Hbig|Htype]; [done|].
  unfold str_in. by rewrite bool_decide_eq_false_2.
Qed.

Definition plain_env : collaborators := mk_collaborators (λ _, true) (λ _ wanted, wanted).

Definition one_pending_batch : db :=
  mkDb [UploadBatch.mk "b1" "u" 2 0 0 0 "pending" None] [] [].

Definition pdf_upload : upload_request :=
  mk_request "u" (Some "b1") (Some "f1") (Some (mk_file "scan.pdf" 2048 "application/pdf")).

Lemma upload_rejected_before_any_write_witness :
  status_code (upload_image plain_env "i1" pdf_upload one_pending_batch).1 = 400 ∧
  (upload_image plain_env "i1" pdf_upload one_pending_batch).2 = one_pending_batch.
Proof.
  apply (upload_rejected_before_any_write plain_env "i1" pdf_upload one_pending_batch
           (mk_file "scan.pdf" 2048 "application/pdf")); [reflexivity|].
  right. apply (proj1 (bool_decide_eq_false _)). vm_compute. reflexivity.
Defined.

(** An accepted upload, for contrast: the file is saved, the row
    created, and the batch moves from pending to uploading with one
    more uploaded file. *)
Example upload_accepted :
  upload_image plain_env "i1"
    (mk_request "u" (Some "b1") (Some "f1") (Some (mk_file "baby.v2.jpg" 2048 "image/jpeg")))
    one_pending_batch
  = (JsonResponse (ImageUploaded "i1") 200,
     mkDb [UploadBatch.mk "b1" "u" 2 1 0 0 "uploading" None]
          [ImageUpload.mk "i1" "b1" "f1" "baby.v2.jpg" "b1/f1.jpg" 2048 "image/jpeg"
                          "uploaded" None 0 None None None]
          ["b1/f1.jpg"]).
Proof. vm_compute. reflexivity. Qed.

Example splitext_hidden_file : splitext_ext "dir.d/.bashrc" = "".
Proof. reflexivity. Qed.
End UploadValidation.

(** ** The detection tasks *)

Section DetectionTasks.
Import Uploads.

Local Abbreviation get_image := (tbl_get ImageUpload.id).
Local Abbreviation get_row := (tbl_get UploadBatch.id).

(** A run on [image_id] keeps that image's batch and file, every other
    image as it is, and the storage as it is. *)
Record touches_only (image_id : string) (d d' : db) : Prop := mk_touches {
  touched_image :
    ∀ i, get_image image_id (images d) = Some i →
         ∃ i', get_image image_id (images d') = Some i' ∧
               ImageUpload.batch i' = ImageUpload.batch i ∧
               ImageUpload.file_path i' = ImageUpload.file_path i;
  other_images : ∀ j, j ≠ image_id → get_image j (images d') = get_image j (images d);
  same_storage : storage d' = storage d
}.

(** Two versions of a batch row that differ at most by a larger
    [failed_files]. *)
Definition failed_files_grew (b b' : UploadBatch.t) : Prop :=
  UploadBatch.id b' = UploadBatch.id b ∧
  UploadBatch.user b' = UploadBatch.user b ∧
  UploadBatch.total_files b' = UploadBatch.total_files b ∧
  UploadBatch.uploaded_files b' = UploadBatch.uploaded_files b ∧
  UploadBatch.processed_files b' = UploadBatch.processed_files b ∧
  UploadBatch.status b' = UploadBatch.status b ∧
  UploadBatch.completed_at b' = UploadBatch.completed_at b ∧
  UploadBatch.failed_files b ≤ UploadBatch.failed_files b'.

Definition only_failed_files_grow (d d' : db) : Prop :=
  ∀ k, option_Forall2 failed_files_grew (get_row k (batches d)) (get_row k (batches d')).

Lemma failed_files_grew_refl b : failed_files_grew b b.
Proof. unfold failed_files_grew. split_and!; (done || lia). Qed.

Lemma failed_files_grew_trans b1 b2 b3 :
  failed_files_grew b1 b2 → failed_files_grew b2 b3 → failed_files_grew b1 b3.
Proof.
  unfold failed_files_grew. intros (?&?&?&?&?&?&?&?) (?&?&?&?&?&?&?&?).
  split_and!; (congruence || lia).
Qed.

Lemma only_failed_files_grow_trans d1 d2 d3 :
  only_failed_files_grow d1 d2 → only_failed_files_grow d2 d3 → only_failed_files_grow d1 d3.
Proof.
  intros H12 H23 k. specialize (H12 k). specialize (H23 k).
  destruct H12 as [b1 b2 Hb|]; inversion H23 as [b2' b3 Hb' E1 E2|]; subst; constructor.
  by eapply failed_files_grew_trans.
Qed.

Lemma touches_only_trans image_id d1 d2 d3 :
  touches_only image_id d1 d2 → touches_only image_id d2 d3 → touches_only image_id d1 d3.
Proof.
  intros [Hi12 Ho12 Hs12] [Hi23 Ho23 Hs23]. split.
  - intros i Hi. destruct (Hi12 i Hi) as (i2 & Hi2 & Hb2 & Hf2).
    destruct (Hi23 i2 Hi2) as (i3 & Hi3 & Hb3 & Hf3).
    exists i3. split_and!; congruence.
  - intros j Hj. rewrite Ho23, Ho12; done.
  - congruence.
Qed.

(** Saving a changed copy of a stored image. *)
Lemma save_image_touches image_id d i i' :
  get_image image_id (images d) = Some i →
  ImageUpload.id i' = ImageUpload.id i →
  ImageUpload.batch i' = ImageUpload.batch i →
  ImageUpload.file_path i' = ImageUpload.file_path i →
  get_image image_id (images (save_image i' d)) = Some i' ∧
  touches_only image_id d (save_image i' d).
Proof.
  intros Hi Hid Hb Hf.
  destruct (tbl_get_Some ImageUpload.id _ _ _ Hi) as [Hk _].
  assert (Hk' : ImageUpload.id i' = image_id) by congruence.
  assert (Hget : get_image image_id (images (save_image i' d)) = Some i').
  { simpl. rewrite <- Hk'. apply tbl_get_save_eq. }
  split; [exact Hget|]. split.
  - intros i0 Hi0. exists i'. split_and!; congruence.
  - intros j Hj. simpl. apply tbl_get_save_ne. congruence.
  - done.
Qed.

(** The [except] handler on a stored image of a stored batch. *)
Lemma record_failure_effect e image_id d i b :
  get_image image_id (images d) = Some i →
  get_row (ImageUpload.batch i) (batches d) = Some b →
  touches_only image_id d (record_failure e image_id d) ∧
  only_failed_files_grow d (record_failure e image_id d) ∧
  ImageUpload.status <$> get_image image_id (images (record_failure e image_id d))
    = Some "failed".
Proof.
  intros Hi Hb. unfold record_failure. rewrite Hi.
  set (i' := ImageUpload.set_error_message _ _).
  destruct (save_image_touches image_id d i i' Hi eq_refl eq_refl eq_refl) as [Hget Ht].
  change (batches (save_image i' d)) with (batches d).
  change (ImageUpload.batch i') with (ImageUpload.batch i). rewrite Hb.
  set (b' := UploadBatch.set_failed_files _ b).
  split_and!.
  - destruct Ht as [H1 H2 H3]. by split.
  - intros k. simpl. destruct (decide (k = UploadBatch.id b')) as [->|Hk].
    + rewrite tbl_get_save_eq.
      destruct (tbl_get_Some UploadBatch.id _ _ _ Hb) as [Hkb _].
      change (UploadBatch.id b') with (UploadBatch.id b).
      rewrite Hkb, Hb. constructor. unfold failed_files_grew. simpl.
      split_and!; (done || lia).
    + rewrite tbl_get_save_ne by done.
      destruct (get_row k (batches d)); constructor. apply failed_files_grew_refl.
  - simpl. simpl in Hget. by rewrite Hget.
Qed.

(** One run of the Celery task whose detector raises, whatever the
    channel layer does. *)
Lemma failed_run_effect channel detector now retries image_id d i b e :
  get_image image_id (images d) = Some i →
  get_row (ImageUpload.batch i) (batches d) = Some b →
  detector (ImageUpload.file_path i) = Raise e →
  ∃ d',
    process_image_with_yolo channel detector now retries image_id d
      = (if bool_decide (retries < max_retries)%nat
         then Retry (retry_countdown retries) else Done, d') ∧
    touches_only image_id d d' ∧
    only_failed_files_grow d d' ∧
    ImageUpload.status <$> get_image image_id (images d') = Some "failed".
Proof.
  intros Hi Hb He. unfold process_image_with_yolo. rewrite Hi, Hb.
  change (ImageUpload.file_path (ImageUpload.set_status "processing" i))
    with (ImageUpload.file_path i). rewrite He.
  set (p := ImageUpload.set_status "processing" i).
  destruct (save_image_touches image_id d i p Hi eq_refl eq_refl eq_refl) as [Hget Ht].
  assert (Hfail : ∀ e', ∃ d',
            record_failure e' image_id (save_image p d) = d' ∧
            touches_only image_id d d' ∧
            only_failed_files_grow d d' ∧
            ImageUpload.status <$> get_image image_id (images d') = Some "failed").
  { intros e'.
    destruct (record_failure_effect e' image_id (save_image p d) p b Hget Hb) as (Ht' & Hg & Hs).
    eexists. split; [reflexivity|]. split_and!; [by eapply touches_only_trans | done | done]. }
  destruct (channel (group_name b) "processing_progress") as [[]|e'].
  - destruct (Hfail e) as (d' & <- & H). by eexists.
  - destruct (Hfail e') as (d' & <- & H). by eexists.
Qed.

(** The worker on a detector that raises at every run: with [fuel] runs
    left up to the bound it stops by itself, having waited the
    countdowns of the remaining retries. *)
Lemma worker_exhausts channel detector clock image_id fuel :
  ∀ retries d i b,
    (retries + S fuel = S max_retries)%nat →
    get_image image_id (images d) = Some i →
    get_row (ImageUpload.batch i) (batches d) = Some b →
    (∀ n, is_ok (detector n (ImageUpload.file_path i)) = false) →
    ∃ d',
      celery_worker (S fuel) channel detector clock retries image_id d
        = Some (d', retry_countdown <$> seq retries fuel) ∧
      touches_only image_id d d' ∧
      only_failed_files_grow d d' ∧
      ImageUpload.status <$> get_image image_id (images d') = Some "failed".
Proof.
  induction fuel as [|fuel IH]; intros retries d i b Hfuel Hi Hb Hfail.
  - destruct (detector retries (ImageUpload.file_path i)) as [r|e] eqn:He.
    { specialize (Hfail retries). by rewrite He in Hfail. }
    destruct (failed_run_effect (channel retries) (detector retries) (clock retries) retries
                image_id d i b e Hi Hb He) as (d' & Hrun & Ht & Hg & Hs).
    exists d'. simpl. rewrite Hrun.
    rewrite bool_decide_eq_false_2 by lia. done.
  - destruct (detector retries (ImageUpload.file_path i)) as [r|e] eqn:He.
    { specialize (Hfail retries). by rewrite He in Hfail. }
    destruct (failed_run_effect (channel retries) (detector retries) (clock retries) retries
                image_id d i b e Hi Hb He) as (d1 & Hrun & Ht & Hg & Hs).
    destruct (touched_image _ _ _ Ht i Hi) as (i1 & Hi1 & Hb1 & Hf1).
    assert (∃ b1, get_row (ImageUpload.batch i1) (batches d1) = Some b1) as [b1 Hrow1].
    { specialize (Hg (ImageUpload.batch i)). rewrite Hb in Hg.
      inversion Hg as [? b1 ? E1 E2|]. exists b1. by rewrite Hb1. }
    destruct (IH (S retries) d1 i1 b1) as (d' & Hrest & Ht' & Hg' & Hs'); try done.
    { lia. }
    { intros n. rewrite Hf1. apply Hfail. }
    exists d'. split_and!.
    + change (celery_worker (S (S fuel)) channel detector clock retries image_id d)
        with (match process_image_with_yolo (channel retries) (detector retries) (clock retries)
                                            retries image_id d with
              | (Done, d) => Some (d, [])
              | (Retry countdown, d) =>
                  match celery_worker (S fuel) channel detector clock (S retries) image_id d with
                  | Some (d, waits) => Some (d, countdown :: waits)
                  | None => None
                  end
              end).
      rewrite Hrun. rewrite bool_decide_eq_true_2 by lia. by rewrite Hrest.
    + by eapply touches_only_trans.
    + by eapply only_failed_files_grow_trans.
    + exact Hs'.
Qed.

(** A run asks for a retry only below the bound, and then with the
    countdown of its retry number. *)
Lemma retry_only_below_bound channel detector now retries image_id d countdown d' :
  process_image_with_yolo channel detector now retries image_id d = (Retry countdown, d') →
  (retries < max_retries)%nat ∧ countdown = retry_countdown retries.
Proof.
  unfold process_image_with_yolo.
  destruct (tbl_get ImageUpload.id image_id (images d)) as [i|]; [|done].
  destruct (tbl_get UploadBatch.id (ImageUpload.batch i) (batches d)) as [b|].
  - destruct (channel _ "processing_progress") as [[]|].
    + destruct (detector _).
      * destruct (channel _ "processing_complete") as [[]|]; [done|].
        case_bool_decide; [|done]. by intros [= <- _].
      * case_bool_decide; [|done]. by intros [= <- _].
    + case_bool_decide; [|done]. by intros [= <- _].
  - case_bool_decide; [|done]. by intros [= <- _].
Qed.

(** Whatever the detector and the channel layer do, the worker stops
    within the bound: the waits are an initial part of the countdowns
    of the retries left. *)
Lemma worker_stops channel detector clock image_id fuel :
  ∀ retries d,
    (max_retries ≤ retries + fuel)%nat →
    ∃ d' waits,
      celery_worker (S fuel) channel detector clock retries image_id d = Some (d', waits) ∧
      waits `prefix_of` (retry_countdown <$> seq retries (max_retries - retries)).
Proof.
  induction fuel as [|fuel IH]; intros retries d Hfuel; simpl;
    destruct (process_image_with_yolo (channel retries) (detector retries) (clock retries)
                                      retries image_id d)
      as [[|countdown] d1] eqn:Hrun;
    try (eexists _, _; split; [reflexivity | apply prefix_nil]);
    apply retry_only_below_bound in Hrun as [Hlt ->]; [lia|].
  destruct (IH (S retries) d1 ltac:(lia)) as (d' & waits & Hrest & Hpre).
  simpl in Hrest. rewrite Hrest. eexists _, _. split; [reflexivity|].
  replace (max_retries - retries)%nat with (S (max_retries - S retries)) by lia.
  simpl. by apply prefix_cons.
Qed.

(** C7, as stated, fails on the backoff: the countdowns 60, 120, 180
    grow by a constant step, not by a constant ratio. *)
Lemma backoff_not_exponential : ¬ spec_exponential_backoff retry_countdown.
Proof.
  intros (p & q & Hq & Hpq & H).
  pose proof (H 0%nat ltac:(unfold max_retries; lia)) as H0.
  pose proof (H 1%nat ltac:(unfold max_retries; lia)) as H1.
  unfold retry_countdown in *. simpl in *. lia.
Qed.

(** C7, amended.  A detection that fails at every run is run four times
    in all, the first run and [max_retries = 3] retries, after waits of
    60, 120 and 180 seconds (60 times the number of the retry),
    whatever the channel layer does with the messages.  Then the worker
    stops and the image is stored as failed; its batch and file path,
    the other images and the storage are as before, and of every batch
    row only [failed_files] may have changed, upwards. *)
Theorem detection_retries_then_failed channel detector clock image_id d i b :
  tbl_get ImageUpload.id image_id (images d) = Some i →
  tbl_get UploadBatch.id (ImageUpload.batch i) (batches d) = Some b →
  (∀ n, is_ok (detector n (ImageUpload.file_path i)) = false) →
  ∃ d',
    celery_delay channel detector clock image_id d = Some (d', [60; 120; 180]) ∧
    ImageUpload.status <$> tbl_get ImageUpload.id image_id (images d') = Some "failed" ∧
    touches_only image_id d d' ∧
    only_failed_files_grow d d'.
Proof.
  intros Hi Hb Hfail.
  destruct (worker_exhausts channel detector clock image_id max_retries 0%nat d i b)
    as (d' & Hrun & Ht & Hg & Hs); try done.
  exists d'. split_and!; try done.
Qed.
Definition one_uploaded : db :=
  mkDb [UploadBatch.mk "b1" "u" 1 1 0 0 "uploading" None]
       [ImageUpload.mk "i1" "b1" "f1" "f1.jpg" "b1/f1.jpg" 2048 "image/jpeg"
                       "uploaded" None 0 None None None]
       ["b1/f1.jpg"].

Definition never_detects : nat → string → result (list detection) :=
  λ _ _, Raise (ProcessingError "model error").

(** A channel layer that takes every message. *)
Definition open_channel : nat → channel_layer := λ _ _ _, Ok ().

Lemma detection_retries_then_failed_witness :
  ∃ d',
    celery_delay open_channel never_detects (λ n, 100 + Z.of_nat n) "i1" one_uploaded
      = Some (d', [60; 120; 180]) ∧
    ImageUpload.status <$> tbl_get ImageUpload.id "i1" (images d') = Some "failed".
Proof.
  destruct (detection_retries_then_failed open_channel never_detects (λ n, 100 + Z.of_nat n)
              "i1" one_uploaded _ _ eq_refl eq_refl (λ n, eq_refl))
    as (d' & Hrun & Hstatus & _).
  exists d'. split; [exact Hrun | exact Hstatus].
Defined.

(** Each of the four runs adds one to the stored [failed_files]. *)
Example failed_files_after_exhaustion :
  (λ r, UploadBatch.failed_files <$> batches r.1)
    <$> celery_delay open_channel never_detects (λ n, 100 + Z.of_nat n) "i1" one_uploaded
  = Some [4].
Proof. vm_compute. reflexivity. Qed.
End DetectionTasks.

(** ** Batch completion *)

Section BatchCompletion.
Import Uploads.

Definition always_detects : string → result (list detection) :=
  λ _, Ok [mk_detection "keypoint" "nose" (inject_Z 10) (inject_Z 20) (inject_Z 1)].

Definition jpeg_upload (batch_id file_id : string) : upload_request :=
  mk_request "u" (Some batch_id) (Some file_id)
             (Some (mk_file (file_id +:+ ".jpg") 2048 "image/jpeg")).

(** A batch declared with one file that received two uploads. *)
Definition two_uploads_for_one : db :=
  let d := (create_upload_batch sqlite "b1" "u" (Some 1) (mkDb [] [] [])).2 in
  let d := (upload_image plain_env "i1" (jpeg_upload "b1" "f1") d).2 in
  (upload_image plain_env "i2" (jpeg_upload "b1" "f2") d).2.

(** C3, as stated, fails: once the first image is processed the stored
    counters add up to [total_files] and the batch is completed, with
    its second image still waiting as uploaded. *)
Lemma completed_with_image_waiting :
  ¬ spec_completed_iff_children_at_rest
      (process_image_with_yolo_sync always_detects 100 "i1" two_uploads_for_one).2.
Proof.
  intros H.
  specialize (H (UploadBatch.mk "b1" "u" 1 2 1 0 "completed" (Some 100))).
  destruct H as [H _].
  { vm_compute. apply list_elem_of_singleton. reflexivity. }
  specialize (H eq_refl). vm_compute in H.
  apply Forall_cons in H as [Hwaiting _]. discriminate Hwaiting.
Qed.

(** C3, amended.  When the detector answers for a stored image of a
    stored batch, the task stores the image as completed, adds one to
    the stored [processed_files], and makes the batch completed exactly
    when that count plus the stored [failed_files] equals [total_files];
    otherwise the batch status stays.  The test reads the stored
    counters, not the images.  [ImageBatch.update_progress], which does
    count images, never changes a batch status. *)
Theorem completion_from_stored_counters detector now image_id d i b results :
  tbl_get ImageUpload.id image_id (images d) = Some i →
  tbl_get UploadBatch.id (ImageUpload.batch i) (batches d) = Some b →
  detector (ImageUpload.file_path i) = Ok results →
  ∃ d' b',
    process_image_with_yolo_sync detector now image_id d = (true, d') ∧
    ImageUpload.status <$> tbl_get ImageUpload.id image_id (images d') = Some "completed" ∧
    tbl_get UploadBatch.id (ImageUpload.batch i) (batches d') = Some b' ∧
    UploadBatch.processed_files b' = UploadBatch.processed_files b + 1 ∧
    UploadBatch.failed_files b' = UploadBatch.failed_files b ∧
    UploadBatch.total_files b' = UploadBatch.total_files b ∧
    UploadBatch.status b' =
      (if bool_decide (UploadBatch.processed_files b + 1 + UploadBatch.failed_files b
                       = UploadBatch.total_files b)
       then "completed" else UploadBatch.status b) ∧
    (∀ (ib : Images.ImageBatch) (x : Images.db),
       match Images.update_progress ib x with
       | Ok (ib', x') =>
           Images.batch_status ib' = Images.batch_status ib ∧
           Images.batch_status <$> Images.batches x' = Images.batch_status <$> Images.batches x
       | Raise _ => True
       end).
Proof.
  intros Hi Hb Hok. unfold process_image_with_yolo_sync. rewrite Hi, Hb.
  change (ImageUpload.file_path (ImageUpload.set_status "processing" i))
    with (ImageUpload.file_path i). rewrite Hok.
  destruct (tbl_get_Some ImageUpload.id _ _ _ Hi) as [Hk _].
  destruct (tbl_get_Some UploadBatch.id _ _ _ Hb) as [Hkb _].
  unfold record_success.
  set (i' := ImageUpload.set_results _ _ _ _ _).
  set (b1 := UploadBatch.set_processed_files _ b).
  set (b' := if _ =? _ then _ else b1).
  assert (Hid : UploadBatch.id b' = UploadBatch.id b).
  { subst b'. by destruct (_ =? _). }
  exists (save_batch b' (save_image i' (save_image (ImageUpload.set_status "processing" i) d))), b'.
  split_and!.
  - reflexivity.
  - simpl. rewrite <- Hk.
    change (ImageUpload.id i) with (ImageUpload.id i') at 1.
    by rewrite tbl_get_save_eq.
  - simpl. rewrite <- Hkb, <- Hid. apply tbl_get_save_eq.
  - subst b'. by destruct (_ =? _).
  - subst b'. by destruct (_ =? _).
  - subst b'. by destruct (_ =? _).
  - subst b' b1. simpl. case_bool_decide as Hsum.
    + by rewrite (proj2 (Z.eqb_eq _ _) Hsum).
    + by rewrite (proj2 (Z.eqb_neq _ _) Hsum).
  - intros ib x. unfold Images.update_progress.
    destruct (Images.batches x !! Images.batch_id ib) as [row|] eqn:Hrow; [|done].
    split; [done|]. simpl. rewrite fmap_insert. simpl.
    apply insert_id. by rewrite lookup_fmap, Hrow.
Qed.

Lemma completion_from_stored_counters_witness :
  ∃ d' b',
    process_image_with_yolo_sync always_detects 100 "i1" two_uploads_for_one = (true, d') ∧
    tbl_get UploadBatch.id "b1" (batches d') = Some b' ∧
    UploadBatch.status b' = "completed".
Proof.
  destruct (completion_from_stored_counters always_detects 100 "i1" two_uploads_for_one
              _ _ _ eq_refl eq_refl eq_refl)
    as (d' & b' & Hrun & _ & Hrow & _ & _ & _ & Hstatus & _).
  exists d', b'. split_and!; [exact Hrun | exact Hrow | exact Hstatus].
Defined.

(** ** One failure among five images *)

(** The task leaves every other image alone, whatever the detector
    does. *)
Lemma sync_task_leaves_siblings detector now image_id d j :
  j ≠ image_id →
  tbl_get ImageUpload.id j (images (process_image_with_yolo_sync detector now image_id d).2)
  = tbl_get ImageUpload.id j (images d).
Proof.
  intros Hj. unfold process_image_with_yolo_sync.
  destruct (tbl_get ImageUpload.id image_id (images d)) as [i|] eqn:Hi; [|done].
  destruct (tbl_get_Some ImageUpload.id _ _ _ Hi) as [Hk _].
  assert (Hfail : ∀ e d0,
    tbl_get ImageUpload.id j (images (record_failure e image_id d0))
    = tbl_get ImageUpload.id j (images d0)).
  { intros e d0. unfold record_failure.
    destruct (tbl_get ImageUpload.id image_id (images d0)) as [i0|] eqn:Hi0; [|done].
    destruct (tbl_get_Some ImageUpload.id _ _ _ Hi0) as [Hk0 _].
    match goal with |- context [tbl_get UploadBatch.id ?k ?t] =>
      destruct (tbl_get UploadBatch.id k t) end;
      simpl; apply tbl_get_save_ne; simpl; congruence. }
  destruct (tbl_get UploadBatch.id (ImageUpload.batch i) (batches d)); simpl.
  - destruct (detector _); simpl.
    + rewrite !tbl_get_save_ne by (simpl; congruence). done.
    + rewrite Hfail. simpl. apply tbl_get_save_ne. simpl. congruence.
  - apply Hfail.
Qed.

(** A batch of five uploaded images; the detector raises on the third
    file and answers on the others. *)
Definition five_uploaded : db :=
  let d := (create_upload_batch sqlite "b1" "u" (Some 5) (mkDb [] [] [])).2 in
  let d := (upload_image plain_env "i1" (jpeg_upload "b1" "f1") d).2 in
  let d := (upload_image plain_env "i2" (jpeg_upload "b1" "f2") d).2 in
  let d := (upload_image plain_env "i3" (jpeg_upload "b1" "f3") d).2 in
  let d := (upload_image plain_env "i4" (jpeg_upload "b1" "f4") d).2 in
  (upload_image plain_env "i5" (jpeg_upload "b1" "f5") d).2.

Definition fails_on_third : string → result (list detection) :=
  λ path, if bool_decide (path = "b1/f3.jpg")
          then Raise (ProcessingError "model error") else always_detects path.

(** What the database holds for the images and the batch. *)
Definition image_statuses (d : db) : list (string * string) :=
  (λ i, (ImageUpload.id i, ImageUpload.status i)) <$> images d.

Definition batch_counters (d : db) : list (string * Z * Z * string) :=
  (λ b, (UploadBatch.id b, UploadBatch.processed_files b, UploadBatch.failed_files b,
         UploadBatch.status b)) <$> batches d.

(** C8, evaluated.  Synchronous processing of the five images: the four
    siblings end completed and the third failed, and the response counts
    four and one.  The task had stored one failed file, and after the
    last image four processed files; the view then saves its own batch
    instance, read before the loop, and the stored batch is left with no
    failed file, no processed file and status processing.  Through
    [process_single_image], which has no such save after the task, the
    same failure leaves one failed file stored. *)
Theorem one_failure_among_five :
  let '(response, d, _) :=
    process_batch_with_yolo false fails_on_third 100 "u" "b1" five_uploaded in
  response = JsonResponse (Processing 4 1 "processing_completed") 200 ∧
  image_statuses d =
    [("i5", "completed"); ("i4", "completed"); ("i3", "failed");
     ("i2", "completed"); ("i1", "completed")] ∧
  batch_counters d = [("b1", 0, 0, "processing")] ∧
  batch_counters (process_single_image false fails_on_third 100 "u" "i3" five_uploaded).1.2
    = [("b1", 0, 1, "uploading")].
Proof. vm_compute. done. Qed.
(** The state the loop of the view leaves, before the view saves its
    own batch instance: the tasks have counted four processed files and
    one failed file and completed the batch. *)
Example counters_before_the_view_saves :
  let batch := UploadBatch.mk "b1" "u" 5 5 0 0 "processing" None in
  let d := save_batch batch five_uploaded in
  batch_counters
    (loop_db (fold_left (process_batch_turn false fails_on_third 100) (images d)
                        (mk_loop d batch 0 0 [])))
  = [("b1", 4, 1, "completed")].
Proof. vm_compute. reflexivity. Qed.
End BatchCompletion.

(** ** More on tables *)

Section TableShape.
Context {R : Type} (pk : R → string).

Lemma tbl_get_None (k : string) (t : list R) :
  tbl_get pk k t = None ↔ k ∉ pk <$> t.
Proof.
  unfold tbl_get. induction t as [|x t IH]; simpl.
  - split; [intros _; apply not_elem_of_nil | done].
  - rewrite not_elem_of_cons. case_bool_decide as Hx; [|rewrite IH]; naive_solver.
Qed.

Lemma tbl_get_NoDup (x : R) (t : list R) :
  NoDup (pk <$> t) → x ∈ t → tbl_get pk (pk x) t = Some x.
Proof.
  unfold tbl_get. induction t as [|y t IH]; simpl; [by intros _ ?%elem_of_nil|].
  intros [Hy Hnd]%NoDup_cons [->|Hx]%elem_of_cons.
  - by rewrite bool_decide_eq_true_2.
  - rewrite bool_decide_eq_false_2; [by apply IH|].
    intros Heq. apply Hy. rewrite Heq. by apply list_elem_of_fmap_2.
Qed.

(** What a column [f] shows of a table does not change when the rows
    with the key of [r] already showed what [r] shows. *)
Lemma tbl_update_fmap {B} (f : R → B) (r : R) (t : list R) :
  (∀ x, x ∈ t → pk x = pk r → f x = f r) →
  f <$> tbl_update pk r t = f <$> t.
Proof.
  intros Hsame. unfold tbl_update. rewrite <- list_fmap_compose.
  apply list_fmap_ext. intros i x Hx. simpl.
  case_bool_decide as Hk; [|done]. symmetry. apply Hsame; [|done].
  by eapply list_elem_of_lookup_2.
Qed.

Lemma tbl_save_fmap {B} (f : R → B) (r r0 : R) (t : list R) :
  NoDup (pk <$> t) →
  tbl_get pk (pk r) t = Some r0 →
  f r = f r0 →
  f <$> tbl_save pk r t = f <$> t.
Proof.
  intros Hnd Hget Hf. unfold tbl_save. rewrite Hget.
  apply tbl_update_fmap. intros x Hx Hk.
  destruct (tbl_get_Some pk _ _ _ Hget) as [Hk0 _].
  assert (tbl_get pk (pk x) t = Some x) as Hgx by by apply tbl_get_NoDup.
  rewrite Hk, Hget in Hgx. injection Hgx as ->. done.
Qed.

Lemma tbl_save_keys (r r0 : R) (t : list R) :
  tbl_get pk (pk r) t = Some r0 → pk <$> tbl_save pk r t = pk <$> t.
Proof.
  intros Hget. unfold tbl_save. rewrite Hget. apply tbl_update_fmap. by intros x _ ->.
Qed.

Lemma Forall_tbl_save (P : R → Prop) (r : R) (t : list R) :
  P r → Forall P t → Forall P (tbl_save pk r t).
Proof.
  intros Hr Ht. unfold tbl_save. destruct (tbl_get pk (pk r) t).
  - unfold tbl_update. apply Forall_fmap. eapply Forall_impl; [exact Ht|].
    intros x Hx. simpl. by case_bool_decide.
  - by constructor.
Qed.
End TableShape.
(** ** [YOLOProcessor]: bounds and corrections *)

Section KeypointBounds.
Import YoloProcessor.

(** A point at least [margin] away from every edge of the image. *)
Definition in_bounds (height width margin : Z) (p : point) : Prop :=
  (inject_Z margin <= p.1)%Q ∧ (p.1 <= inject_Z (width - margin))%Q ∧
  (inject_Z margin <= p.2)%Q ∧ (p.2 <= inject_Z (height - margin))%Q.

Lemma clamp_between (m w x : Q) :
  (m <= w)%Q → (m <= Qmax m (Qmin x w))%Q ∧ (Qmax m (Qmin x w) <= w)%Q.
Proof.
  intros Hmw. split; [apply Q.le_max_l|].
  apply Q.max_lub; [exact Hmw | apply Q.le_min_r].
Qed.

Lemma clamp_inside (m w x : Q) :
  (m <= x)%Q → (x <= w)%Q → (Qmax m (Qmin x w) == x)%Q.
Proof.
  intros Hmx Hxw. rewrite (Q.min_l x w) by exact Hxw. by apply Q.max_r.
Qed.

Lemma adjusted_in_bounds (keypoints : list point) (height width margin : Z) :
  2 * margin ≤ width → 2 * margin ≤ height →
  Forall (in_bounds height width margin)
         (adjust_keypoints_to_bounds keypoints height width margin).
Proof.
  intros Hw Hh. unfold adjust_keypoints_to_bounds.
  assert (Hmw : (inject_Z margin <= inject_Z (width - margin))%Q).
  { rewrite <- Zle_Qle. lia. }
  assert (Hmh : (inject_Z margin <= inject_Z (height - margin))%Q).
  { rewrite <- Zle_Qle. lia. }
  apply Forall_fmap, Forall_forall. intros p _. unfold in_bounds, compose. simpl.
  destruct (clamp_between _ _ p.1 Hmw), (clamp_between _ _ p.2 Hmh). done.
Qed.

(** X1.  In an image at least twice the margin wide and high,
    [adjust_keypoints_to_bounds] returns as many points as it was given,
    every one at least [margin] inside the image, and a point that was
    already there keeps its coordinates. *)
Theorem adjust_keypoints_within_bounds (keypoints : list point) (height width margin : Z) :
  2 * margin ≤ width →
  2 * margin ≤ height →
  length (adjust_keypoints_to_bounds keypoints height width margin) = length keypoints ∧
  Forall (in_bounds height width margin)
         (adjust_keypoints_to_bounds keypoints height width margin) ∧
  Forall2 (λ p q, in_bounds height width margin p → (q.1 == p.1)%Q ∧ (q.2 == p.2)%Q)
          keypoints (adjust_keypoints_to_bounds keypoints height width margin).
Proof.
  intros Hw Hh. split_and!.
  - apply length_fmap.
  - by apply adjusted_in_bounds.
  - unfold adjust_keypoints_to_bounds. apply Forall2_fmap_r, Forall2_same_length_lookup. split; [done|].
    intros i p q Hp Hq (Hx1 & Hx2 & Hy1 & Hy2). simplify_eq. simpl.
    split; by apply clamp_inside.
Qed.

Lemma adjust_keypoints_within_bounds_witness :
  Forall (in_bounds 480 640 5)
         (adjust_keypoints_to_bounds [(inject_Z (-3), inject_Z 700); (inject_Z 100, inject_Z 200)]
                                     480 640 5).
Proof.
  apply (adjust_keypoints_within_bounds _ 480 640 5); lia.
Defined.

(** In an image narrower than twice the margin the clamp cannot hold
    both sides: every x becomes the margin, beyond [width - margin]. *)
Example adjust_in_narrow_image :
  adjust_keypoints_to_bounds [(inject_Z 3, inject_Z 50)] 100 8 5
  = [(inject_Z 5, inject_Z 50)].
Proof. reflexivity. Qed.
End KeypointBounds.
Section KeypointCorrection.
Import YoloProcessor.

Lemma length_pad_to_26 (l : list point) : length (pad_to_26 l) = (length l `max` 26)%nat.
Proof. unfold pad_to_26. rewrite length_app, length_replicate. lia. Qed.

Lemma lookup_pad_to_26 (l : list point) (i : nat) :
  (i < length l)%nat → pad_to_26 l !! i = l !! i.
Proof. intros Hi. unfold pad_to_26. by apply lookup_app_l. Qed.

(** One read [corrected[i]] inside the range. *)
Ltac read_at i :=
  match goal with
  | |- context [?c !! i] =>
      let p := fresh "p" in
      let Hp := fresh "Hp" in
      destruct (lookup_lt_is_Some_2 c i) as [p Hp];
      [ rewrite ?length_insert, length_pad_to_26; lia | rewrite Hp; simpl ]
  end.

Lemma set_at_in_range (i : nat) (p : point) (l : list point) :
  (i < length l)%nat → set_at i p l = Some (<[i := p]> l).
Proof. intros Hi. unfold set_at. by rewrite bool_decide_eq_true_2. Qed.

(** One write [corrected[i] = p] inside the range. *)
Ltac write_at :=
  rewrite set_at_in_range by (rewrite ?length_insert, length_pad_to_26; lia);
  simpl.

(** The assignments never leave the list: they end with a list as long
    as the padded one, whose first 17 entries are the given ones. *)
Lemma corrections_keep_first_17 (l : list point) :
  ∃ c, corrections l = Some c ∧
       length c = (length l `max` 26)%nat ∧
       ∀ i, (i < 17)%nat → (i < length l)%nat → c !! i = l !! i.
Proof.
  unfold corrections.
  rewrite bool_decide_eq_true_2 by (rewrite length_pad_to_26; lia).
  read_at 5%nat. read_at 6%nat. write_at.
  read_at 18%nat. write_at.
  read_at 19%nat. write_at.
  read_at 20%nat. read_at 21%nat. write_at.
  read_at 9%nat. write_at.
  read_at 10%nat. write_at.
  read_at 15%nat. write_at.
  read_at 16%nat. write_at.
  read_at 0%nat. write_at.
  eexists. split; [reflexivity|]. split.
  - rewrite !length_insert. apply length_pad_to_26.
  - intros i Hi Hl. rewrite !list_lookup_insert_ne by lia. by apply lookup_pad_to_26.
Qed.

Definition clamp (height width margin : Z) (p : point) : point :=
  (Qmax (inject_Z margin) (Qmin p.1 (inject_Z (width - margin))),
   Qmax (inject_Z margin) (Qmin p.2 (inject_Z (height - margin)))).

(** X2.  [correct_keypoints_26] returns fewer than 17 keypoints as they
    are.  Given 17 or more it never falls back to its input: the result
    has 26 entries (or as many as were given, if more), in an image of
    at least 10 by 10 all of them at least 5 inside it, and each of the
    first 17, the ones the model detected, is the given keypoint moved
    into the bounds and not otherwise. *)
Theorem correct_keypoints_26_shape (keypoints : list point) (height width : Z) :
  (if bool_decide (length keypoints < 17)%nat
   then correct_keypoints_26 keypoints height width = keypoints
   else
     length (correct_keypoints_26 keypoints height width) = (length keypoints `max` 26)%nat ∧
     (∀ i, (i < 17)%nat →
           correct_keypoints_26 keypoints height width !! i
           = clamp height width 5 <$> keypoints !! i) ∧
     (10 ≤ width ∧ 10 ≤ height →
      Forall (in_bounds height width 5) (correct_keypoints_26 keypoints height width))).
Proof.
  unfold correct_keypoints_26. case_bool_decide as Hlen; [done|].
  destruct (corrections_keep_first_17 keypoints) as (c & -> & Hc & Hfirst).
  split_and!.
  - unfold adjust_keypoints_to_bounds. by rewrite length_fmap.
  - intros i Hi. unfold adjust_keypoints_to_bounds.
    rewrite list_lookup_fmap, Hfirst by lia. done.
  - intros [Hw Hh]. apply adjusted_in_bounds; lia.
Qed.

(** Seventeen detected keypoints on the diagonal of a 480 by 640 image. *)
Definition diagonal_17 : list point :=
  (λ n : nat, (inject_Z (Z.of_nat n * 20), inject_Z (Z.of_nat n * 20))) <$> seq 1 17.

Example corrected_diagonal :
  length (correct_keypoints_26 diagonal_17 480 640) = 26%nat ∧
  correct_keypoints_26 diagonal_17 480 640 !! 17%nat = Some (inject_Z 20, inject_Z 5) ∧
  correct_keypoints_26 [ (inject_Z 1, inject_Z 2) ] 480 640 = [ (inject_Z 1, inject_Z 2) ].
Proof. vm_compute. done. Qed.
Lemma correct_keypoints_26_shape_witness :
  Forall (in_bounds 480 640 5) (correct_keypoints_26 diagonal_17 480 640).
Proof.
  pose proof (correct_keypoints_26_shape diagonal_17 480 640) as H.
  rewrite bool_decide_eq_false_2 in H by (vm_compute; lia).
  destruct H as (_ & _ & H). apply H. lia.
Defined.
End KeypointCorrection.
Lemma filter_all {A} (P : A → Prop) `{∀ x, Decision (P x)} (l : list A) :
  Forall P l → filter P l = l.
Proof.
  induction 1 as [|x l Hx _ IH]; [done|]. by rewrite filter_cons_True, IH.
Qed.

Lemma filter_none {A} (P : A → Prop) `{∀ x, Decision (P x)} (l : list A) :
  Forall (λ x, ¬ P x) l → filter P l = [].
Proof.
  induction 1 as [|x l Hx _ IH]; [done|]. by rewrite filter_cons_False.
Qed.

Section KeypointConnections.
Import YoloProcessor.

Lemma connections_join_labelled (use_26_keypoints : bool) :
  Forall (λ c : nat * nat,
            (c.1 < length (keypoint_labels use_26_keypoints))%nat ∧
            (c.2 < length (keypoint_labels use_26_keypoints))%nat)
         (connections use_26_keypoints).
Proof. destruct use_26_keypoints; repeat constructor. Qed.

(** X3.  [get_keypoint_connections] returns connections of the table
    in use that touch the given keypoint, each joining two labelled
    keypoints; and it returns none exactly when the index has no label
    (26 or more, 17 or more for the legacy model): every labelled
    keypoint is connected. *)
Theorem keypoint_connections_labelled (use_26_keypoints : bool) (keypoint_index : nat) :
  Forall (λ c : nat * nat,
            c ∈ connections use_26_keypoints ∧
            (c.1 = keypoint_index ∨ c.2 = keypoint_index) ∧
            is_Some (keypoint_labels use_26_keypoints !! c.1) ∧
            is_Some (keypoint_labels use_26_keypoints !! c.2))
         (get_keypoint_connections use_26_keypoints keypoint_index) ∧
  (get_keypoint_connections use_26_keypoints keypoint_index = [] ↔
   keypoint_labels use_26_keypoints !! keypoint_index = None).
Proof.
  split.
  - apply Forall_forall. intros c Hc. unfold get_keypoint_connections in Hc.
    apply list_elem_of_filter in Hc as [Hidx Hin].
    pose proof (connections_join_labelled use_26_keypoints) as Hall.
    rewrite Forall_forall in Hall. destruct (Hall c Hin) as [H1 H2].
    split_and!; try done; by apply lookup_lt_is_Some_2.
  - rewrite lookup_ge_None. split.
    + intros Hnone.
      destruct (decide (length (keypoint_labels use_26_keypoints) ≤ keypoint_index)%nat)
        as [|Hlt]; [done|]. exfalso.
      destruct use_26_keypoints; simpl in Hlt;
        repeat (destruct keypoint_index as [|keypoint_index];
                [vm_compute in Hnone; discriminate Hnone|]);
        lia.
    + intros Hge. unfold get_keypoint_connections.
      apply filter_none.
      eapply Forall_impl; [apply (connections_join_labelled use_26_keypoints)|].
      intros [i j] [H1 H2]. simpl in *. intros [<-|<-]; lia.
Qed.
End KeypointConnections.

Section DetectorOutput.
Import YoloProcessor.

Lemma length_omap_le {A B} (f : A → option B) (l : list A) :
  (length (omap f l) ≤ length l)%nat.
Proof.
  induction l as [|x l IH]; [done|].
  change (omap f (x :: l))
    with (match f x with Some y => y :: omap f l | None => omap f l end).
  destruct (f x); simpl; lia.
Qed.

Lemma Qgtb_lt (a b : Q) : Uploads.Qgtb a b = true ↔ (b < a)%Q.
Proof.
  unfold Uploads.Qgtb. rewrite negb_true_iff, <- not_true_iff_false, Qle_bool_iff.
  split; [apply Qnot_le_lt | apply Qlt_not_le].
Qed.

(** The keypoint entries of one person. *)
Lemma person_annotations_above_threshold use_26_keypoints threshold height width p :
  Forall (λ a, Uploads.det_type a = "keypoint" ∧
               (threshold < Uploads.det_confidence a)%Q ∧
               Uploads.det_label a ∈ keypoint_labels use_26_keypoints)
         (person_annotations use_26_keypoints threshold height width p) ∧
  (length (person_annotations use_26_keypoints threshold height width p)
   ≤ length p `min` length (keypoint_labels use_26_keypoints))%nat.
Proof.
  unfold person_annotations.
  set (labels := keypoint_labels use_26_keypoints).
  set (seen := take (length labels) p).
  set (corrected := if _ && _ then _ else _).
  split.
  - apply Forall_forall. intros a Ha.
    apply list_elem_of_omap in Ha as (o & Ho & Hoa). simpl in Hoa. subst o.
    apply elem_of_lookup_imap in Ho as (i & pc & Hf & _).
    destruct (labels !! i) as [label|] eqn:Hlabel; [|done].
    destruct (Uploads.Qgtb pc.2 threshold) eqn:Hgt; [|done].
    injection Hf as ->. simpl. split_and!; [done | by apply Qgtb_lt |].
    by eapply list_elem_of_lookup_2.
  - etrans; [apply length_omap_le|]. rewrite length_imap, length_zip.
    rewrite !length_fmap. subst seen. rewrite length_take. lia.
Qed.

Lemma box_annotations_are_boxes use_26_keypoints boxes :
  Forall (λ a, Uploads.det_type a = "bounding_box") (box_annotations use_26_keypoints boxes) ∧
  length (box_annotations use_26_keypoints boxes) = length boxes.
Proof.
  unfold box_annotations. split; [|apply length_imap].
  apply Forall_forall. intros a Ha.
  by apply elem_of_lookup_imap in Ha as (i & b & -> & _).
Qed.

Lemma result_annotations_sorted_out use_26_keypoints threshold height width r :
  Forall (λ a,
            Uploads.det_type a = "bounding_box" ∨
            (Uploads.det_type a = "keypoint" ∧
             (threshold < Uploads.det_confidence a)%Q ∧
             Uploads.det_label a ∈ keypoint_labels use_26_keypoints))
         (result_annotations use_26_keypoints threshold height width r).
Proof.
  unfold result_annotations. apply Forall_app. split.
  - apply Forall_bind, Forall_forall. intros p _.
    eapply Forall_impl;
      [apply (person_annotations_above_threshold use_26_keypoints threshold height width p)|].
    intros a Ha. by right.
  - eapply Forall_impl; [apply box_annotations_are_boxes|]. intros a Ha. by left.
Qed.

Lemma mapM_Ok_Forall {A B} (f : A → result B) (P : A → Prop) (l : list A) (ys : list B) :
  (∀ x y, f x = Ok y → P x) → mapM f l = Ok ys → Forall P l ∧ length ys = length l.
Proof.
  intros HP. revert ys. induction l as [|x l IH]; intros ys; simpl.
  - by intros [= <-].
  - destruct (f x) as [y|e] eqn:Hx; [|done].
    destruct (mapM f l) as [ys'|e]; [|done]. intros [= <-].
    destruct (IH ys' eq_refl) as [Hl Hlen]. split; [|simpl; by rewrite Hlen].
    constructor; [by eapply HP | done].
Qed.

Lemma mapM_Raise_Exists {A B} (f : A → result B) (P : A → Prop) (l : list A) (e : exn) :
  (∀ x e, f x = Raise e → ¬ P x) → mapM f l = Raise e → ¬ Forall P l.
Proof.
  intros HP. induction l as [|x l IH]; simpl; [done|].
  rewrite Forall_cons. destruct (f x) as [y|e'] eqn:Hx.
  - destruct (mapM f l) as [ys|e']; [done|]. intros [= ->] [_ Hl]. by apply IH.
  - intros _ [Hx' _]. by eapply HP.
Qed.

(** Results all of whose rows unpack: three numbers to a keypoint, six
    to a box. *)
Definition unpacks (r : raw_result) : Prop :=
  Forall (Forall (λ kp : row, length kp = 3%nat)) (default [] (raw_keypoints r)) ∧
  Forall (λ b : row, length b = 6%nat) (default [] (raw_boxes r)).

Lemma unpack_keypoint_Ok (r : row) (k : Q * Q * Q) :
  unpack_keypoint r = Ok k → length r = 3%nat.
Proof. by destruct r as [|? [|? [|? [|]]]]. Qed.

Lemma unpack_keypoint_Raise (r : row) (e : exn) :
  unpack_keypoint r = Raise e → length r ≠ 3%nat.
Proof. by destruct r as [|? [|? [|? [|]]]]. Qed.

Lemma unpack_box_Ok (r : row) (b : box) : unpack_box r = Ok b → length r = 6%nat.
Proof. by destruct r as [|? [|? [|? [|? [|? [|? [|]]]]]]]. Qed.

Lemma unpack_box_Raise (r : row) (e : exn) : unpack_box r = Raise e → length r ≠ 6%nat.
Proof. by destruct r as [|? [|? [|? [|? [|? [|? [|]]]]]]]. Qed.

Lemma unpack_person_Ok (p : list row) (ks : person) :
  mapM unpack_keypoint p = Ok ks → Forall (λ kp : row, length kp = 3%nat) p.
Proof.
  intros H. by apply (mapM_Ok_Forall unpack_keypoint _ p ks unpack_keypoint_Ok) in H as [H _].
Qed.

Lemma unpack_person_Raise (p : list row) (e : exn) :
  mapM unpack_keypoint p = Raise e → ¬ Forall (λ kp : row, length kp = 3%nat) p.
Proof. apply mapM_Raise_Exists. intros x e' Hx. by apply unpack_keypoint_Raise in Hx. Qed.

Lemma unpack_result_Ok (r : raw_result) (u : yolo_result) :
  unpack_result r = Ok u →
  unpacks r ∧ length (default [] (result_boxes u)) = length (default [] (raw_boxes r)).
Proof.
  unfold unpack_result, mapM_option, unpacks.
  assert (Hk : ∀ ks, match raw_keypoints r with
                     | Some l => match mapM (mapM unpack_keypoint) l with
                                 | Ok ys => Ok (Some ys) | Raise e => Raise e end
                     | None => Ok None
                     end = Ok ks →
               Forall (Forall (λ kp : row, length kp = 3%nat)) (default [] (raw_keypoints r))).
  { intros ks. destruct (raw_keypoints r) as [persons|]; simpl; [|by constructor].
    destruct (mapM (mapM unpack_keypoint) persons) as [ys|] eqn:Hp; [|done]. intros _.
    by apply (mapM_Ok_Forall _ _ persons ys unpack_person_Ok) in Hp as [Hp _]. }
  destruct (match raw_keypoints r with Some _ => _ | None => _ end) as [ks|] eqn:Hks; [|done].
  specialize (Hk ks eq_refl).
  destruct (raw_boxes r) as [boxes|]; simpl.
  - destruct (mapM unpack_box boxes) as [bs|] eqn:Hb; [|done]. intros [= <-]. simpl.
    by apply (mapM_Ok_Forall _ _ boxes bs unpack_box_Ok) in Hb as [Hb Hlen].
  - intros [= <-]. simpl. split_and!; [done | constructor | done].
Qed.

Lemma unpack_result_Raise (r : raw_result) (e : exn) : unpack_result r = Raise e → ¬ unpacks r.
Proof.
  unfold unpack_result, mapM_option, unpacks. intros H [Hkp Hbox].
  destruct (raw_keypoints r) as [persons|]; simpl in *.
  - destruct (mapM (mapM unpack_keypoint) persons) as [ys|e'] eqn:Hp.
    + destruct (raw_boxes r) as [boxes|]; simpl in *; [|done].
      destruct (mapM unpack_box boxes) as [bs|e'] eqn:Hb; [done|].
      revert Hbox. eapply mapM_Raise_Exists; [|exact Hb].
      intros x e0 Hx. by apply unpack_box_Raise in Hx.
    + revert Hkp. eapply mapM_Raise_Exists; [|exact Hp].
      intros x e0 Hx. by apply unpack_person_Raise in Hx.
  - destruct (raw_boxes r) as [boxes|]; simpl in *; [|done].
    destruct (mapM unpack_box boxes) as [bs|e'] eqn:Hb; [done|].
    revert Hbox. eapply mapM_Raise_Exists; [|exact Hb].
    intros x e0 Hx. by apply unpack_box_Raise in Hx.
Qed.

(** Every keypoint that [process_image] returns is above the threshold. *)
Lemma process_image_keypoints_above
    use_26_keypoints threshold file_exists image_shape model image_path annotations :
  process_image use_26_keypoints threshold file_exists image_shape model image_path
    = Ok annotations →
  Forall (λ a, Uploads.det_type a = "keypoint" → (threshold < Uploads.det_confidence a)%Q)
         annotations.
Proof.
  unfold process_image. destruct (file_exists image_path); [|done]. simpl.
  destruct (image_shape image_path) as [[height width]|]; [|done].
  destruct (model image_path) as [raw_results|]; [|done].
  destruct (mapM unpack_result raw_results) as [results|]; [|done]. intros [= <-].
  apply Forall_bind, Forall_forall. intros r _.
  eapply Forall_impl; [apply result_annotations_sorted_out|].
  intros a [Hbox|(_ & Hconf & _)] Hkp; [|done]. rewrite Hkp in Hbox. discriminate.
Qed.

Lemma length_box_entries use_26_keypoints threshold height width (results : list yolo_result) :
  length (filter (λ a, Uploads.det_type a = "bounding_box")
                 (results ≫= result_annotations use_26_keypoints threshold height width))
  = length (results ≫= λ r, default [] (result_boxes r)).
Proof.
  induction results as [|r rs IH]; [done|].
  rewrite !bind_cons, filter_app, !length_app, IH. f_equal.
  unfold result_annotations. rewrite filter_app, length_app.
  destruct (box_annotations_are_boxes use_26_keypoints (default [] (result_boxes r)))
    as [Hboxes Hlen].
  rewrite (filter_none _ (default [] (result_keypoints r) ≫= _)).
  - simpl. by rewrite filter_all.
  - apply Forall_bind, Forall_forall. intros p _.
    eapply Forall_impl;
      [apply (person_annotations_above_threshold use_26_keypoints threshold height width p)|].
    intros a (Ha & _). simpl. rewrite Ha. discriminate.
Qed.

Lemma unpacked_boxes (raw_results : list raw_result) (results : list yolo_result) :
  mapM unpack_result raw_results = Ok results →
  Forall unpacks raw_results ∧
  length (results ≫= λ r, default [] (result_boxes r))
  = length (raw_results ≫= λ r, default [] (raw_boxes r)).
Proof.
  revert results. induction raw_results as [|r rs IH]; intros results; simpl.
  - intros [= <-]. split; [constructor | done].
  - destruct (unpack_result r) as [u|] eqn:Hu; [|done].
    destruct (mapM unpack_result rs) as [us|]; [|done]. intros [= <-].
    destruct (IH us eq_refl) as [Hall Hlen].
    destruct (unpack_result_Ok r u Hu) as [Hr Hb].
    split; [by constructor|]. rewrite !bind_cons, !length_app. by rewrite Hb, Hlen.
Qed.

(** X4.  [process_image] raises when the file is missing or does not
    load, when the inference raises, and when a row of its results does
    not unpack (a keypoint row of other than three numbers, a box row
    of other than six), and in no other case.  Otherwise every entry it
    returns is a bounding box or a keypoint; every keypoint carries a
    label of the model in use and a confidence strictly above the
    threshold; and there is one bounding box entry for each box of the
    model's results. *)
Theorem process_image_output use_26_keypoints threshold file_exists image_shape model image_path :
  match process_image use_26_keypoints threshold file_exists image_shape model image_path with
  | Raise e =>
      file_exists image_path = false ∨ image_shape image_path = None ∨
      model image_path = Raise e ∨
      ∃ raw_results, model image_path = Ok raw_results ∧ ¬ Forall unpacks raw_results
  | Ok annotations =>
      file_exists image_path = true ∧ is_Some (image_shape image_path) ∧
      ∃ raw_results,
        model image_path = Ok raw_results ∧ Forall unpacks raw_results ∧
        Forall (λ a,
                  Uploads.det_type a = "bounding_box" ∨
                  (Uploads.det_type a = "keypoint" ∧
                   (threshold < Uploads.det_confidence a)%Q ∧
                   Uploads.det_label a ∈ keypoint_labels use_26_keypoints))
               annotations ∧
        length (filter (λ a, Uploads.det_type a = "bounding_box") annotations)
        = length (raw_results ≫= λ r, default [] (raw_boxes r))
  end.
Proof.
  unfold process_image.
  destruct (file_exists image_path); simpl; [|by left].
  destruct (image_shape image_path) as [[height width]|]; [|by right; left].
  destruct (model image_path) as [raw_results|e]; [|by right; right; left].
  destruct (mapM unpack_result raw_results) as [results|e] eqn:Hunpack.
  - destruct (unpacked_boxes raw_results results Hunpack) as [Hall Hlen].
    split_and!; [done | done |]. exists raw_results. split_and!; try done.
    + apply Forall_bind, Forall_forall. intros r _. apply result_annotations_sorted_out.
    + by rewrite length_box_entries.
  - right. right. right. exists raw_results. split; [done|].
    revert Hunpack. apply mapM_Raise_Exists. intros r e' Hr. by eapply unpack_result_Raise.
Qed.
End DetectorOutput.
(** ** What the tasks store for an image *)

Section StoredKeypoints.
Import Uploads.

Lemma length_filter_mono {A} (P Q : A → Prop)
    `{∀ x, Decision (P x)} `{∀ x, Decision (Q x)} (l : list A) :
  (∀ x, P x → Q x) → (length (filter P l) ≤ length (filter Q l))%nat.
Proof.
  intros HPQ. induction l as [|x l IH]; [done|].
  rewrite !filter_cons. destruct (decide (P x)) as [HP|HP].
  - rewrite decide_True by auto. simpl. lia.
  - destruct (decide (Q x)); simpl; lia.
Qed.

(** The row and the batch that a successful synchronous run stores. *)
Lemma sync_task_success detector now image_id d i b results :
  tbl_get ImageUpload.id image_id (images d) = Some i →
  tbl_get UploadBatch.id (ImageUpload.batch i) (batches d) = Some b →
  detector (ImageUpload.file_path i) = Ok results →
  let keypoints := filter (λ r, is_keypoint r = true) results in
  let i' := ImageUpload.set_results results (Z.of_nat (length keypoints))
              (avg_confidence keypoints) now
              (ImageUpload.set_status "completed" (ImageUpload.set_status "processing" i)) in
  (process_image_with_yolo_sync detector now image_id d).1 = true ∧
  tbl_get ImageUpload.id image_id
          (images (process_image_with_yolo_sync detector now image_id d).2) = Some i'.
Proof.
  intros Hi Hb Hok. unfold process_image_with_yolo_sync. rewrite Hi, Hb.
  change (ImageUpload.file_path (ImageUpload.set_status "processing" i))
    with (ImageUpload.file_path i). rewrite Hok. simpl. split; [done|].
  destruct (tbl_get_Some ImageUpload.id _ _ _ Hi) as [Hk _].
  intros. rewrite <- Hk.
  match goal with |- tbl_get _ _ (tbl_save _ ?r _) = _ =>
    change (ImageUpload.id i) with (ImageUpload.id r) at 1 end.
  apply tbl_get_save_eq.
Qed.

(** X5.  After a successful run of the task the stored image is
    completed and holds the detector's output as it came;
    [get_keypoints_by_type('keypoint')] returns its keypoint entries in
    order, and the stored [keypoints_count] is their number.  The error
    message of an earlier failure is not cleared by the run. *)
Theorem task_stores_detector_output detector now image_id d i b results :
  tbl_get ImageUpload.id image_id (images d) = Some i →
  tbl_get UploadBatch.id (ImageUpload.batch i) (batches d) = Some b →
  detector (ImageUpload.file_path i) = Ok results →
  ∃ i',
    tbl_get ImageUpload.id image_id
            (images (process_image_with_yolo_sync detector now image_id d).2) = Some i' ∧
    ImageUpload.status i' = "completed" ∧
    ImageUpload.yolo_keypoints i' = Some results ∧
    get_keypoints_by_type "keypoint" i' = filter (λ r, det_type r = "keypoint") results ∧
    ImageUpload.keypoints_count i' = Z.of_nat (length (get_keypoints_by_type "keypoint" i')) ∧
    get_keypoints_by_type "bounding_box" i' = filter (λ r, det_type r = "bounding_box") results ∧
    ImageUpload.error_message i' = ImageUpload.error_message i ∧
    ImageUpload.file_path i' = ImageUpload.file_path i.
Proof.
  intros Hi Hb Hok.
  destruct (sync_task_success detector now image_id d i b results Hi Hb Hok) as [_ Hrow].
  eexists. split; [exact Hrow|]. split_and!; try done.
  simpl. unfold get_keypoints_by_type. simpl. do 2 f_equal.
  apply list_filter_iff. intros r. unfold is_keypoint. by rewrite bool_decide_eq_true.
Qed.

Lemma task_stores_detector_output_witness :
  ∃ i',
    tbl_get ImageUpload.id "i1"
            (images (process_image_with_yolo_sync always_detects 100 "i1" one_uploaded).2)
      = Some i' ∧
    ImageUpload.keypoints_count i' = 1.
Proof.
  destruct (task_stores_detector_output always_detects 100 "i1" one_uploaded _ _ _
              eq_refl eq_refl eq_refl) as (i' & Hrow & _ & Hk & Hkp & Hcount & _).
  exists i'. split; [exact Hrow|]. rewrite Hcount, Hkp. reflexivity.
Defined.

(** X6.  [has_sufficient_keypoints] is never true of an image without
    detector output, and lowering the confidence bar never loses it: an
    image sufficient at [hi] is sufficient at every [lo <= hi], and has
    at least 15 keypoint entries. *)
Theorem has_sufficient_keypoints_antitone (lo hi : Q) (i : ImageUpload.t) :
  (lo <= hi)%Q →
  has_sufficient_keypoints hi i = true →
  has_sufficient_keypoints lo i = true ∧
  (15 ≤ length (get_keypoints_by_type "keypoint" i))%nat ∧
  is_Some (ImageUpload.yolo_keypoints i).
Proof.
  unfold has_sufficient_keypoints. intros Hle Hhi.
  apply bool_decide_eq_true in Hhi.
  set (kps := get_keypoints_by_type "keypoint" i) in *.
  assert (Hmono : (length (filter (λ kp, Qgtb (det_confidence kp) hi = true) kps)
                   ≤ length (filter (λ kp, Qgtb (det_confidence kp) lo = true) kps))%nat).
  { apply length_filter_mono. intros kp. rewrite !Qgtb_lt. intros Hgt.
    eapply Qle_lt_trans; eassumption. }
  split_and!.
  - apply bool_decide_eq_true. lia.
  - pose proof (length_filter (λ kp, Qgtb (det_confidence kp) hi = true) kps). lia.
  - subst kps. unfold get_keypoints_by_type in Hhi.
    destruct (ImageUpload.yolo_keypoints i); [done|]. simpl in Hhi. lia.
Qed.

Definition confident_keypoint (label : string) : detection :=
  mk_detection "keypoint" label (inject_Z 10) (inject_Z 10) (9 # 10).

Definition well_detected : ImageUpload.t :=
  ImageUpload.mk "i1" "b1" "f1" "f1.jpg" "b1/f1.jpg" 2048 "image/jpeg" "completed"
    (Some (confident_keypoint <$> take 15 YoloProcessor.keypoint_labels_26))
    15 (Some (9 # 10)) None (Some 100).

Lemma has_sufficient_keypoints_antitone_witness :
  has_sufficient_keypoints (3 # 10) well_detected = true.
Proof.
  apply (has_sufficient_keypoints_antitone (3 # 10) (1 # 2) well_detected);
    [unfold Qle; simpl; lia | vm_compute; reflexivity].
Defined.

(** X7.  For an image processed by the task with [process_image] as its
    detector, every stored keypoint is above the detector's threshold;
    so at any bar not above that threshold the image has sufficient
    keypoints exactly when its stored [keypoints_count] is at least
    15. *)
Theorem processed_image_sufficiency
    use_26_keypoints threshold file_exists image_shape model now image_id d i b results bar :
  tbl_get ImageUpload.id image_id (images d) = Some i →
  tbl_get UploadBatch.id (ImageUpload.batch i) (batches d) = Some b →
  YoloProcessor.process_image use_26_keypoints threshold file_exists image_shape model
                              (ImageUpload.file_path i) = Ok results →
  (bar <= threshold)%Q →
  ∃ i',
    tbl_get ImageUpload.id image_id
      (images (process_image_with_yolo_sync
                 (YoloProcessor.process_image use_26_keypoints threshold file_exists
                                              image_shape model)
                 now image_id d).2) = Some i' ∧
    Forall (λ kp, (threshold < det_confidence kp)%Q) (get_keypoints_by_type "keypoint" i') ∧
    has_sufficient_keypoints bar i' = bool_decide (15 ≤ ImageUpload.keypoints_count i').
Proof.
  intros Hi Hb Hok Hbar.
  destruct (sync_task_success _ now image_id d i b results Hi Hb Hok) as [_ Hrow].
  eexists. split; [exact Hrow|].
  pose proof (process_image_keypoints_above _ _ _ _ _ _ _ Hok) as Hall.
  set (kps := filter (λ r, is_keypoint r = true) results).
  assert (Hkps : get_keypoints_by_type "keypoint"
            (ImageUpload.set_results results (Z.of_nat (length kps)) (avg_confidence kps) now
               (ImageUpload.set_status "completed" (ImageUpload.set_status "processing" i)))
          = kps).
  { unfold get_keypoints_by_type. simpl. apply list_filter_iff. intros r.
    unfold is_keypoint. by rewrite bool_decide_eq_true. }
  assert (Habove : Forall (λ kp, (threshold < det_confidence kp)%Q) kps).
  { apply Forall_forall. intros kp Hkp. subst kps.
    apply list_elem_of_filter in Hkp as [Hty Hin].
    unfold is_keypoint in Hty. apply bool_decide_eq_true in Hty.
    rewrite Forall_forall in Hall. by apply Hall. }
  split; [by rewrite Hkps|].
  unfold has_sufficient_keypoints. rewrite Hkps. simpl.
  rewrite filter_all.
  - apply bool_decide_ext. lia.
  - eapply Forall_impl; [exact Habove|]. intros kp Hkp. simpl. apply Qgtb_lt.
    eapply Qle_lt_trans; eassumption.
Qed.
Definition one_person_model : string → result (list YoloProcessor.raw_result) :=
  λ _, Ok [YoloProcessor.mk_raw
             (Some [[[inject_Z 100; inject_Z 120; 9 # 10]; [inject_Z 90; inject_Z 110; 1 # 10]]])
             None].

Lemma processed_image_sufficiency_witness :
  ∃ i',
    tbl_get ImageUpload.id "i1"
      (images (process_image_with_yolo_sync
                 (YoloProcessor.process_image true (3 # 10) (λ _, true) (λ _, Some (480, 640))
                                              one_person_model)
                 100 "i1" one_uploaded).2) = Some i' ∧
    Forall (λ kp, (3 # 10 < det_confidence kp)%Q) (get_keypoints_by_type "keypoint" i') ∧
    has_sufficient_keypoints (3 # 10) i' = bool_decide (15 ≤ ImageUpload.keypoints_count i').
Proof.
  apply (processed_image_sufficiency true (3 # 10) (λ _, true) (λ _, Some (480, 640))
           one_person_model 100 "i1" one_uploaded _ _ _ (3 # 10) eq_refl eq_refl eq_refl).
  unfold Qle. simpl. lia.
Defined.
End StoredKeypoints.
(** ** The two tasks side by side *)

Section TaskRuns.
Import Uploads.

(** With a channel layer that takes the messages, the Celery task and
    its synchronous twin leave the same database. *)
Lemma celery_task_db channel detector now retries image_id d :
  (∀ group message, channel group message = Ok ()) →
  (process_image_with_yolo channel detector now retries image_id d).2
  = (process_image_with_yolo_sync detector now image_id d).2.
Proof.
  intros Hch. unfold process_image_with_yolo, process_image_with_yolo_sync.
  destruct (tbl_get ImageUpload.id image_id (images d)) as [i|]; [|done].
  destruct (tbl_get UploadBatch.id (ImageUpload.batch i) (batches d)); [|done].
  rewrite !Hch. by destruct (detector _).
Qed.

(** What the Celery task asks for, against the answer of its twin. *)
Lemma celery_task_outcome channel detector now retries image_id d :
  (∀ group message, channel group message = Ok ()) →
  match (process_image_with_yolo channel detector now retries image_id d).1 with
  | Done =>
      (process_image_with_yolo_sync detector now image_id d).1 = true ∨
      tbl_get ImageUpload.id image_id (images d) = None ∨
      (max_retries ≤ retries)%nat
  | Retry countdown =>
      (process_image_with_yolo_sync detector now image_id d).1 = false ∧
      is_Some (tbl_get ImageUpload.id image_id (images d)) ∧
      (retries < max_retries)%nat ∧
      countdown = retry_countdown retries
  end.
Proof.
  intros Hch. unfold process_image_with_yolo, process_image_with_yolo_sync.
  destruct (tbl_get ImageUpload.id image_id (images d)) as [i|]; simpl; [|auto].
  destruct (tbl_get UploadBatch.id (ImageUpload.batch i) (batches d)); simpl.
  - rewrite !Hch. destruct (detector _); simpl; [auto|].
    case_bool_decide; [by eauto | right; right; lia].
  - case_bool_decide; [by eauto | right; right; lia].
Qed.

(** X8.  The two tasks differ by the channel layer only.  With a layer
    that takes the messages, the Celery task and the synchronous task
    make the same changes to the database; the Celery task is done
    whenever the synchronous one reports success or does not find the
    image; it asks for a retry only where the synchronous one reports
    failure, and then only below the retry bound, with the countdown of
    its retry number. *)
Theorem celery_task_matches_sync channel detector now retries image_id d :
  (∀ group message, channel group message = Ok ()) →
  (process_image_with_yolo channel detector now retries image_id d).2
  = (process_image_with_yolo_sync detector now image_id d).2 ∧
  match (process_image_with_yolo channel detector now retries image_id d).1 with
  | Done =>
      (process_image_with_yolo_sync detector now image_id d).1 = true ∨
      tbl_get ImageUpload.id image_id (images d) = None ∨
      (max_retries ≤ retries)%nat
  | Retry countdown =>
      (process_image_with_yolo_sync detector now image_id d).1 = false ∧
      is_Some (tbl_get ImageUpload.id image_id (images d)) ∧
      (retries < max_retries)%nat ∧
      countdown = retry_countdown retries
  end.
Proof.
  intros Hch. split; [by apply celery_task_db | by apply celery_task_outcome].
Qed.

Lemma celery_task_matches_sync_witness :
  (process_image_with_yolo (open_channel 0%nat) always_detects 7 0 "i1" one_uploaded).2
  = (process_image_with_yolo_sync always_detects 7 "i1" one_uploaded).2.
Proof.
  apply (celery_task_matches_sync (open_channel 0%nat) always_detects 7 0 "i1" one_uploaded).
  reflexivity.
Defined.

(** A channel layer that is not there: every send raises. *)
Definition no_channel : nat → channel_layer :=
  λ _ _ _, Raise (ProcessingError "channel layer unavailable").

(** Without a channel layer the synchronous task detects and completes
    the image; the Celery task stops at its first send, stores the image
    as failed with the message of that send, and asks for a retry. *)
Example tasks_without_channel_layer :
  (process_image_with_yolo_sync always_detects 7 "i1" one_uploaded).1 = true ∧
  ImageUpload.status <$> images (process_image_with_yolo_sync always_detects 7 "i1"
                                   one_uploaded).2 = ["completed"] ∧
  (process_image_with_yolo (no_channel 0%nat) always_detects 7 0 "i1" one_uploaded).1
  = Retry 60 ∧
  (λ i, (ImageUpload.status i, ImageUpload.error_message i))
    <$> images (process_image_with_yolo (no_channel 0%nat) always_detects 7 0 "i1"
                  one_uploaded).2
  = [("failed", Some "channel layer unavailable")].
Proof. vm_compute. done. Qed.

(** The rows that a failing run stores. *)
Lemma failed_run_rows channel detector now retries image_id d i b e :
  (∀ group message, channel group message = Ok ()) →
  tbl_get ImageUpload.id image_id (images d) = Some i →
  tbl_get UploadBatch.id (ImageUpload.batch i) (batches d) = Some b →
  detector (ImageUpload.file_path i) = Raise e →
  let d' := (process_image_with_yolo channel detector now retries image_id d).2 in
  tbl_get ImageUpload.id image_id (images d')
  = Some (ImageUpload.set_error_message (Some (exn_message e))
            (ImageUpload.set_status "failed" (ImageUpload.set_status "processing" i))) ∧
  tbl_get UploadBatch.id (ImageUpload.batch i) (batches d')
  = Some (UploadBatch.set_failed_files (UploadBatch.failed_files b + 1) b).
Proof.
  intros Hch Hi Hb He. unfold process_image_with_yolo. rewrite Hi, Hb, !Hch.
  change (ImageUpload.file_path (ImageUpload.set_status "processing" i))
    with (ImageUpload.file_path i). rewrite He. simpl.
  destruct (tbl_get_Some ImageUpload.id _ _ _ Hi) as [Hk _].
  destruct (tbl_get_Some UploadBatch.id _ _ _ Hb) as [Hkb _].
  unfold record_failure.
  set (p := ImageUpload.set_status "processing" i).
  assert (Hp : tbl_get ImageUpload.id image_id (images (save_image p d)) = Some p).
  { simpl. rewrite <- Hk. apply (tbl_get_save_eq ImageUpload.id p). }
  rewrite Hp. simpl. rewrite Hb. simpl. split.
  - rewrite <- Hk.
    match goal with |- tbl_get _ _ (tbl_save _ ?r _) = _ =>
      change (ImageUpload.id i) with (ImageUpload.id r) at 1 end.
    apply tbl_get_save_eq.
  - rewrite <- Hkb.
    match goal with |- tbl_get _ _ (tbl_save _ ?r _) = _ =>
      change (UploadBatch.id b) with (UploadBatch.id r) at 1 end.
    apply tbl_get_save_eq.
Qed.

(** X9.  With a channel layer that takes the messages, a delayed
    detection that fails on its first run and succeeds on the retry is
    done after one wait of 60 seconds.  The image is then completed with
    the detector's output, yet it still carries the error message of the
    failed run, and its batch counts it twice: one more failed file and
    one more processed file. *)
Theorem retry_success_keeps_failure_trace channel detector clock image_id d i b e results :
  (∀ n group message, channel n group message = Ok ()) →
  tbl_get ImageUpload.id image_id (images d) = Some i →
  tbl_get UploadBatch.id (ImageUpload.batch i) (batches d) = Some b →
  detector 0%nat (ImageUpload.file_path i) = Raise e →
  detector 1%nat (ImageUpload.file_path i) = Ok results →
  ∃ d' i' b',
    celery_delay channel detector clock image_id d = Some (d', [60]) ∧
    tbl_get ImageUpload.id image_id (images d') = Some i' ∧
    ImageUpload.status i' = "completed" ∧
    ImageUpload.yolo_keypoints i' = Some results ∧
    ImageUpload.error_message i' = Some (exn_message e) ∧
    tbl_get UploadBatch.id (ImageUpload.batch i) (batches d') = Some b' ∧
    UploadBatch.failed_files b' = UploadBatch.failed_files b + 1 ∧
    UploadBatch.processed_files b' = UploadBatch.processed_files b + 1.
Proof.
  intros Hch Hi Hb Hfail Hok.
  destruct (failed_run_rows (channel 0%nat) (detector 0%nat) (clock 0%nat) 0 image_id d i b e
              (Hch 0%nat) Hi Hb Hfail) as [Hi1 Hb1].
  set (d1 := (process_image_with_yolo (channel 0%nat) (detector 0%nat) (clock 0%nat) 0
                image_id d).2) in *.
  set (i1 := ImageUpload.set_error_message _ _) in Hi1.
  set (b1 := UploadBatch.set_failed_files _ b) in Hb1.
  pose proof (celery_task_outcome (channel 0%nat) (detector 0%nat) (clock 0%nat) 0 image_id d
                (Hch 0%nat)) as Hout0.
  assert (Hrun0 : process_image_with_yolo (channel 0%nat) (detector 0%nat) (clock 0%nat) 0
                    image_id d = (Retry 60, d1)).
  { subst d1. destruct (process_image_with_yolo _ _ _ 0 image_id d) as [[|c] dd]; simpl in *.
    - destruct Hout0 as [Hs|[Hn|Hm]].
      + unfold process_image_with_yolo_sync in Hs. rewrite Hi, Hb in Hs.
        change (ImageUpload.file_path (ImageUpload.set_status "processing" i))
          with (ImageUpload.file_path i) in Hs. by rewrite Hfail in Hs.
      + by rewrite Hi in Hn.
      + unfold max_retries in Hm. lia.
    - destruct Hout0 as (_ & _ & _ & ->). reflexivity. }
  assert (Hok1 : detector 1%nat (ImageUpload.file_path i1) = Ok results) by exact Hok.
  destruct (sync_task_success (detector 1%nat) (clock 1%nat) image_id d1 i1 b1 results
              Hi1 Hb1 Hok1) as [Htrue Hi2].
  pose proof (celery_task_db (channel 1%nat) (detector 1%nat) (clock 1%nat) 1 image_id d1
                (Hch 1%nat)) as Hdb1.
  pose proof (celery_task_outcome (channel 1%nat) (detector 1%nat) (clock 1%nat) 1 image_id d1
                (Hch 1%nat)) as Hout1.
  set (d2 := (process_image_with_yolo (channel 1%nat) (detector 1%nat) (clock 1%nat) 1
                image_id d1).2) in *.
  assert (Hrun1 : process_image_with_yolo (channel 1%nat) (detector 1%nat) (clock 1%nat) 1
                    image_id d1 = (Done, d2)).
  { subst d2. destruct (process_image_with_yolo _ _ _ 1 image_id d1) as [[|c] dd]; simpl in *;
      [done|]. destruct Hout1 as (Hfalse & _). by rewrite Htrue in Hfalse. }
  rewrite <- Hdb1 in Hi2.
  eexists d2, _, _. split_and!.
  - unfold celery_delay. simpl. rewrite Hrun0, Hrun1. reflexivity.
  - exact Hi2.
  - done.
  - done.
  - done.
  - subst d2. rewrite Hdb1. unfold process_image_with_yolo_sync. rewrite Hi1.
    change (ImageUpload.batch i1) with (ImageUpload.batch i). rewrite Hb1.
    change (ImageUpload.file_path (ImageUpload.set_status "processing" i1))
      with (ImageUpload.file_path i). rewrite Hok. simpl.
    destruct (tbl_get_Some UploadBatch.id _ _ _ Hb) as [Hkb _]. rewrite <- Hkb.
    match goal with |- tbl_get _ _ (tbl_save _ ?r _) = _ =>
      replace (UploadBatch.id b) with (UploadBatch.id r) at 1
        by (by destruct (_ =? _)) end.
    apply tbl_get_save_eq.
  - simpl. by destruct (_ =? _).
  - simpl. by destruct (_ =? _).
Qed.

Definition second_try_detects : nat → string → result (list detection) :=
  λ n path, if bool_decide (n = 0%nat) then Raise (ProcessingError "model error")
            else always_detects path.

Lemma retry_success_keeps_failure_trace_witness :
  ∃ d' i' b',
    celery_delay open_channel second_try_detects (λ n, 100 + Z.of_nat n) "i1" one_uploaded
      = Some (d', [60]) ∧
    tbl_get ImageUpload.id "i1" (images d') = Some i' ∧
    ImageUpload.status i' = "completed" ∧
    ImageUpload.error_message i' = Some "model error" ∧
    tbl_get UploadBatch.id "b1" (batches d') = Some b' ∧
    UploadBatch.failed_files b' = 1 ∧
    UploadBatch.processed_files b' = 1.
Proof.
  destruct (retry_success_keeps_failure_trace open_channel second_try_detects
              (λ n, 100 + Z.of_nat n) "i1"
              one_uploaded _ _ _ _ (λ _ _ _, eq_refl) eq_refl eq_refl eq_refl eq_refl)
    as (d' & i' & b' & H1 & H2 & H3 & _ & H5 & H6 & H7 & H8).
  exists d', i', b'. split_and!; assumption.
Defined.

(** X10.  Whatever the detector and the channel layer do at each run, a
    delayed task comes to an end: the worker runs it at most four times,
    and the waits between the runs are the first ones of 60, 120 and 180
    seconds. *)
Theorem delayed_task_stops channel detector clock image_id d :
  ∃ d' waits,
    celery_delay channel detector clock image_id d = Some (d', waits) ∧
    waits `prefix_of` [60; 120; 180] ∧
    (length waits ≤ max_retries)%nat.
Proof.
  destruct (worker_stops channel detector clock image_id max_retries 0%nat d)
    as (d' & waits & Hrun & Hpre); [lia|].
  exists d', waits. split_and!; [exact Hrun | exact Hpre |].
  apply prefix_length in Hpre. exact Hpre.
Qed.
End TaskRuns.

(** ** The views, one request at a time *)

Section ViewRequests.
Import Uploads.

Lemma get_batch_Some batch_id user d b :
  get_batch batch_id user d = Some b →
  tbl_get UploadBatch.id batch_id (batches d) = Some b ∧
  UploadBatch.id b = batch_id ∧ UploadBatch.user b = user.
Proof.
  unfold get_batch.
  destruct (tbl_get UploadBatch.id batch_id (batches d)) as [b0|] eqn:Hget; [|done].
  case_bool_decide as Hu; [|done]. intros [= <-].
  by destruct (tbl_get_Some UploadBatch.id _ _ _ Hget).
Qed.

Lemma get_batch_save_batch b d :
  get_batch (UploadBatch.id b) (UploadBatch.user b) (save_batch b d) = Some b.
Proof.
  unfold get_batch, save_batch. simpl. rewrite tbl_get_save_eq.
  by rewrite bool_decide_eq_true_2.
Qed.

(** What [cancel_batch] does to one image of batch [k]. *)
Definition cancelled_in (k : string) (i : ImageUpload.t) : ImageUpload.t :=
  if bool_decide (ImageUpload.batch i = k) && pending i
  then ImageUpload.set_status "cancelled" i else i.

Lemma cancel_batch_ok user batch_id d batch :
  get_batch batch_id user d = Some batch →
  UploadBatch.status batch ≠ "completed" →
  cancel_batch user batch_id d
  = (JsonResponse (Message "Batch cancelled successfully") 200,
     mkDb (tbl_save UploadBatch.id (UploadBatch.set_status "cancelled" batch) (batches d))
          (cancelled_in batch_id <$> images d) (storage d)).
Proof.
  intros Hget Hst. unfold cancel_batch. rewrite Hget.
  destruct (get_batch_Some _ _ _ _ Hget) as (_ & Hid & _).
  unfold str_in. rewrite bool_decide_eq_false_2.
  - simpl. by rewrite Hid.
  - by intros Hin%list_elem_of_singleton.
Qed.

(** X11.  Cancelling a batch that is the user's and not completed
    answers 200 and stores the batch as cancelled; every image of the
    batch that was uploaded or processing is now cancelled and keeps its
    other columns, so the batch has no pending image left; completed and
    failed images, the images of other batches, the other batches and
    the storage stay as they were. *)
Theorem cancel_batch_effect user batch_id d batch :
  get_batch batch_id user d = Some batch →
  UploadBatch.status batch ≠ "completed" →
  status_code (cancel_batch user batch_id d).1 = 200 ∧
  get_batch batch_id user (cancel_batch user batch_id d).2
    = Some (UploadBatch.set_status "cancelled" batch) ∧
  images (cancel_batch user batch_id d).2 = cancelled_in batch_id <$> images d ∧
  Forall (λ i, pending i = false) (batch_images batch (cancel_batch user batch_id d).2) ∧
  (∀ k, k ≠ batch_id →
        tbl_get UploadBatch.id k (batches (cancel_batch user batch_id d).2)
        = tbl_get UploadBatch.id k (batches d)) ∧
  storage (cancel_batch user batch_id d).2 = storage d.
Proof.
  intros Hget Hst. rewrite (cancel_batch_ok _ _ _ _ Hget Hst). simpl.
  destruct (get_batch_Some _ _ _ _ Hget) as (_ & Hid & Huser).
  split_and!; try done.
  - pose proof (get_batch_save_batch (UploadBatch.set_status "cancelled" batch) d) as Hsaved.
    simpl in Hsaved. rewrite Hid, Huser in Hsaved. exact Hsaved.
  - unfold batch_images. simpl. apply Forall_forall. intros i Hi.
    apply list_elem_of_filter in Hi as [Hb Hin].
    apply list_elem_of_fmap in Hin as (i0 & -> & _).
    unfold cancelled_in in *. destruct (bool_decide _ && pending i0) eqn:Hc; [done|].
    apply andb_false_iff in Hc as [Hc|Hc]; [|done].
    apply bool_decide_eq_false in Hc. congruence.
  - intros k Hk. apply tbl_get_save_ne. simpl. congruence.
Qed.

Definition mixed_batch : db :=
  mkDb [UploadBatch.mk "b1" "u" 3 3 1 0 "processing" None]
       [ImageUpload.mk "i3" "b1" "f3" "f3.jpg" "b1/f3.jpg" 10 "image/png" "uploaded"
                       None 0 None None None;
        ImageUpload.mk "i2" "b1" "f2" "f2.jpg" "b1/f2.jpg" 10 "image/png" "processing"
                       None 0 None None None;
        ImageUpload.mk "i1" "b1" "f1" "f1.jpg" "b1/f1.jpg" 10 "image/png" "completed"
                       (Some []) 0 (Some (inject_Z 0)) None (Some 50)]
       ["b1/f3.jpg"; "b1/f2.jpg"; "b1/f1.jpg"].

Lemma cancel_batch_effect_witness :
  ImageUpload.status <$> images (cancel_batch "u" "b1" mixed_batch).2
  = ["cancelled"; "cancelled"; "completed"].
Proof.
  destruct (cancel_batch_effect "u" "b1" mixed_batch _ eq_refl ltac:(discriminate))
    as (_ & _ & Himages & _).
  rewrite Himages. vm_compute. reflexivity.
Defined.

Lemma cancelled_in_idem k i : cancelled_in k (cancelled_in k i) = cancelled_in k i.
Proof.
  unfold cancelled_in. destruct (bool_decide _ && pending i) eqn:Hc; [|by rewrite Hc].
  simpl. by rewrite andb_false_r.
Qed.

Lemma tbl_update_idem {R} (pk : R → string) (r : R) (t : list R) :
  tbl_update pk r (tbl_update pk r t) = tbl_update pk r t.
Proof.
  unfold tbl_update. rewrite <- list_fmap_compose. apply list_fmap_ext.
  intros _ x _. unfold compose.
  destruct (bool_decide (pk x = pk r)) eqn:Hx; [by rewrite bool_decide_eq_true_2|].
  by rewrite Hx.
Qed.

Lemma tbl_update_absent {R} (pk : R → string) (r : R) (t : list R) :
  tbl_get pk (pk r) t = None → tbl_update pk r t = t.
Proof.
  intros Hnone. unfold tbl_update. rewrite <- (list_fmap_id t) at 2.
  apply list_fmap_ext. intros i x Hx. simpl.
  case_bool_decide as Hk; [|done]. exfalso.
  apply tbl_get_None in Hnone. apply Hnone. rewrite <- Hk.
  apply list_elem_of_fmap_2. by eapply list_elem_of_lookup_2.
Qed.

Lemma tbl_save_idem {R} (pk : R → string) (r : R) (t : list R) :
  tbl_save pk r (tbl_save pk r t) = tbl_save pk r t.
Proof.
  unfold tbl_save at 1. rewrite tbl_get_save_eq. unfold tbl_save.
  destruct (tbl_get pk (pk r) t) eqn:Hget; [apply tbl_update_idem|].
  unfold tbl_update. simpl. rewrite bool_decide_eq_true_2 by done. f_equal.
  by apply tbl_update_absent.
Qed.

(** X12.  [cancel_batch] is idempotent: a second call for the same user
    and batch gives the same answer and the same database as the
    first. *)
Theorem cancel_batch_idempotent user batch_id d :
  cancel_batch user batch_id (cancel_batch user batch_id d).2 = cancel_batch user batch_id d.
Proof.
  destruct (get_batch batch_id user d) as [batch|] eqn:Hget.
  - destruct (decide (UploadBatch.status batch = "completed")) as [Hc|Hc].
    + assert (Hsame : cancel_batch user batch_id d
                      = (JsonResponse (Error "Cannot cancel completed batch") 400, d)).
      { unfold cancel_batch. rewrite Hget, Hc. reflexivity. }
      rewrite Hsame. simpl. exact Hsame.
    + rewrite (cancel_batch_ok _ _ _ _ Hget Hc). simpl.
      destruct (get_batch_Some _ _ _ _ Hget) as (_ & Hid & Huser).
      set (b' := UploadBatch.set_status "cancelled" batch).
      assert (Hget' : get_batch batch_id user
                (mkDb (tbl_save UploadBatch.id b' (batches d))
                      (cancelled_in batch_id <$> images d) (storage d)) = Some b').
      { pose proof (get_batch_save_batch b' d) as Hs. simpl in Hs.
        rewrite Hid, Huser in Hs. exact Hs. }
      rewrite (cancel_batch_ok _ _ _ _ Hget'); [|done]. simpl.
      change (UploadBatch.set_status "cancelled" b') with b'.
      rewrite tbl_save_idem, <- list_fmap_compose. do 2 f_equal.
      apply list_fmap_ext. intros _ i _. apply cancelled_in_idem.
  - assert (Hsame : cancel_batch user batch_id d
                    = (JsonResponse (Error "Batch not found") 404, d)).
    { unfold cancel_batch. by rewrite Hget. }
    rewrite Hsame. simpl. exact Hsame.
Qed.

(** X13.  Once a batch is cancelled, [process_batch_with_yolo] refuses
    it, in either mode and whatever the detector: the answer is 400,
    nothing is handed to the worker and the database stays as it is. *)
Theorem cancelled_batch_is_not_processed use_async detector now user batch_id d batch :
  get_batch batch_id user d = Some batch →
  UploadBatch.status batch ≠ "completed" →
  process_batch_with_yolo use_async detector now user batch_id (cancel_batch user batch_id d).2
  = (JsonResponse (Error "Cannot process batch with status: cancelled") 400,
     (cancel_batch user batch_id d).2, []).
Proof.
  intros Hget Hst. rewrite (cancel_batch_ok _ _ _ _ Hget Hst). simpl.
  destruct (get_batch_Some _ _ _ _ Hget) as (_ & Hid & Huser).
  unfold process_batch_with_yolo.
  pose proof (get_batch_save_batch (UploadBatch.set_status "cancelled" batch) d) as Hs.
  simpl in Hs. rewrite Hid, Huser in Hs.
  unfold get_batch in *. simpl in *.
  destruct (tbl_get UploadBatch.id batch_id
              (tbl_save UploadBatch.id (UploadBatch.set_status "cancelled" batch) (batches d)))
    as [b0|]; [|done].
  case_bool_decide; [|done]. injection Hs as ->. reflexivity.
Qed.

Lemma cancelled_batch_is_not_processed_witness :
  status_code
    (process_batch_with_yolo false always_detects 100 "u" "b1"
       (cancel_batch "u" "b1" mixed_batch).2).1.1 = 400.
Proof.
  by rewrite (cancelled_batch_is_not_processed false always_detects 100 "u" "b1" mixed_batch
                _ eq_refl ltac:(discriminate)).
Defined.
End ViewRequests.
Section UploadRequests.
Import Uploads.

(** X14.  [upload_image] answers 200 only for a request that names the
    batch and the file id, carries a file of at most 10 MB of an allowed
    type, and whose batch is the user's.  Then the storage holds one
    more file, under the name it gave; the new image comes first, is
    uploaded, and belongs to the batch; and the batch is stored with one
    more uploaded file, moved from pending to uploading. *)
Theorem upload_image_accepted env k request d :
  status_code (upload_image env k request d).1 = 200 →
  ∃ batch_id file_id f batch,
    post_batch_id request = Some batch_id ∧
    post_file_id request = Some file_id ∧
    files_file request = Some f ∧
    size f ≤ 10 * 1024 * 1024 ∧
    content_type f ∈ allowed_types ∧
    get_batch batch_id (request_user request) d = Some batch ∧
    tbl_get ImageUpload.id k (images d) = None ∧
    let file_path :=
      get_available_name env (storage d) (batch_id +:+ "/" +:+ file_id +:+ splitext_ext (name f)) in
    let batch' :=
      UploadBatch.mk batch_id (request_user request) (UploadBatch.total_files batch)
        (UploadBatch.uploaded_files batch + 1) (UploadBatch.processed_files batch)
        (UploadBatch.failed_files batch)
        (if bool_decide (UploadBatch.status batch = "pending")
         then "uploading" else UploadBatch.status batch)
        (UploadBatch.completed_at batch) in
    (upload_image env k request d).1 = JsonResponse (ImageUploaded k) 200 ∧
    storage (upload_image env k request d).2 = file_path :: storage d ∧
    images (upload_image env k request d).2
      = ImageUpload.mk k batch_id file_id (name f) file_path (size f) (content_type f)
                       "uploaded" None 0 None None None :: images d ∧
    get_batch batch_id (request_user request) (upload_image env k request d).2 = Some batch'.
Proof.
  unfold upload_image.
  destruct (negb _) eqn:Hmissing; [done|].
  destruct (post_batch_id request) as [batch_id|]; [|done].
  destruct (post_file_id request) as [file_id|]; [|done].
  destruct (files_file request) as [f|]; [|done].
  case_bool_decide as Hsize; [done|].
  destruct (str_in (content_type f) allowed_types) eqn:Htype; [|done]. simpl.
  destruct (is_uuid env batch_id); [|done]. simpl.
  destruct (get_batch batch_id (request_user request) d) as [batch|] eqn:Hget; [|done].
  simpl. destruct (tbl_get ImageUpload.id k (images d)) eqn:Hk; [done|].
  intros _. exists batch_id, file_id, f, batch.
  destruct (get_batch_Some _ _ _ _ Hget) as (_ & Hid & Huser).
  cbn [fst snd].
  split_and!; try done.
  - unfold str_in in Htype. by apply bool_decide_eq_true in Htype.
  - simpl. by rewrite Hid.
  - match goal with |- get_batch _ _ (save_batch ?b ?dd) = _ =>
      pose proof (get_batch_save_batch b dd) as Hs; set (b' := b) in * end.
    assert (Hid' : UploadBatch.id b' = batch_id) by (subst b'; by case_bool_decide).
    assert (Hu' : UploadBatch.user b' = request_user request)
      by (subst b'; by case_bool_decide).
    rewrite Hid', Hu' in Hs. rewrite Hs. f_equal.
    subst b'. destruct (bool_decide (UploadBatch.status batch = "pending"));
      unfold UploadBatch.set_status, UploadBatch.set_uploaded_files; simpl;
      by rewrite Hid, Huser.
Qed.

Lemma upload_image_accepted_witness :
  ∃ batch,
    get_batch "b1" "u"
      (upload_image plain_env "i1" (jpeg_upload "b1" "f1") one_pending_batch).2 = Some batch ∧
    UploadBatch.uploaded_files batch = 1 ∧ UploadBatch.status batch = "uploading".
Proof.
  destruct (upload_image_accepted plain_env "i1" (jpeg_upload "b1" "f1") one_pending_batch
              eq_refl)
    as (batch_id & file_id & f & batch & Hb & Hf & Hfile & _ & _ & Hget & _ & _ & _ & _ & Hgot).
  injection Hb as <-. injection Hf as <-. injection Hfile as <-.
  vm_compute in Hget. injection Hget as <-.
  eexists. split; [exact Hgot|]. split; reflexivity.
Defined.

(** X15.  Whenever [upload_image] answers anything but 200, no image
    row is created and no batch row changes; the storage is untouched
    as well, except when the answer is 500. *)
Theorem upload_image_refused env k request d :
  status_code (upload_image env k request d).1 ≠ 200 →
  images (upload_image env k request d).2 = images d ∧
  batches (upload_image env k request d).2 = batches d ∧
  (status_code (upload_image env k request d).1 = 500 ∨
   storage (upload_image env k request d).2 = storage d).
Proof.
  unfold upload_image.
  destruct (negb _) eqn:Hmissing; [by auto|].
  destruct (post_batch_id request) as [batch_id|]; [|by auto].
  destruct (post_file_id request) as [file_id|]; [|by auto].
  destruct (files_file request) as [f|]; [|by auto].
  case_bool_decide as Hsize; [by auto|].
  destruct (negb (str_in (content_type f) allowed_types)); [by auto|].
  destruct (negb (is_uuid env batch_id)); [by auto|].
  destruct (get_batch batch_id (request_user request) d) as [batch|]; [|by auto].
  simpl. destruct (tbl_get ImageUpload.id k (images d)); [by auto|].
  simpl. done.
Qed.

Definition foreign_upload : upload_request :=
  mk_request "mallory" (Some "b1") (Some "f9") (Some (mk_file "x.png" 10 "image/png")).

Lemma upload_image_refused_witness :
  (upload_image plain_env "i9" foreign_upload one_pending_batch).1
    = JsonResponse (Error "Batch not found") 404 ∧
  images (upload_image plain_env "i9" foreign_upload one_pending_batch).2 = [] ∧
  batches (upload_image plain_env "i9" foreign_upload one_pending_batch).2
    = batches one_pending_batch.
Proof.
  split; [reflexivity|].
  destruct (upload_image_refused plain_env "i9" foreign_upload one_pending_batch
              ltac:(discriminate)) as (Hi & Hb & _).
  split; [exact Hi | exact Hb].
Defined.

(** X16.  [create_upload_batch] refuses a missing, zero or negative
    [total_files] with 400, and one that the integer column of the
    engine does not hold with 500, and then changes nothing.  With a
    positive one that fits (and a fresh key) it stores a pending batch
    with all counters at zero, which its owner, and nobody else, then
    finds under its key; the batches stored before are still found, and
    no image or file is touched. *)
Theorem create_upload_batch_round_trip engine k user total_files d :
  match total_files with
  | Some n =>
      if bool_decide (0 < n)
      then
        if integer_field engine n
        then
          tbl_get UploadBatch.id k (batches d) = None →
          (create_upload_batch engine k user total_files d).1
            = JsonResponse (BatchCreated k) 200 ∧
          get_batch k user (create_upload_batch engine k user total_files d).2
            = Some (UploadBatch.mk k user n 0 0 0 "pending" None) ∧
          (∀ other, other ≠ user →
                    get_batch k other (create_upload_batch engine k user total_files d).2
                    = None) ∧
          (∀ k' u', k' ≠ k →
                    get_batch k' u' (create_upload_batch engine k user total_files d).2
                    = get_batch k' u' d) ∧
          images (create_upload_batch engine k user total_files d).2 = images d ∧
          storage (create_upload_batch engine k user total_files d).2 = storage d
        else
          status_code (create_upload_batch engine k user total_files d).1 = 500 ∧
          (create_upload_batch engine k user total_files d).2 = d
      else create_upload_batch engine k user total_files d
           = (JsonResponse (Error "Invalid total_files") 400, d)
  | None => create_upload_batch engine k user total_files d
            = (JsonResponse (Error "Invalid total_files") 400, d)
  end.
Proof.
  destruct total_files as [n|]; [|done].
  unfold create_upload_batch. case_bool_decide as Hn.
  - rewrite !bool_decide_eq_false_2 by lia. simpl.
    destruct (integer_field engine n); simpl; [|done].
    intros Hfresh. rewrite Hfresh. simpl.
    unfold get_batch, tbl_get. simpl. rewrite bool_decide_eq_true_2 by done. simpl.
    rewrite bool_decide_eq_true_2 by done. split_and!; try done.
    + intros other Hother. by rewrite bool_decide_eq_false_2.
    + intros k' u' Hk'. by rewrite bool_decide_eq_false_2.
  - destruct (bool_decide (n = 0)) eqn:H0; [done|].
    by rewrite bool_decide_eq_true_2 by lia.
Qed.

Lemma create_upload_batch_round_trip_witness :
  get_batch "b1" "u" (create_upload_batch postgresql "b1" "u" (Some 2) (mkDb [] [] [])).2
  = Some (UploadBatch.mk "b1" "u" 2 0 0 0 "pending" None).
Proof.
  pose proof (create_upload_batch_round_trip postgresql "b1" "u" (Some 2) (mkDb [] [] [])) as H.
  cbv beta iota in H. rewrite bool_decide_eq_true_2 in H by lia.
  change (integer_field postgresql 2) with true in H. cbv iota in H.
  destruct (H eq_refl) as (_ & Hg & _). exact Hg.
Defined.

(** A number of files that no integer column holds, and one that only
    the 64-bit column does. *)
Example create_upload_batch_out_of_range :
  (λ engine, status_code (create_upload_batch engine "b1" "u" (Some (2 ^ 63))
                            (mkDb [] [] [])).1) <$> [sqlite; postgresql] = [500; 500] ∧
  (λ engine, status_code (create_upload_batch engine "b1" "u" (Some (2 ^ 31))
                            (mkDb [] [] [])).1) <$> [sqlite; postgresql] = [200; 500].
Proof. vm_compute. done. Qed.
End UploadRequests.

(** ** What every request and task keeps *)

Section PipelineInvariant.
Import Uploads.

(** The key columns of the two tables: for an image its key and its
    batch, for a batch its key and its count of uploaded files. *)
Definition image_keys (d : db) : list (string * string) :=
  (λ i, (ImageUpload.id i, ImageUpload.batch i)) <$> images d.

Definition batch_keys (d : db) : list (string * Z) :=
  (λ b, (UploadBatch.id b, UploadBatch.uploaded_files b)) <$> batches d.

Definition same_rows (d d' : db) : Prop :=
  image_keys d' = image_keys d ∧ batch_keys d' = batch_keys d.

Definition keys_unique (d : db) : Prop :=
  NoDup (ImageUpload.id <$> images d) ∧ NoDup (UploadBatch.id <$> batches d).

Definition statuses_declared (d : db) : Prop :=
  Forall (λ i, ImageUpload.status i ∈ IMAGE_UPLOAD_STATUS) (images d) ∧
  Forall (λ b, UploadBatch.status b ∈ UPLOAD_BATCH_STATUS) (batches d).

(** Every image belongs to a stored batch. *)
Definition images_owned (d : db) : Prop :=
  Forall (λ i, ImageUpload.batch i ∈ UploadBatch.id <$> batches d) (images d).

(** Every batch counts the images it has. *)
Definition uploads_counted (d : db) : Prop :=
  Forall (λ b, UploadBatch.uploaded_files b = Z.of_nat (length (batch_images b d))) (batches d).

Lemma image_ids_keys d : ImageUpload.id <$> images d = fst <$> image_keys d.
Proof. unfold image_keys. by rewrite <- list_fmap_compose. Qed.

Lemma batch_ids_keys d : UploadBatch.id <$> batches d = fst <$> batch_keys d.
Proof. unfold batch_keys. by rewrite <- list_fmap_compose. Qed.

Lemma image_batches_keys d : ImageUpload.batch <$> images d = snd <$> image_keys d.
Proof. unfold image_keys. by rewrite <- list_fmap_compose. Qed.

Lemma length_batch_images b d :
  length (batch_images b d)
  = length (filter (λ k, k = UploadBatch.id b) (ImageUpload.batch <$> images d)).
Proof.
  unfold batch_images. induction (images d) as [|i l IH]; [done|].
  rewrite fmap_cons, !filter_cons.
  destruct (decide (ImageUpload.batch i = UploadBatch.id b)); simpl; by rewrite IH.
Qed.

Lemma same_rows_refl d : same_rows d d.
Proof. by split. Qed.

Lemma same_rows_trans d1 d2 d3 : same_rows d1 d2 → same_rows d2 d3 → same_rows d1 d3.
Proof. intros [H1 H2] [H3 H4]. split; congruence. Qed.

Lemma same_rows_keys_unique d d' : same_rows d d' → keys_unique d → keys_unique d'.
Proof.
  intros [Hi Hb] [H1 H2]. unfold keys_unique.
  rewrite image_ids_keys, batch_ids_keys in *. by rewrite Hi, Hb.
Qed.

Lemma same_rows_images_owned d d' : same_rows d d' → images_owned d → images_owned d'.
Proof.
  intros [Hi Hb] Ho. unfold images_owned in *. rewrite Forall_forall in *.
  intros i' Hin'. rewrite batch_ids_keys, Hb, <- batch_ids_keys.
  assert (Hk : ImageUpload.batch i' ∈ ImageUpload.batch <$> images d).
  { rewrite image_batches_keys, <- Hi, <- image_batches_keys. by apply list_elem_of_fmap_2. }
  apply list_elem_of_fmap in Hk as (i & -> & Hin). by apply Ho.
Qed.

Lemma uploads_counted_keys d :
  uploads_counted d ↔
  Forall (λ p : string * Z,
            p.2 = Z.of_nat (length (filter (λ k, k = p.1) (snd <$> image_keys d))))
         (batch_keys d).
Proof.
  unfold uploads_counted, batch_keys. rewrite Forall_fmap.
  apply Forall_proper; [|done]. intros b. simpl.
  by rewrite length_batch_images, image_batches_keys.
Qed.

Lemma same_rows_uploads_counted d d' : same_rows d d' → uploads_counted d → uploads_counted d'.
Proof. intros [Hi Hb]. rewrite !uploads_counted_keys. by rewrite Hi, Hb. Qed.

(** Finding a row again after writes that kept the key columns. *)
Lemma same_rows_get_image d d' k i :
  same_rows d d' → keys_unique d →
  tbl_get ImageUpload.id k (images d) = Some i →
  ∃ i', tbl_get ImageUpload.id k (images d') = Some i' ∧
        ImageUpload.batch i' = ImageUpload.batch i.
Proof.
  intros Hsame Hu Hget.
  destruct (same_rows_keys_unique _ _ Hsame Hu) as [Hu' _].
  destruct Hsame as [Hi _].
  destruct (tbl_get_Some ImageUpload.id _ _ _ Hget) as [Hk Hin].
  assert (Hkey : (k, ImageUpload.batch i) ∈ image_keys d').
  { rewrite Hi. unfold image_keys. rewrite <- Hk.
    by apply (list_elem_of_fmap_2 (λ i, (ImageUpload.id i, ImageUpload.batch i))). }
  unfold image_keys in Hkey. apply list_elem_of_fmap in Hkey as (i' & Heq & Hin').
  injection Heq as Hk' Hb'. exists i'. split; [|done].
  rewrite Hk'. by apply tbl_get_NoDup.
Qed.

Lemma same_rows_get_batch d d' k b :
  same_rows d d' → keys_unique d →
  tbl_get UploadBatch.id k (batches d) = Some b →
  ∃ b', tbl_get UploadBatch.id k (batches d') = Some b' ∧
        UploadBatch.uploaded_files b' = UploadBatch.uploaded_files b.
Proof.
  intros Hsame Hu Hget.
  destruct (same_rows_keys_unique _ _ Hsame Hu) as [_ Hu'].
  destruct Hsame as [_ Hb].
  destruct (tbl_get_Some UploadBatch.id _ _ _ Hget) as [Hk Hin].
  assert (Hkey : (k, UploadBatch.uploaded_files b) ∈ batch_keys d').
  { rewrite Hb. unfold batch_keys. rewrite <- Hk.
    by apply (list_elem_of_fmap_2 (λ b, (UploadBatch.id b, UploadBatch.uploaded_files b))). }
  unfold batch_keys in Hkey. apply list_elem_of_fmap in Hkey as (b' & Heq & Hin').
  injection Heq as Hk' Hup'. exists b'. split; [|done].
  rewrite Hk'. by apply tbl_get_NoDup.
Qed.

(** A write that keeps the key columns and the declared statuses, on a
    database with unique keys and declared statuses. *)
Definition kept (d d' : db) : Prop :=
  keys_unique d → statuses_declared d → same_rows d d' ∧ statuses_declared d'.

Lemma kept_refl d : kept d d.
Proof. intros _ Hs. split; [apply same_rows_refl | done]. Qed.

Lemma kept_trans d1 d2 d3 : kept d1 d2 → kept d2 d3 → kept d1 d3.
Proof.
  intros H12 H23 Hu Hs. destruct (H12 Hu Hs) as [Hr Hs2].
  destruct (H23 (same_rows_keys_unique _ _ Hr Hu) Hs2) as [Hr' Hs3].
  split; [by eapply same_rows_trans | done].
Qed.

Lemma kept_save_image d i i' :
  tbl_get ImageUpload.id (ImageUpload.id i') (images d) = Some i →
  ImageUpload.batch i' = ImageUpload.batch i →
  ImageUpload.status i' ∈ IMAGE_UPLOAD_STATUS →
  kept d (save_image i' d).
Proof.
  intros Hget Hb Hst [Hu _] [Hsi Hsb]. split; [split|split]; simpl; try done.
  - unfold image_keys. simpl. apply (tbl_save_fmap ImageUpload.id _ i' i); try done.
    destruct (tbl_get_Some ImageUpload.id _ _ _ Hget) as [Hk _]. by rewrite Hk, Hb.
  - by apply Forall_tbl_save.
Qed.

Lemma kept_save_batch d b b' :
  tbl_get UploadBatch.id (UploadBatch.id b') (batches d) = Some b →
  UploadBatch.uploaded_files b' = UploadBatch.uploaded_files b →
  UploadBatch.status b' ∈ UPLOAD_BATCH_STATUS →
  kept d (save_batch b' d).
Proof.
  intros Hget Hup Hst [_ Hu] [Hsi Hsb]. split; [split|split]; simpl; try done.
  - unfold batch_keys. simpl. apply (tbl_save_fmap UploadBatch.id _ b' b); try done.
    destruct (tbl_get_Some UploadBatch.id _ _ _ Hget) as [Hk _]. by rewrite Hk, Hup.
  - by apply Forall_tbl_save.
Qed.

Lemma declared_batch_status d k b :
  statuses_declared d → tbl_get UploadBatch.id k (batches d) = Some b →
  UploadBatch.status b ∈ UPLOAD_BATCH_STATUS.
Proof.
  intros [_ Hsb] Hget. destruct (tbl_get_Some UploadBatch.id _ _ _ Hget) as [_ Hin].
  rewrite Forall_forall in Hsb. by apply Hsb.
Qed.

Lemma kept_record_failure e image_id d : kept d (record_failure e image_id d).
Proof.
  unfold record_failure.
  destruct (tbl_get ImageUpload.id image_id (images d)) as [i|] eqn:Hi; [|apply kept_refl].
  destruct (tbl_get_Some ImageUpload.id _ _ _ Hi) as [Hk _].
  set (i' := ImageUpload.set_error_message _ _).
  assert (H1 : kept d (save_image i' d)).
  { apply (kept_save_image d i i'); [by rewrite <- Hk in Hi | done |].
    apply list_elem_of_In. simpl. tauto. }
  destruct (tbl_get UploadBatch.id (ImageUpload.batch i') (batches (save_image i' d)))
    as [b|] eqn:Hb; [|exact H1].
  eapply kept_trans; [exact H1|].
  intros Hu Hs. apply (kept_save_batch _ b); try done.
  - destruct (tbl_get_Some UploadBatch.id _ _ _ Hb) as [Hkb _]. simpl. by rewrite Hkb.
  - simpl. by eapply declared_batch_status.
Qed.

Lemma kept_sync_task detector now image_id d :
  kept d (process_image_with_yolo_sync detector now image_id d).2.
Proof.
  unfold process_image_with_yolo_sync.
  destruct (tbl_get ImageUpload.id image_id (images d)) as [i|] eqn:Hi; [|apply kept_refl].
  destruct (tbl_get_Some ImageUpload.id _ _ _ Hi) as [Hk _].
  destruct (tbl_get UploadBatch.id (ImageUpload.batch i) (batches d)) as [b|] eqn:Hb;
    [|apply kept_record_failure].
  destruct (tbl_get_Some UploadBatch.id _ _ _ Hb) as [Hkb _].
  set (p := ImageUpload.set_status "processing" i).
  assert (H1 : kept d (save_image p d)).
  { apply (kept_save_image d i p); [by rewrite <- Hk in Hi | done |].
    apply list_elem_of_In. simpl. tauto. }
  change (ImageUpload.file_path p) with (ImageUpload.file_path i).
  destruct (detector (ImageUpload.file_path i)) as [results|e]; simpl.
  - eapply kept_trans; [exact H1|]. unfold record_success.
    set (c := ImageUpload.set_results _ _ _ _ _).
    assert (H2 : kept (save_image p d) (save_image c (save_image p d))).
    { apply (kept_save_image _ p c); [|done|].
      - apply (tbl_get_save_eq ImageUpload.id p).
      - apply list_elem_of_In. simpl. tauto. }
    eapply kept_trans; [exact H2|].
    intros Hu Hs. apply (kept_save_batch _ b); try done.
    + simpl. rewrite <- Hkb in Hb.
      by destruct (_ =? _).
    + by destruct (_ =? _).
    + assert (Hbs : UploadBatch.status b ∈ UPLOAD_BATCH_STATUS).
      { eapply (declared_batch_status _ _ b Hs). simpl. exact Hb. }
      destruct (_ =? _); simpl; [|done]. apply list_elem_of_In. simpl. tauto.
  - eapply kept_trans; [exact H1 | apply kept_record_failure].
Qed.

Lemma kept_celery_task channel detector now retries image_id d :
  kept d (process_image_with_yolo channel detector now retries image_id d).2.
Proof.
  pose proof (kept_sync_task detector now image_id d) as Hsync.
  pose proof (λ e, kept_sync_task (λ _, Raise e) now image_id d) as Hfail.
  unfold process_image_with_yolo, process_image_with_yolo_sync in *.
  destruct (tbl_get ImageUpload.id image_id (images d)) as [i|]; [|done].
  destruct (tbl_get UploadBatch.id (ImageUpload.batch i) (batches d)) as [b|]; [|done].
  destruct (channel (group_name b) "processing_progress") as [[]|e]; [|apply Hfail].
  destruct (detector _) as [results|e]; [|exact Hsync].
  destruct (channel (group_name b) "processing_complete") as [[]|e]; [exact Hsync|].
  eapply kept_trans; [exact Hsync | apply kept_record_failure].
Qed.

Lemma kept_celery_worker channel detector clock image_id fuel :
  ∀ retries d d' waits,
    celery_worker fuel channel detector clock retries image_id d = Some (d', waits) →
    kept d d'.
Proof.
  induction fuel as [|fuel IH]; intros retries d d' waits; simpl; [done|].
  pose proof (kept_celery_task (channel retries) (detector retries) (clock retries) retries
                image_id d) as Hrun.
  destruct (process_image_with_yolo _ _ _ retries image_id d) as [[|countdown] d1];
    simpl in Hrun.
  - by intros [= <- _].
  - destruct (celery_worker fuel channel detector clock (S retries) image_id d1)
      as [[d2 ws]|] eqn:Hrest; [|done].
    intros [= <- _]. eapply kept_trans; [exact Hrun | by eapply IH].
Qed.

Lemma kept_cancel_batch user batch_id d : kept d (cancel_batch user batch_id d).2.
Proof.
  unfold cancel_batch.
  destruct (get_batch batch_id user d) as [batch|] eqn:Hget; [|apply kept_refl].
  destruct (str_in _ _); [apply kept_refl|]. simpl.
  destruct (get_batch_Some _ _ _ _ Hget) as (Hrow & Hid & _).
  eapply kept_trans.
  - apply (kept_save_batch d batch (UploadBatch.set_status "cancelled" batch)); try done.
    + simpl. by rewrite Hid.
    + apply list_elem_of_In. simpl. tauto.
  - intros _ [Hsi Hsb]. split; [split|split]; simpl; try done.
    + unfold image_keys. simpl. rewrite <- list_fmap_compose. apply list_fmap_ext.
      intros _ i _. simpl. by destruct (_ && _).
    + apply Forall_fmap. eapply Forall_impl; [exact Hsi|]. intros i Hi. simpl.
      destruct (_ && _); [|done]. apply list_elem_of_In. simpl. tauto.
Qed.

(** Two versions of the view's batch instance: all but [failed_files]
    agree. *)
Definition same_but_failed (b b' : UploadBatch.t) : Prop :=
  UploadBatch.id b' = UploadBatch.id b ∧
  UploadBatch.user b' = UploadBatch.user b ∧
  UploadBatch.total_files b' = UploadBatch.total_files b ∧
  UploadBatch.uploaded_files b' = UploadBatch.uploaded_files b ∧
  UploadBatch.processed_files b' = UploadBatch.processed_files b ∧
  UploadBatch.status b' = UploadBatch.status b ∧
  UploadBatch.completed_at b' = UploadBatch.completed_at b.

Lemma same_but_failed_trans b1 b2 b3 :
  same_but_failed b1 b2 → same_but_failed b2 b3 → same_but_failed b1 b3.
Proof.
  unfold same_but_failed. intros (?&?&?&?&?&?&?) (?&?&?&?&?&?&?). split_and!; congruence.
Qed.

(** An image read earlier is still stored under its key, in its batch. *)
Definition still_stored (d : db) (image : ImageUpload.t) : Prop :=
  ∃ i0, tbl_get ImageUpload.id (ImageUpload.id image) (images d) = Some i0 ∧
        ImageUpload.batch i0 = ImageUpload.batch image.

Lemma still_stored_same_rows d d' image :
  same_rows d d' → keys_unique d → still_stored d image → still_stored d' image.
Proof.
  intros Hsame Hu (i0 & Hget & Hb).
  destruct (same_rows_get_image d d' _ i0 Hsame Hu Hget) as (i' & Hget' & Hb').
  exists i'. split; [done | congruence].
Qed.

Lemma stored_still_stored d image :
  keys_unique d → image ∈ images d → still_stored d image.
Proof. intros [Hu _] Hin. exists image. split; [by apply tbl_get_NoDup | done]. Qed.

Lemma kept_process_batch_turn use_async detector now st image :
  keys_unique (loop_db st) → statuses_declared (loop_db st) →
  still_stored (loop_db st) image →
  same_rows (loop_db st) (loop_db (process_batch_turn use_async detector now st image)) ∧
  statuses_declared (loop_db (process_batch_turn use_async detector now st image)) ∧
  same_but_failed (loop_batch st)
                  (loop_batch (process_batch_turn use_async detector now st image)).
Proof.
  intros Hu Hs (i0 & Hget & Hb0). unfold process_batch_turn.
  set (image1 := if bool_decide _ then ImageUpload.set_error_message None image else image).
  set (image2 := ImageUpload.set_status "uploaded" image1).
  set (batch1 := if bool_decide _ then _ else loop_batch st).
  assert (Hsb : same_but_failed (loop_batch st) batch1).
  { subst batch1. case_bool_decide; by repeat split. }
  assert (Hid2 : ImageUpload.id image2 = ImageUpload.id image
                 ∧ ImageUpload.batch image2 = ImageUpload.batch image).
  { subst image2 image1. by case_bool_decide. }
  destruct Hid2 as [Hid2 Hb2].
  assert (H1 : kept (loop_db st) (save_image image2 (loop_db st))).
  { apply (kept_save_image _ i0 image2); [by rewrite Hid2 | congruence |].
    apply list_elem_of_In. simpl. tauto. }
  destruct use_async.
  - destruct (H1 Hu Hs) as [Hr Hs1]. simpl. done.
  - pose proof (kept_sync_task detector now (ImageUpload.id image2)
                  (save_image image2 (loop_db st))) as H2.
    destruct (process_image_with_yolo_sync detector now (ImageUpload.id image2)
                (save_image image2 (loop_db st))) as [success d1].
    simpl in H2. destruct (kept_trans _ _ _ H1 H2 Hu Hs) as [Hr Hs1].
    destruct success; simpl; by split_and!.
Qed.

Lemma kept_process_batch_loop use_async detector now l :
  ∀ st,
    keys_unique (loop_db st) → statuses_declared (loop_db st) →
    Forall (still_stored (loop_db st)) l →
    let st' := fold_left (process_batch_turn use_async detector now) l st in
    same_rows (loop_db st) (loop_db st') ∧ statuses_declared (loop_db st') ∧
    same_but_failed (loop_batch st) (loop_batch st').
Proof.
  induction l as [|image l IH]; intros st Hu Hs Hall; simpl.
  - split_and!; [apply same_rows_refl | done | by repeat split].
  - apply Forall_cons in Hall as [Himage Hrest].
    destruct (kept_process_batch_turn use_async detector now st image Hu Hs Himage)
      as (Hr & Hs1 & Hb).
    pose proof (same_rows_keys_unique _ _ Hr Hu) as Hu1.
    destruct (IH (process_batch_turn use_async detector now st image) Hu1 Hs1)
      as (Hr' & Hs' & Hb').
    { eapply Forall_impl; [exact Hrest|]. intros x Hx. by eapply still_stored_same_rows. }
    split_and!; [by eapply same_rows_trans | done | by eapply same_but_failed_trans].
Qed.

Lemma kept_process_batch_with_yolo use_async detector now user batch_id d :
  kept d (process_batch_with_yolo use_async detector now user batch_id d).1.2.
Proof.
  unfold process_batch_with_yolo.
  destruct (get_batch batch_id user d) as [batch|] eqn:Hget; [|apply kept_refl].
  destruct (negb _); [apply kept_refl|].
  destruct (filter _ (batch_images batch d)) as [|image0 rest] eqn:Hnone; [apply kept_refl|].
  clear Hnone image0 rest.
  destruct (get_batch_Some _ _ _ _ Hget) as (Hrow & Hid & _).
  intros Hu Hs.
  set (batch1 := UploadBatch.set_status "processing" batch).
  assert (H1 : kept d (save_batch batch1 d)).
  { apply (kept_save_batch d batch batch1); try done.
    - simpl. by rewrite Hid.
    - apply list_elem_of_In. simpl. tauto. }
  destruct (H1 Hu Hs) as [Hr1 Hs1].
  pose proof (same_rows_keys_unique _ _ Hr1 Hu) as Hu1.
  set (d1 := save_batch batch1 d) in *.
  cbv zeta. fold batch1. fold d1.
  set (l := filter (λ i, str_in (ImageUpload.status i) ["uploaded"; "failed"] = true)
                   (batch_images batch1 d1)).
  destruct (kept_process_batch_loop use_async detector now l (mk_loop d1 batch1 0 0 []) Hu1 Hs1)
    as (Hr2 & Hs2 & Hb2).
  { apply Forall_forall. intros x Hx. apply stored_still_stored; [done|].
    subst l. apply list_elem_of_filter in Hx as [_ Hx].
    unfold batch_images in Hx. by apply list_elem_of_filter in Hx as [_ Hx]. }
  set (st := fold_left _ l _) in *. simpl in Hr2, Hs2, Hb2.
  pose proof (same_rows_keys_unique _ _ Hr2 Hu1) as Hu2.
  destruct Hb2 as (Hbid & _ & _ & Hbup & _ & Hbst & _).
  assert (Hrow1 : tbl_get UploadBatch.id (UploadBatch.id batch1) (batches d1) = Some batch1)
    by apply (tbl_get_save_eq UploadBatch.id batch1).
  destruct (same_rows_get_batch d1 (loop_db st) _ _ Hr2 Hu1 Hrow1) as (b2 & Hrow2 & Hup2).
  assert (H3 : kept (loop_db st) (save_batch (loop_batch st) (loop_db st))).
  { apply (kept_save_batch _ b2); [by rewrite Hbid | congruence |].
    rewrite Hbst. apply list_elem_of_In. simpl. tauto. }
  destruct (H3 Hu2 Hs2) as [Hr3 Hs3].
  pose proof (same_rows_keys_unique _ _ Hr3 Hu2) as Hu3.
  assert (Hr03 : same_rows d (save_batch (loop_batch st) (loop_db st))).
  { eapply same_rows_trans; [exact Hr1|]. eapply same_rows_trans; [exact Hr2 | exact Hr3]. }
  destruct (negb use_async && _); simpl; [|done].
  set (batch4 := UploadBatch.set_completed_at _ _).
  assert (H4 : kept (save_batch (loop_batch st) (loop_db st))
                    (save_batch batch4 (save_batch (loop_batch st) (loop_db st)))).
  { apply (kept_save_batch _ (loop_batch st)); try done.
    - apply (tbl_get_save_eq UploadBatch.id (loop_batch st)).
    - apply list_elem_of_In. simpl. tauto. }
  destruct (H4 Hu3 Hs3) as [Hr4 Hs4].
  split; [by eapply same_rows_trans | done].
Qed.

Lemma kept_process_single_image use_async detector now user image_id d :
  kept d (process_single_image use_async detector now user image_id d).1.2.
Proof.
  unfold process_single_image.
  destruct (tbl_get ImageUpload.id image_id (images d)) as [image|] eqn:Hi; [|apply kept_refl].
  destruct (get_batch (ImageUpload.batch image) user d) as [batch|] eqn:Hget;
    [|apply kept_refl].
  destruct (negb _); [apply kept_refl|]. cbv zeta.
  destruct (tbl_get_Some ImageUpload.id _ _ _ Hi) as [Hk _].
  destruct (get_batch_Some _ _ _ _ Hget) as (Hrow & Hid & _).
  set (image1 := if bool_decide _ then ImageUpload.set_error_message None image else image).
  set (image2 := ImageUpload.set_status "uploaded" image1).
  set (d1 := if bool_decide _ then save_batch _ d else d).
  assert (Hid2 : ImageUpload.id image2 = image_id
                 ∧ ImageUpload.batch image2 = ImageUpload.batch image).
  { subst image2 image1. by case_bool_decide. }
  destruct Hid2 as [Hid2 Hb2].
  assert (H1 : kept d d1).
  { subst d1. case_bool_decide; [|apply kept_refl].
    intros Hu Hs. apply (kept_save_batch d batch); try done.
    - simpl. by rewrite Hid.
    - simpl. by eapply declared_batch_status. }
  assert (Himages : images d1 = images d).
  { subst d1. by case_bool_decide. }
  assert (H2 : kept d1 (save_image image2 d1)).
  { apply (kept_save_image _ image image2); [by rewrite Himages, Hid2 | done |].
    apply list_elem_of_In. simpl. tauto. }
  pose proof (kept_trans _ _ _ H1 H2) as H12.
  destruct use_async; [exact H12|].
  pose proof (kept_sync_task detector now (ImageUpload.id image2) (save_image image2 d1)) as H3.
  destruct (process_image_with_yolo_sync detector now (ImageUpload.id image2)
              (save_image image2 d1)) as [success d2].
  simpl in H3. pose proof (kept_trans _ _ _ H12 H3) as H. by destruct success.
Qed.

Lemma kept_retry_turn use_async detector now st image :
  keys_unique (retry_db st) → statuses_declared (retry_db st) →
  still_stored (retry_db st) image →
  same_rows (retry_db st) (retry_db (retry_turn use_async detector now st image)) ∧
  statuses_declared (retry_db (retry_turn use_async detector now st image)).
Proof.
  intros Hu Hs (i0 & Hget & Hb0). unfold retry_turn. cbv zeta.
  set (image1 := ImageUpload.set_error_message None (ImageUpload.set_status "uploaded" image)).
  assert (H1 : kept (retry_db st) (save_image image1 (retry_db st))).
  { apply (kept_save_image _ i0 image1); [done | done |].
    apply list_elem_of_In. simpl. tauto. }
  destruct use_async.
  - destruct (H1 Hu Hs) as [Hr Hs1]. simpl. done.
  - pose proof (kept_sync_task detector now (ImageUpload.id image1)
                  (save_image image1 (retry_db st))) as H2.
    destruct (process_image_with_yolo_sync detector now (ImageUpload.id image1)
                (save_image image1 (retry_db st))) as [success d1].
    simpl in H2. destruct (kept_trans _ _ _ H1 H2 Hu Hs) as [Hr Hs1].
    destruct success; simpl; by split_and!.
Qed.

Lemma kept_retry_loop use_async detector now l :
  ∀ st,
    keys_unique (retry_db st) → statuses_declared (retry_db st) →
    Forall (still_stored (retry_db st)) l →
    let st' := fold_left (retry_turn use_async detector now) l st in
    same_rows (retry_db st) (retry_db st') ∧ statuses_declared (retry_db st').
Proof.
  induction l as [|image l IH]; intros st Hu Hs Hall; simpl.
  - split; [apply same_rows_refl | done].
  - apply Forall_cons in Hall as [Himage Hrest].
    destruct (kept_retry_turn use_async detector now st image Hu Hs Himage) as (Hr & Hs1).
    pose proof (same_rows_keys_unique _ _ Hr Hu) as Hu1.
    destruct (IH (retry_turn use_async detector now st image) Hu1 Hs1) as (Hr' & Hs').
    { eapply Forall_impl; [exact Hrest|]. intros x Hx. by eapply still_stored_same_rows. }
    split; [by eapply same_rows_trans | done].
Qed.

Lemma kept_retry_failed_images use_async detector now user batch_id d :
  kept d (retry_failed_images use_async detector now user batch_id d).1.2.
Proof.
  unfold retry_failed_images.
  destruct (get_batch batch_id user d) as [batch|] eqn:Hget; [|apply kept_refl].
  cbv zeta.
  set (l := filter (λ i, ImageUpload.status i = "failed") (batch_images batch d)).
  assert (Hl : Forall (λ x, x ∈ images d) l).
  { apply Forall_forall. intros x Hx. subst l.
    apply list_elem_of_filter in Hx as [_ Hx].
    unfold batch_images in Hx. by apply list_elem_of_filter in Hx as [_ Hx]. }
  destruct l as [|image0 rest] eqn:Hnone; [apply kept_refl|]. rewrite <- Hnone in *.
  clear Hnone image0 rest.
  destruct (get_batch_Some _ _ _ _ Hget) as (Hrow & Hid & _).
  intros Hu Hs.
  destruct (kept_retry_loop use_async detector now l (mk_retry d 0 0 []) Hu Hs)
    as (Hr & Hs1).
  { eapply Forall_impl; [exact Hl|]. intros x Hx. by apply stored_still_stored. }
  set (st := fold_left _ l _) in *. simpl in Hr, Hs1.
  pose proof (same_rows_keys_unique _ _ Hr Hu) as Hu1.
  destruct (same_rows_get_batch d (retry_db st) _ _ Hr Hu Hrow) as (b2 & Hrow2 & Hup2).
  simpl.
  set (batch' := UploadBatch.set_failed_files _ batch).
  assert (H3 : kept (retry_db st) (save_batch batch' (retry_db st))).
  { apply (kept_save_batch _ b2); [by simpl; rewrite Hid | done |].
    simpl. exact (declared_batch_status d _ batch Hs Hrow). }
  destruct (H3 Hu1 Hs1) as [Hr3 Hs3].
  split; [by eapply same_rows_trans | done].
Qed.

(** The invariant of the pipeline. *)
Definition pipeline_invariant (d : db) : Prop :=
  keys_unique d ∧ statuses_declared d ∧ images_owned d ∧ uploads_counted d.

Lemma kept_invariant d d' : kept d d' → pipeline_invariant d → pipeline_invariant d'.
Proof.
  intros Hk (Hu & Hs & Ho & Hc). destruct (Hk Hu Hs) as [Hr Hs'].
  split_and!; [by eapply same_rows_keys_unique | done | by eapply same_rows_images_owned
              | by eapply same_rows_uploads_counted].
Qed.

Lemma create_upload_batch_invariant engine k user total_files d :
  pipeline_invariant d →
  pipeline_invariant (create_upload_batch engine k user total_files d).2.
Proof.
  intros Hinv. unfold create_upload_batch.
  destruct total_files as [n|]; [|done].
  destruct (_ || _); [done|].
  destruct (negb (integer_field engine n)); [done|].
  destruct (tbl_get UploadBatch.id k (batches d)) eqn:Hget; [done|].
  apply tbl_get_None in Hget. destruct Hinv as ([Hui Hub] & [Hsi Hsb] & Ho & Hc).
  unfold pipeline_invariant, keys_unique, statuses_declared, images_owned, uploads_counted.
  simpl. split_and!; try done.
  - by apply NoDup_cons.
  - apply Forall_cons. split; [|done]. apply list_elem_of_In. simpl. tauto.
  - eapply Forall_impl; [exact Ho|].
    intros i Hi. simpl in Hi. by apply elem_of_cons; right.
  - apply Forall_cons. split; [|done].
    unfold batch_images. simpl. rewrite filter_none; [done|].
    eapply Forall_impl; [exact Ho|].
    intros i Hi Heq. simpl in *. by rewrite Heq in Hi.
Qed.

Lemma upload_image_invariant env k request d :
  pipeline_invariant d → pipeline_invariant (upload_image env k request d).2.
Proof.
  intros Hinv. unfold upload_image.
  destruct (negb _); [done|].
  destruct (post_batch_id request) as [batch_id|]; [|done].
  destruct (post_file_id request) as [file_id|]; [|done].
  destruct (files_file request) as [file|]; [|done].
  destruct (bool_decide _); [done|].
  destruct (negb _); [done|].
  destruct (negb _); [done|].
  destruct (get_batch batch_id (request_user request) d) as [batch|] eqn:Hget; [|done].
  destruct (get_batch_Some _ _ _ _ Hget) as (Hrow & Hid & _).
  cbv zeta. cbn [images batches storage].
  destruct Hinv as ([Hui Hub] & [Hsi Hsb] & Ho & Hc).
  destruct (tbl_get ImageUpload.id k (images d)) eqn:Hk.
  { by repeat split. }
  apply tbl_get_None in Hk.
  set (file_path := get_available_name env (storage d) _).
  set (image := ImageUpload.mk k (UploadBatch.id batch) _ _ _ _ _ _ _ _ _ _ _).
  set (batch1 := UploadBatch.set_uploaded_files _ batch).
  set (batch2 := if bool_decide _ then _ else batch1).
  assert (Hid2 : UploadBatch.id batch2 = UploadBatch.id batch).
  { subst batch2 batch1. by case_bool_decide. }
  assert (Hup2 : UploadBatch.uploaded_files batch2 = UploadBatch.uploaded_files batch + 1).
  { subst batch2 batch1. by case_bool_decide. }
  assert (Hrow' : tbl_get UploadBatch.id (UploadBatch.id batch2) (batches d) = Some batch)
    by (by rewrite Hid2, Hid).
  assert (Hbs : UploadBatch.status batch ∈ UPLOAD_BATCH_STATUS).
  { destruct (tbl_get_Some UploadBatch.id _ _ _ Hrow) as [_ Hin].
    rewrite Forall_forall in Hsb. by apply Hsb. }
  unfold pipeline_invariant, keys_unique, statuses_declared, images_owned, uploads_counted.
  simpl. split_and!.
  - by apply NoDup_cons.
  - by rewrite (tbl_save_keys UploadBatch.id batch2 batch).
  - apply Forall_cons. split; [|done]. apply list_elem_of_In. simpl. tauto.
  - apply Forall_tbl_save; [|done]. subst batch2 batch1. case_bool_decide; [|done].
    apply list_elem_of_In. simpl. tauto.
  - rewrite (tbl_save_keys UploadBatch.id batch2 batch) by done.
    apply Forall_cons. split; [|done]. simpl.
    destruct (tbl_get_Some UploadBatch.id _ _ _ Hrow) as [_ Hin].
    by apply list_elem_of_fmap_2.
  - unfold tbl_save. rewrite Hrow'. unfold tbl_update.
    apply Forall_forall. intros x Hx. apply list_elem_of_In, in_map_iff in Hx as (y & <- & Hy).
    apply list_elem_of_In in Hy. unfold uploads_counted in Hc.
    rewrite Forall_forall in Hc. specialize (Hc y Hy).
    unfold batch_images in *. simpl. rewrite filter_cons. simpl.
    case_bool_decide as Hyk.
    + assert (y = batch) as ->.
      { pose proof (tbl_get_NoDup UploadBatch.id y (batches d) Hub Hy) as Hgy.
        rewrite Hyk, Hrow' in Hgy. by injection Hgy. }
      rewrite Hid2, Hup2, Hc. rewrite decide_True by done. simpl. lia.
    + rewrite Hid2 in Hyk. rewrite decide_False by (intros Heq; by rewrite Heq in Hyk).
      done.
Qed.

Lemma NoDup_fmap_filter {A B} (f : A → B) (P : A → Prop) `{∀ x, Decision (P x)} l :
  NoDup (f <$> l) → NoDup (f <$> filter P l).
Proof.
  induction l as [|x l IH]; [done|]. rewrite fmap_cons, NoDup_cons. intros [Hx Hl].
  rewrite filter_cons. destruct (decide (P x)); [|by apply IH].
  rewrite fmap_cons. apply NoDup_cons. split; [|by apply IH].
  intros Hin. apply Hx. apply list_elem_of_fmap in Hin as (y & -> & Hy).
  apply list_elem_of_filter in Hy as [_ Hy]. by apply list_elem_of_fmap_2.
Qed.

Lemma Forall_filter_keep {A} (P Q : A → Prop) `{∀ x, Decision (P x)} l :
  Forall Q l → Forall Q (filter P l).
Proof.
  rewrite !Forall_forall. intros HQ x Hx. apply list_elem_of_filter in Hx as [_ Hx]. by apply HQ.
Qed.

Lemma delete_batch_invariant faulty user batch_id d :
  pipeline_invariant d → pipeline_invariant (delete_batch faulty user batch_id d).2.
Proof.
  intros Hinv. unfold delete_batch.
  destruct (get_batch batch_id user d) as [batch|] eqn:Hget; [|done].
  destruct (delete_files _ _ _) as [files n]. simpl.
  destruct Hinv as ([Hui Hub] & [Hsi Hsb] & Ho & Hc).
  unfold pipeline_invariant, keys_unique, statuses_declared, images_owned, uploads_counted.
  simpl. split_and!.
  - by apply NoDup_fmap_filter.
  - by apply NoDup_fmap_filter.
  - by apply Forall_filter_keep.
  - by apply Forall_filter_keep.
  - unfold images_owned in Ho. rewrite Forall_forall in *. intros i Hi.
    apply list_elem_of_filter in Hi as [Hne Hi]. specialize (Ho i Hi).
    apply list_elem_of_fmap in Ho as (b & Hb & Hin). rewrite Hb.
    apply list_elem_of_fmap_2. apply list_elem_of_filter. split; [congruence | done].
  - unfold uploads_counted in Hc. rewrite Forall_forall in *. intros b Hb.
    apply list_elem_of_filter in Hb as [Hne Hb]. rewrite (Hc b Hb).
    unfold batch_images. simpl. rewrite list_filter_filter. do 2 f_equal.
    apply list_filter_iff. intros i. intuition congruence.
Qed.

Lemma api_step_invariant d d' :
  api_step d d' → pipeline_invariant d → pipeline_invariant d'.
Proof.
  destruct 1.
  - apply create_upload_batch_invariant.
  - apply upload_image_invariant.
  - apply kept_invariant, kept_cancel_batch.
  - apply kept_invariant, kept_process_single_image.
  - apply kept_invariant, kept_process_batch_with_yolo.
  - apply kept_invariant, kept_retry_failed_images.
  - apply delete_batch_invariant.
  - apply kept_invariant. unfold celery_delay in *. by eapply kept_celery_worker.
Qed.

Lemma api_reachable_invariant d : api_reachable d → pipeline_invariant d.
Proof.
  induction 1 as [|d d' _ IH Hstep].
  - unfold pipeline_invariant, keys_unique, statuses_declared, images_owned, uploads_counted.
    simpl. split_and!; by constructor.
  - by eapply api_step_invariant.
Qed.
End PipelineInvariant.

(** ** Reachable states of the pipeline *)

Section ReachableStates.
Import Uploads.

(** X17.  One request or task at a time, from the empty database: keys
    stay unique, every image belongs to a stored batch, and every
    batch's [uploaded_files] is the number of its images. *)
Theorem reachable_rows_consistent (d : db) :
  api_reachable d →
  NoDup (ImageUpload.id <$> images d) ∧
  NoDup (UploadBatch.id <$> batches d) ∧
  (∀ i, i ∈ images d →
        ∃ b, b ∈ batches d ∧ UploadBatch.id b = ImageUpload.batch i) ∧
  (∀ b, b ∈ batches d →
        UploadBatch.uploaded_files b = Z.of_nat (length (batch_images b d))).
Proof.
  intros Hreach.
  destruct (api_reachable_invariant d Hreach) as ([Hui Hub] & _ & Ho & Hc).
  split_and!; try done.
  - intros i Hi. unfold images_owned in Ho. rewrite Forall_forall in Ho.
    specialize (Ho i Hi). apply list_elem_of_fmap in Ho as (b & Hb & Hin). by exists b.
  - intros b Hb. unfold uploads_counted in Hc. rewrite Forall_forall in Hc. by apply Hc.
Qed.

(** A batch created for two files, one of them uploaded. *)
Definition after_one_upload : db :=
  (upload_image plain_env "i1" (jpeg_upload "b1" "f1")
     (create_upload_batch sqlite "b1" "u" (Some 2) (mkDb [] [] [])).2).2.

Lemma after_one_upload_reachable : api_reachable after_one_upload.
Proof.
  eapply api_next; [eapply api_next; [apply api_start|]|].
  - apply (step_create_upload_batch sqlite "b1" "u" (Some 2)).
  - apply (step_upload_image plain_env "i1" (jpeg_upload "b1" "f1")).
Qed.

Lemma reachable_rows_consistent_witness :
  NoDup (ImageUpload.id <$> images after_one_upload) ∧
  NoDup (UploadBatch.id <$> batches after_one_upload) ∧
  (∀ i, i ∈ images after_one_upload →
        ∃ b, b ∈ batches after_one_upload ∧ UploadBatch.id b = ImageUpload.batch i) ∧
  (∀ b, b ∈ batches after_one_upload →
        UploadBatch.uploaded_files b = Z.of_nat (length (batch_images b after_one_upload))).
Proof. apply (reachable_rows_consistent after_one_upload), after_one_upload_reachable. Defined.

(** X18.  In every such state the two status columns hold declared
    choices only.  So what [UploadProgressConsumer.get_batch_status]
    sends for a stored batch has [processed_files] 0, whatever has been
    processed: it counts the images of status ["processed"], which
    nothing writes; its [uploaded_files], a count of rows, is the
    batch's column. *)
Theorem consumer_status_on_reachable (d : db) (batch_id : string) (m : batch_status_message) :
  api_reachable d →
  consumer_get_batch_status batch_id d = Some m →
  Forall (λ i, ImageUpload.status i ∈ IMAGE_UPLOAD_STATUS) (images d) ∧
  Forall (λ b, UploadBatch.status b ∈ UPLOAD_BATCH_STATUS) (batches d) ∧
  msg_processed_files m = 0 ∧
  ∃ b, tbl_get UploadBatch.id batch_id (batches d) = Some b ∧
       msg_uploaded_files m = UploadBatch.uploaded_files b ∧
       msg_status m = UploadBatch.status b.
Proof.
  intros Hreach Hm.
  destruct (api_reachable_invariant d Hreach) as (_ & [Hsi Hsb] & _ & Hc).
  split; [done|]. split; [done|].
  unfold consumer_get_batch_status in Hm.
  destruct (tbl_get UploadBatch.id batch_id (batches d)) as [b|] eqn:Hget; [|done].
  injection Hm as <-. simpl. split.
  - unfold tbl_count. rewrite filter_none; [done|].
    apply Forall_forall. intros i Hi. unfold batch_images in Hi.
    apply list_elem_of_filter in Hi as [_ Hi]. rewrite Forall_forall in Hsi.
    specialize (Hsi i Hi). intros Hp. apply bool_decide_eq_true in Hp.
    rewrite Hp in Hsi. apply list_elem_of_In in Hsi. simpl in Hsi.
    intuition discriminate.
  - exists b. split; [done|]. split; [|done].
    destruct (tbl_get_Some UploadBatch.id _ _ _ Hget) as [_ Hin].
    unfold uploads_counted in Hc. rewrite Forall_forall in Hc. symmetry. by apply Hc.
Qed.

(** The same batch after its image has been detected. *)
Definition after_detection : db :=
  (process_single_image false always_detects 7 "u" "i1" after_one_upload).1.2.

Lemma after_detection_reachable : api_reachable after_detection.
Proof.
  eapply api_next; [apply after_one_upload_reachable|].
  apply (step_process_single_image false always_detects 7 "u" "i1").
Qed.

Lemma consumer_status_on_reachable_witness :
  ImageUpload.status <$> images after_detection = ["completed"] ∧
  ∃ m, consumer_get_batch_status "b1" after_detection = Some m ∧
       msg_processed_files m = 0.
Proof.
  split; [reflexivity|]. eexists. split; [reflexivity|].
  eapply (consumer_status_on_reachable after_detection "b1");
    [apply after_detection_reachable | reflexivity].
Defined.
End ReachableStates.

(** ** The processing views *)

Section ProcessingViews.
Import Uploads.

(** X19.  [process_single_image] writes, or hands something to Celery,
    only for a stored image whose batch is the caller's and whose status
    is uploaded or failed; in every other case the database is as it
    was and the answer is an error. *)
Theorem process_single_image_gate use_async detector now user image_id d :
  let r := process_single_image use_async detector now user image_id d in
  r.1.2 ≠ d ∨ r.2 ≠ [] ∨ status_code r.1.1 = 200 →
  ∃ image batch,
    tbl_get ImageUpload.id image_id (images d) = Some image ∧
    get_batch (ImageUpload.batch image) user d = Some batch ∧
    (ImageUpload.status image = "uploaded" ∨ ImageUpload.status image = "failed").
Proof.
  cbv zeta. unfold process_single_image.
  destruct (tbl_get ImageUpload.id image_id (images d)) as [image|] eqn:Hi;
    [|simpl; intros [?|[?|?]]; done].
  destruct (get_batch (ImageUpload.batch image) user d) as [batch|] eqn:Hget;
    [|simpl; intros [?|[?|?]]; done].
  destruct (str_in (ImageUpload.status image) ["uploaded"; "failed"]) eqn:Hst;
    [|simpl; intros [?|[?|?]]; done].
  intros _. exists image, batch. split_and!; try done.
  rewrite str_in_two in Hst. apply orb_true_iff in Hst.
  by rewrite !bool_decide_eq_true in Hst.
Qed.

Lemma process_single_image_gate_witness :
  ∃ image batch,
    tbl_get ImageUpload.id "i1" (images after_one_upload) = Some image ∧
    get_batch (ImageUpload.batch image) "u" after_one_upload = Some batch ∧
    (ImageUpload.status image = "uploaded" ∨ ImageUpload.status image = "failed").
Proof.
  apply (process_single_image_gate true always_detects 7 "u" "i1" after_one_upload).
  right. left. discriminate.
Defined.

Lemma sync_task_success_batch detector now image_id d i b results :
  tbl_get ImageUpload.id image_id (images d) = Some i →
  tbl_get UploadBatch.id (ImageUpload.batch i) (batches d) = Some b →
  detector (ImageUpload.file_path i) = Ok results →
  ∃ b',
    tbl_get UploadBatch.id (ImageUpload.batch i)
            (batches (process_image_with_yolo_sync detector now image_id d).2) = Some b' ∧
    UploadBatch.user b' = UploadBatch.user b ∧
    UploadBatch.processed_files b' = UploadBatch.processed_files b + 1 ∧
    UploadBatch.failed_files b' = UploadBatch.failed_files b.
Proof.
  intros Hi Hb Hok. unfold process_image_with_yolo_sync. rewrite Hi, Hb.
  change (ImageUpload.file_path (ImageUpload.set_status "processing" i))
    with (ImageUpload.file_path i). rewrite Hok. unfold record_success. cbv zeta.
  destruct (tbl_get_Some UploadBatch.id _ _ _ Hb) as [Hk _].
  set (b1 := UploadBatch.set_processed_files _ b).
  set (b2 := if _ =? _ then _ else b1).
  assert (Hb2 : UploadBatch.id b2 = ImageUpload.batch i ∧
                UploadBatch.user b2 = UploadBatch.user b ∧
                UploadBatch.processed_files b2 = UploadBatch.processed_files b + 1 ∧
                UploadBatch.failed_files b2 = UploadBatch.failed_files b).
  { subst b2 b1. by destruct (_ =? _). }
  destruct Hb2 as (Hid & Hrest). exists b2. split; [|done].
  cbn [snd]. unfold save_batch at 1. cbn [batches]. rewrite <- Hid.
  apply tbl_get_save_eq.
Qed.

(** X20.  [process_single_image] in synchronous mode, on an image that
    is uploaded or failed and that the detector handles: the image ends
    completed with the detector's output and its error message cleared
    if it had failed; the stored batch has one more processed file, and
    one failed file less (not below 0) if the image had failed.  Here
    the view saves the batch before the task reads it, so that nothing
    is lost. *)
Theorem process_single_image_recovers detector now user image_id d image batch results :
  tbl_get ImageUpload.id image_id (images d) = Some image →
  get_batch (ImageUpload.batch image) user d = Some batch →
  ImageUpload.status image = "uploaded" ∨ ImageUpload.status image = "failed" →
  detector (ImageUpload.file_path image) = Ok results →
  let r := process_single_image false detector now user image_id d in
  r.1.1 = JsonResponse (Message "Image processed successfully") 200 ∧
  r.2 = [] ∧
  (∃ i', tbl_get ImageUpload.id image_id (images r.1.2) = Some i' ∧
         ImageUpload.status i' = "completed" ∧
         ImageUpload.yolo_keypoints i' = Some results ∧
         ImageUpload.error_message i' =
           (if bool_decide (ImageUpload.status image = "failed")
            then None else ImageUpload.error_message image)) ∧
  (∃ b', get_batch (ImageUpload.batch image) user r.1.2 = Some b' ∧
         UploadBatch.processed_files b' = UploadBatch.processed_files batch + 1 ∧
         UploadBatch.failed_files b' =
           (if bool_decide (ImageUpload.status image = "failed")
            then Z.max 0 (UploadBatch.failed_files batch - 1)
            else UploadBatch.failed_files batch)).
Proof.
  intros Hi Hget Hst Hok. cbv zeta. unfold process_single_image. rewrite Hi, Hget.
  assert (Hin : str_in (ImageUpload.status image) ["uploaded"; "failed"] = true).
  { rewrite str_in_two. apply orb_true_iff. by rewrite !bool_decide_eq_true. }
  rewrite Hin. cbn [negb]. cbv zeta.
  destruct (tbl_get_Some ImageUpload.id _ _ _ Hi) as [Hk _].
  destruct (get_batch_Some _ _ _ _ Hget) as (Hrow & Hid & Huser).
  set (image1 := if bool_decide _ then ImageUpload.set_error_message None image else image).
  set (image2 := ImageUpload.set_status "uploaded" image1).
  set (d1 := if bool_decide _ then save_batch _ d else d).
  set (batch1 := if bool_decide (ImageUpload.status image = "failed")
                 then UploadBatch.set_failed_files
                        (Z.max 0 (UploadBatch.failed_files batch - 1)) batch
                 else batch).
  assert (H2 : ImageUpload.id image2 = image_id ∧
               ImageUpload.batch image2 = ImageUpload.batch image ∧
               ImageUpload.file_path image2 = ImageUpload.file_path image ∧
               ImageUpload.error_message image2 =
                 (if bool_decide (ImageUpload.status image = "failed")
                  then None else ImageUpload.error_message image)).
  { subst image2 image1. by case_bool_decide. }
  destruct H2 as (Hid2 & Hb2 & Hp2 & He2).
  assert (Hrow1 : tbl_get UploadBatch.id (ImageUpload.batch image2)
                          (batches (save_image image2 d1)) = Some batch1).
  { rewrite Hb2. subst d1 batch1. cbn [save_image batches]. case_bool_decide.
    - cbn [save_batch batches]. rewrite <- Hid.
      apply (tbl_get_save_eq UploadBatch.id (UploadBatch.set_failed_files _ batch)).
    - done. }
  assert (Hi1 : tbl_get ImageUpload.id (ImageUpload.id image2)
                        (images (save_image image2 d1)) = Some image2).
  { cbn [save_image images]. apply tbl_get_save_eq. }
  assert (Hok2 : detector (ImageUpload.file_path image2) = Ok results) by (by rewrite Hp2).
  destruct (sync_task_success detector now _ _ _ _ _ Hi1 Hrow1 Hok2) as [Hs Himg].
  destruct (sync_task_success_batch detector now _ _ _ _ _ Hi1 Hrow1 Hok2)
    as (b' & Hb' & Hu' & Hp' & Hf').
  destruct (process_image_with_yolo_sync detector now (ImageUpload.id image2)
              (save_image image2 d1)) as [success d2].
  cbn [fst snd] in *. subst success. cbn [fst snd]. split; [done|]. split; [done|]. split.
  - eexists. split; [rewrite <- Hid2; exact Himg|]. by split_and!.
  - exists b'. split_and!.
    + unfold get_batch. rewrite <- Hb2, Hb'. rewrite bool_decide_eq_true_2; [done|].
      rewrite Hu'. subst batch1. by case_bool_decide.
    + rewrite Hp'. subst batch1. by case_bool_decide.
    + rewrite Hf'. subst batch1. by case_bool_decide.
Qed.

(** A failed image whose detection now succeeds. *)
Definition after_one_failure : db :=
  (process_single_image false (never_detects 0%nat) 5 "u" "i1" after_one_upload).1.2.

Lemma process_single_image_recovers_witness :
  ImageUpload.status <$> images after_one_failure = ["failed"] ∧
  UploadBatch.failed_files <$> batches after_one_failure = [1] ∧
  ∃ b', get_batch "b1" "u"
          (process_single_image false always_detects 7 "u" "i1" after_one_failure).1.2
        = Some b' ∧
        UploadBatch.processed_files b' = 1 ∧ UploadBatch.failed_files b' = 0.
Proof.
  split; [reflexivity|]. split; [reflexivity|].
  destruct (process_single_image_recovers always_detects 7 "u" "i1" after_one_failure
              (ImageUpload.mk "i1" "b1" "f1" "f1.jpg" "b1/f1.jpg" 2048 "image/jpeg"
                 "failed" None 0 None (Some (exn_message (ProcessingError "model error"))) None)
              (UploadBatch.mk "b1" "u" 2 1 0 1 "uploading" None)
              [mk_detection "keypoint" "nose" (inject_Z 10) (inject_Z 20) (inject_Z 1)])
    as (_ & _ & _ & b' & Hb' & Hp & Hf); [reflexivity | reflexivity | by right | reflexivity |].
  exists b'. by split_and!.
Defined.
End ProcessingViews.

(** ** The views that loop over a batch *)

Section BatchLoops.
Import Uploads.

Lemma process_batch_loop_batch use_async detector now l :
  ∀ st, same_but_failed (loop_batch st)
          (loop_batch (fold_left (process_batch_turn use_async detector now) l st)).
Proof.
  induction l as [|image l IH]; intros st; simpl; [by repeat split|].
  eapply same_but_failed_trans; [|apply IH].
  unfold process_batch_turn. cbv zeta.
  set (batch1 := if bool_decide _ then _ else loop_batch st).
  assert (Hsb : same_but_failed (loop_batch st) batch1).
  { subst batch1. case_bool_decide; by repeat split. }
  destruct use_async; [done|].
  destruct (process_image_with_yolo_sync _ _ _ _) as [[|] d1]; done.
Qed.

(** X21.  Whatever [process_batch_with_yolo] detects, the batch row it
    leaves has the [processed_files] it had before the request (and the
    same [total_files] and [uploaded_files]): the view's last save
    writes the instance it read at the start, over what the synchronous
    tasks have stored meanwhile. *)
Theorem process_batch_keeps_processed_files use_async detector now user batch_id d batch :
  get_batch batch_id user d = Some batch →
  ∃ batch',
    get_batch batch_id user
      (process_batch_with_yolo use_async detector now user batch_id d).1.2 = Some batch' ∧
    UploadBatch.processed_files batch' = UploadBatch.processed_files batch ∧
    UploadBatch.total_files batch' = UploadBatch.total_files batch ∧
    UploadBatch.uploaded_files batch' = UploadBatch.uploaded_files batch.
Proof.
  intros Hget. unfold process_batch_with_yolo. rewrite Hget.
  destruct (negb _); [by exists batch|].
  destruct (filter _ (batch_images batch d)) as [|image0 rest] eqn:Hnone; [by exists batch|].
  clear Hnone image0 rest. cbv zeta.
  destruct (get_batch_Some _ _ _ _ Hget) as (_ & Hid & Huser).
  set (batch1 := UploadBatch.set_status "processing" batch).
  set (d1 := save_batch batch1 d).
  set (l := filter (λ i, str_in (ImageUpload.status i) ["uploaded"; "failed"] = true)
                   (batch_images batch1 d1)).
  pose proof (process_batch_loop_batch use_async detector now l (mk_loop d1 batch1 0 0 []))
    as (Hbid & Hbuser & Hbtot & Hbup & Hbproc & _).
  set (st := fold_left _ l _) in *. cbn [loop_batch] in *.
  destruct (negb use_async && _); cbn [fst snd].
  - eexists. split.
    + rewrite <- Hid, <- Huser.
      change (UploadBatch.id batch) with (UploadBatch.id batch1).
      change (UploadBatch.user batch) with (UploadBatch.user batch1).
      rewrite <- Hbid, <- Hbuser.
      apply (get_batch_save_batch
               (UploadBatch.set_completed_at (Some now)
                  (UploadBatch.set_status "completed" (loop_batch st)))).
    + simpl. by rewrite Hbproc, Hbtot, Hbup.
  - exists (loop_batch st). split.
    + rewrite <- Hid, <- Huser.
      change (UploadBatch.id batch) with (UploadBatch.id batch1).
      change (UploadBatch.user batch) with (UploadBatch.user batch1).
      rewrite <- Hbid, <- Hbuser. apply get_batch_save_batch.
    + by rewrite Hbproc, Hbtot, Hbup.
Qed.

Lemma process_batch_keeps_processed_files_witness :
  ImageUpload.status <$>
    images (process_batch_with_yolo false always_detects 7 "u" "b1" after_one_upload).1.2
  = ["completed"] ∧
  ∃ batch',
    get_batch "b1" "u"
      (process_batch_with_yolo false always_detects 7 "u" "b1" after_one_upload).1.2
    = Some batch' ∧
    UploadBatch.processed_files batch' = 0.
Proof.
  split; [reflexivity|].
  destruct (process_batch_keeps_processed_files false always_detects 7 "u" "b1"
              after_one_upload (UploadBatch.mk "b1" "u" 2 1 0 0 "uploading" None))
    as (batch' & Hget & Hp & _); [reflexivity|].
  by exists batch'.
Defined.

Lemma process_batch_loop_async detector now l :
  ∀ st,
    let st' := fold_left (process_batch_turn true detector now) l st in
    processed_count st' = processed_count st + Z.of_nat (length l) ∧
    failed_count st' = failed_count st ∧
    delayed st' = (delayed st ++ (ImageUpload.id <$> l))%list.
Proof.
  induction l as [|image l IH]; intros st.
  - simpl. split_and!; [lia | done | by rewrite app_nil_r].
  - cbv zeta. cbn [fold_left]. rewrite fmap_cons, length_cons, Nat2Z.inj_succ.
    destruct (IH (process_batch_turn true detector now st image)) as (Hp & Hf & Hq).
    rewrite Hp, Hf, Hq. unfold process_batch_turn. cbv zeta.
    cbn [processed_count failed_count delayed].
    split_and!; [lia | done |]. rewrite <- app_assoc. do 2 f_equal.
    by case_bool_decide.
Qed.

Lemma process_batch_loop_async_db detector detector' now l :
  ∀ st, fold_left (process_batch_turn true detector now) l st
        = fold_left (process_batch_turn true detector' now) l st.
Proof. induction l as [|image l IH]; intros st; simpl; [done|]. apply IH. Qed.

(** X22.  With [PROCESS_IMAGES_ASYNC] the view [process_batch_with_yolo]
    runs no detection itself: its result is the same whatever the
    detector.  When it accepts the batch it hands to Celery the keys of
    the batch's uploaded and failed images, each once and in the order
    of the query, and answers with their number and no failure. *)
Theorem process_batch_async_queue detector detector' now user batch_id d :
  let r := process_batch_with_yolo true detector now user batch_id d in
  r = process_batch_with_yolo true detector' now user batch_id d ∧
  ∀ batch,
    get_batch batch_id user d = Some batch →
    let l := filter (λ i, str_in (ImageUpload.status i) ["uploaded"; "failed"] = true)
                    (batch_images batch d) in
    (str_in (UploadBatch.status batch) ["uploading"; "completed"; "failed"] = true →
     l ≠ [] →
     r.2 = ImageUpload.id <$> l ∧
     r.1.1 = JsonResponse (Processing (Z.of_nat (length l)) 0 "processing_started") 200) ∧
    (str_in (UploadBatch.status batch) ["uploading"; "completed"; "failed"] = false ∨ l = [] →
     r.2 = [] ∧ r.1.2 = d).
Proof.
  cbv zeta. split.
  - unfold process_batch_with_yolo.
    destruct (get_batch batch_id user d) as [batch|]; [|done].
    destruct (negb _); [done|].
    destruct (filter _ (batch_images batch d)); [done|]. cbv zeta.
    by rewrite (process_batch_loop_async_db detector detector').
  - intros batch Hget. unfold process_batch_with_yolo. rewrite Hget. split.
    + intros Hst Hl. rewrite Hst. cbn [negb].
      destruct (filter _ (batch_images batch d)) as [|image0 rest] eqn:Hnone; [done|].
      rewrite <- Hnone. clear Hnone image0 rest Hl. cbv zeta.
      set (batch1 := UploadBatch.set_status "processing" batch).
      set (l := filter (λ i, str_in (ImageUpload.status i) ["uploaded"; "failed"] = true)
                       (batch_images batch d)).
      change (filter (λ i, str_in (ImageUpload.status i) ["uploaded"; "failed"] = true)
                     (batch_images batch (save_batch batch1 d))) with l.
      destruct (process_batch_loop_async detector now l (mk_loop (save_batch batch1 d) batch1 0 0 []))
        as (Hp & Hf & Hq).
      cbn [processed_count failed_count delayed] in *.
      cbn [negb andb fst snd]. rewrite Hp, Hf, Hq. by split.
    + intros [Hst|Hl].
      * by rewrite Hst.
      * destruct (negb _); [done|]. by rewrite Hl.
Qed.

Lemma process_batch_async_queue_witness :
  (process_batch_with_yolo true always_detects 7 "u" "b1" after_one_upload).2 = ["i1"].
Proof.
  destruct (process_batch_async_queue always_detects always_detects 7 "u" "b1" after_one_upload)
    as [_ H].
  destruct (H (UploadBatch.mk "b1" "u" 2 1 0 0 "uploading" None) eq_refl) as [H1 _].
  destruct H1 as [Hq _]; [reflexivity | discriminate |]. exact Hq.
Defined.

Lemma retry_loop_counts use_async detector now l :
  ∀ st,
    let st' := fold_left (retry_turn use_async detector now) l st in
    retried st' + still_failed st' = retried st + still_failed st + Z.of_nat (length l) ∧
    retried st ≤ retried st' ∧ still_failed st ≤ still_failed st' ∧
    (use_async = true → still_failed st' = still_failed st ∧
                        requeued st' = (requeued st ++ (ImageUpload.id <$> l))%list) ∧
    (use_async = false → requeued st' = requeued st).
Proof.
  induction l as [|image l IH]; intros st.
  - simpl. split_and!; [lia | lia | lia | | done]. intros _. by rewrite app_nil_r.
  - cbv zeta. cbn [fold_left]. rewrite fmap_cons, length_cons, Nat2Z.inj_succ.
    destruct (IH (retry_turn use_async detector now st image)) as (Hsum & Hr & Hf & Ha & Hs).
    assert (Hturn :
      retried (retry_turn use_async detector now st image)
      + still_failed (retry_turn use_async detector now st image)
      = retried st + still_failed st + 1 ∧
      retried st ≤ retried (retry_turn use_async detector now st image) ∧
      still_failed st ≤ still_failed (retry_turn use_async detector now st image) ∧
      (use_async = true →
       still_failed (retry_turn use_async detector now st image) = still_failed st ∧
       requeued (retry_turn use_async detector now st image)
       = (requeued st ++ [ImageUpload.id image])%list) ∧
      (use_async = false →
       requeued (retry_turn use_async detector now st image) = requeued st)).
    { unfold retry_turn. cbv zeta. destruct use_async.
      - cbn [retried still_failed requeued]. split_and!; try done; lia.
      - destruct (process_image_with_yolo_sync _ _ _ _) as [[|] d1];
          cbn [retried still_failed requeued]; split_and!; try done; lia. }
    destruct Hturn as (Hsum1 & Hr1 & Hf1 & Ha1 & Hs1).
    split_and!; [lia | lia | lia | |].
    + intros Hasync. destruct (Ha Hasync) as [-> ->]. destruct (Ha1 Hasync) as [-> ->].
      split; [done|]. by rewrite <- app_assoc.
    + intros Hsync. by rewrite (Hs Hsync), (Hs1 Hsync).
Qed.

(** X23.  [retry_failed_images] on a batch with failed images: every
    one of them is counted once, as retried or as failed again, and with
    [PROCESS_IMAGES_ASYNC] all are retried and handed to Celery in
    order.  The batch row it leaves is the one read at the start of the
    request with [failed_files] lowered by the retried count: what the
    synchronous tasks stored in that row meanwhile is overwritten. *)
Theorem retry_failed_images_effect use_async detector now user batch_id d batch :
  get_batch batch_id user d = Some batch →
  let l := filter (λ i, ImageUpload.status i = "failed") (batch_images batch d) in
  l ≠ [] →
  let r := retry_failed_images use_async detector now user batch_id d in
  ∃ retry_count failed_count,
    r.1.1 = (Retrying retry_count failed_count, 200) ∧
    0 ≤ retry_count ∧ 0 ≤ failed_count ∧
    retry_count + failed_count = Z.of_nat (length l) ∧
    (if use_async then failed_count = 0 ∧ r.2 = ImageUpload.id <$> l else r.2 = []) ∧
    get_batch batch_id user r.1.2
    = Some (UploadBatch.set_failed_files (UploadBatch.failed_files batch - retry_count) batch).
Proof.
  intros Hget l Hl. cbv zeta. unfold retry_failed_images. rewrite Hget. fold l.
  destruct l as [|image0 rest] eqn:Hnone; [done|]. rewrite <- Hnone. clear Hnone image0 rest Hl.
  cbv zeta.
  destruct (retry_loop_counts use_async detector now l (mk_retry d 0 0 []))
    as (Hsum & Hr & Hf & Ha & Hs).
  cbn [retried still_failed requeued] in *. cbn [fst snd].
  set (st := fold_left _ l _) in *.
  exists (retried st), (still_failed st). split_and!; try done; try lia.
  - destruct use_async.
    + destruct (Ha eq_refl) as [Hz Hq]. by rewrite Hz, Hq.
    + by apply Hs.
  - destruct (get_batch_Some _ _ _ _ Hget) as (_ & Hid & Huser).
    rewrite <- Hid, <- Huser.
    apply (get_batch_save_batch
             (UploadBatch.set_failed_files (UploadBatch.failed_files batch - retried st) batch)).
Qed.

Lemma retry_failed_images_effect_witness :
  ∃ retry_count failed_count,
    (retry_failed_images false always_detects 7 "u" "b1" after_one_failure).1.1
    = (Retrying retry_count failed_count, 200) ∧
    retry_count + failed_count = 1 ∧
    get_batch "b1" "u" (retry_failed_images false always_detects 7 "u" "b1" after_one_failure).1.2
    = Some (UploadBatch.mk "b1" "u" 2 1 0 (1 - retry_count) "uploading" None).
Proof.
  destruct (retry_failed_images_effect false always_detects 7 "u" "b1" after_one_failure
              (UploadBatch.mk "b1" "u" 2 1 0 1 "uploading" None))
    as (n & m & Hr & _ & _ & Hsum & _ & Hrow); [reflexivity | discriminate |].
  exists n, m. by split_and!.
Defined.

(** The first loop of [delete_batch]: what is left of the storage, and
    how much is counted. *)
Lemma delete_files_spec (faulty : string → bool) (paths : list string) :
  ∀ (files : list string) (n : Z),
    let r := fold_left
               (λ '(files, n) path,
                  if faulty path
                  then (files, n)
                  else if bool_decide (path ∈ files)
                  then (filter (λ f, f ≠ path) files, n + 1)
                  else (files, n))
               paths (files, n) in
    (∀ f, f ∈ r.1 ↔ f ∈ files ∧ (f ∉ paths ∨ faulty f = true)) ∧
    n ≤ r.2 ≤ n + Z.of_nat (length paths).
Proof.
  induction paths as [|path paths IH]; intros files n.
  - simpl. split; [|lia]. intros f. rewrite elem_of_nil. tauto.
  - cbv zeta. cbn [fold_left]. rewrite length_cons, Nat2Z.inj_succ.
    destruct (faulty path) eqn:Hfaulty; [|case_bool_decide as Hin].
    + destruct (IH files n) as [Hfiles Hn].
      split; [|lia]. intros f. rewrite Hfiles, not_elem_of_cons.
      destruct (decide (f = path)) as [->|Hne]; tauto.
    + destruct (IH (filter (λ f, f ≠ path) files) (n + 1)) as [Hfiles Hn].
      split; [|lia]. intros f. rewrite Hfiles, list_elem_of_filter, not_elem_of_cons.
      split; [tauto|]. intros [Hf [[Hne Hp]|Hp]]; [tauto|].
      split_and!; [congruence | done | tauto].
    + destruct (IH files n) as [Hfiles Hn].
      split; [|lia]. intros f. rewrite Hfiles, not_elem_of_cons.
      split; [|tauto]. intros [Hf Hp]. split; [done|].
      destruct Hp as [Hp|Hp]; [|tauto]. left. split; [|done]. by intros ->.
Qed.

(** X24.  [delete_batch] on a batch of the caller: the batch and all its
    images are gone and every other batch and image is as before.  The
    storage has lost exactly the files of the batch's images on which it
    does not raise: a file whose deletion raises is kept, and the batch
    and its images are deleted all the same.  The answer counts the
    images and the files deleted, at most one file per image. *)
Theorem delete_batch_effect faulty user batch_id d batch :
  get_batch batch_id user d = Some batch →
  let r := delete_batch faulty user batch_id d in
  (∃ deleted_files,
     r.1 = (Deleted (Z.of_nat (length (batch_images batch d))) deleted_files, 200) ∧
     0 ≤ deleted_files ≤ Z.of_nat (length (batch_images batch d))) ∧
  tbl_get UploadBatch.id batch_id (batches r.2) = None ∧
  batch_images batch r.2 = [] ∧
  (∀ b, b ∈ batches r.2 ↔ b ∈ batches d ∧ UploadBatch.id b ≠ batch_id) ∧
  (∀ i, i ∈ images r.2 ↔ i ∈ images d ∧ ImageUpload.batch i ≠ batch_id) ∧
  (∀ f, f ∈ storage r.2 ↔
        f ∈ storage d ∧
        (f ∉ ImageUpload.file_path <$> batch_images batch d ∨ faulty f = true)).
Proof.
  intros Hget. cbv zeta. unfold delete_batch. rewrite Hget.
  destruct (get_batch_Some _ _ _ _ Hget) as (_ & Hid & _).
  pose proof (delete_files_spec faulty (ImageUpload.file_path <$> batch_images batch d)
                (storage d) 0) as [Hfiles Hn].
  fold (delete_files faulty (ImageUpload.file_path <$> batch_images batch d) (storage d))
    in Hfiles, Hn.
  destruct (delete_files _ _ _) as [files n]. cbn [fst snd] in *.
  rewrite length_fmap in Hn. rewrite Hid. split_and!.
  - exists n. split; [done | lia].
  - apply tbl_get_None. intros Hin. apply list_elem_of_fmap in Hin as (b & Hb & Hin).
    apply list_elem_of_filter in Hin as [Hne _]. done.
  - unfold batch_images. cbn [images]. rewrite Hid. apply filter_none.
    apply Forall_forall. intros i Hi. by apply list_elem_of_filter in Hi as [Hne _].
  - intros b. cbn [batches]. rewrite list_elem_of_filter. tauto.
  - intros i. cbn [images]. rewrite list_elem_of_filter. tauto.
  - intros f. cbn [storage]. apply Hfiles.
Qed.

Lemma delete_batch_effect_witness :
  (delete_batch (λ _, false) "u" "b1" after_one_upload).1 = (Deleted 1 1, 200) ∧
  storage (delete_batch (λ _, false) "u" "b1" after_one_upload).2 = [] ∧
  tbl_get UploadBatch.id "b1"
          (batches (delete_batch (λ _, false) "u" "b1" after_one_upload).2) = None.
Proof.
  split; [reflexivity|]. split; [reflexivity|].
  apply (delete_batch_effect (λ _, false) "u" "b1" after_one_upload
           (UploadBatch.mk "b1" "u" 2 1 0 0 "uploading" None)).
  reflexivity.
Defined.

(** When the storage raises on every path, the batch and its image row
    are deleted, the file stays and no file is counted. *)
Example delete_batch_storage_raises :
  (delete_batch (λ _, true) "u" "b1" after_one_upload).1 = (Deleted 1 0, 200) ∧
  storage (delete_batch (λ _, true) "u" "b1" after_one_upload).2
  = storage after_one_upload ∧
  storage after_one_upload ≠ [] ∧
  images (delete_batch (λ _, true) "u" "b1" after_one_upload).2 = [].
Proof. by vm_compute. Qed.
End BatchLoops.

(** ** The queries of the models *)

Section ModelQueries.

Lemma percentage_between (c t : Z) :
  0 ≤ c → 0 < t →
  (inject_Z 0 <= inject_Z c / inject_Z t * inject_Z 100)%Q ∧
  (c ≤ t → (inject_Z c / inject_Z t * inject_Z 100 <= inject_Z 100)%Q).
Proof.
  intros Hc Ht. destruct t as [|p|p]; [lia| |lia].
  unfold Qle, Qdiv, Qmult, Qinv, inject_Z. simpl. split; [nia|]. intros Hle. nia.
Qed.

(** X25.  [ImageBatch.progress_percentage] read after
    [update_progress]: it is 0 for a batch declared with no image (no
    division is made), never negative when [total_images] is not, and
    at most 100 provided the batch has no more images than
    [total_images] declares. *)
Theorem progress_percentage_bounds (b b' : Images.ImageBatch) (d d' : Images.db) :
  Images.update_progress b d = Ok (b', d') →
  0 ≤ Images.total_images b →
  (inject_Z 0 <= Images.progress_percentage b')%Q ∧
  (Images.total_images b = 0 → Images.progress_percentage b' = inject_Z 0) ∧
  (Z.of_nat (length (Images.batch_images b (Images.images d))) ≤ Images.total_images b →
   (Images.progress_percentage b' <= inject_Z 100)%Q).
Proof.
  intros Hup Htot. unfold Images.update_progress in Hup.
  destruct (Images.batches d !! Images.batch_id b) as [row|]; [|done].
  injection Hup as <- _.
  set (c := tbl_count (λ i, str_in (Images.status i) ["APPROVED"; "REJECTED"])
                      (Images.batch_images b (Images.images d))).
  assert (Hc0 : 0 ≤ c) by apply tbl_count_nonneg.
  assert (Hle : c ≤ Z.of_nat (length (Images.batch_images b (Images.images d))))
    by apply tbl_count_le_length.
  unfold Images.progress_percentage. simpl.
  destruct (Images.total_images b =? 0) eqn:Hz.
  - split_and!; [done | done | intros _; done].
  - apply Z.eqb_neq in Hz.
    destruct (percentage_between c (Images.total_images b)) as [Hlo Hhi]; [done | lia |].
    split_and!; [done | lia |]. intros Hn. apply Hhi. lia.
Qed.

Lemma progress_percentage_bounds_witness :
  ∃ b' d', Images.update_progress (Images.new_batch "b" "demo" 1) crowded_db = Ok (b', d') ∧
           (inject_Z 0 <= Images.progress_percentage b')%Q.
Proof.
  eexists _, _. split; [reflexivity|].
  destruct (progress_percentage_bounds (Images.new_batch "b" "demo" 1) _ crowded_db _ eq_refl)
    as [Hlo _]; [simpl; lia | exact Hlo].
Defined.

(** X26.  The three outcome queries of [Verification] split the declared
    decisions: no decision satisfies two of [is_approved],
    [needs_revision] and [is_rejected], and a decision satisfies one of
    them exactly when it is one of [VERIFICATION_DECISIONS]. *)
Theorem verification_outcomes_partition (v : Verifications.Verification) :
  (Verifications.is_approved v || Verifications.needs_revision v
   || Verifications.is_rejected v = true
   ↔ Verifications.decision v ∈ Verifications.VERIFICATION_DECISIONS.*1) ∧
  Verifications.is_approved v && Verifications.needs_revision v = false ∧
  Verifications.is_approved v && Verifications.is_rejected v = false ∧
  Verifications.needs_revision v && Verifications.is_rejected v = false.
Proof.
  unfold Verifications.is_approved, Verifications.needs_revision, Verifications.is_rejected.
  rewrite !str_in_two. simpl.
  split.
  - rewrite !orb_true_iff, !bool_decide_eq_true, !elem_of_cons, elem_of_nil. tauto.
  - split_and!; repeat case_bool_decide; try done; congruence.
Qed.

(** X27.  [Image.get_annotation] after [Annotation.objects.create]: a
    row created as submitted for the image is its current annotation
    from then on, ahead of any older submitted one; a row created for
    another image, or in another status, leaves the answer as it was. *)
Theorem get_annotation_after_create (i : Images.Image) k a anns row anns' :
  Annotations.Annotation.create k a anns = Ok (row, anns') →
  ImageAnnotations.get_annotation i anns' =
    if bool_decide (Annotations.Annotation.kw_image a = Images.id i)
       && bool_decide (default "DRAFT" (Annotations.Annotation.kw_status a) = "SUBMITTED")
    then Some row
    else ImageAnnotations.get_annotation i anns.
Proof.
  intros Hcreate.
  assert (Hrow : row = Annotations.Annotation.row_of k a ∧ anns' = row :: anns).
  { unfold Annotations.Annotation.create in Hcreate.
    destruct (tbl_get Annotations.Annotation.id k anns); [done|].
    destruct (Annotations.Annotation.kw_original_annotation a) as [o|].
    - destruct (tbl_get Annotations.Annotation.id o anns); [|done].
      by injection Hcreate as <- <-.
    - by injection Hcreate as <- <-. }
  destruct Hrow as [-> ->].
  unfold ImageAnnotations.get_annotation, Annotations.Annotation.of_image.
  rewrite filter_cons. simpl.
  case_bool_decide as Himage.
  - rewrite decide_True by done. rewrite filter_cons. simpl.
    case_bool_decide as Hst.
    + by rewrite decide_True.
    + by rewrite decide_False.
  - by rewrite decide_False.
Qed.

Definition submitted_revision : Annotations.Annotation.kwargs :=
  Annotations.Annotation.mk_kwargs "img-1" "asg-1" 45 (Some 2) (Some true) (Some "a1")
                                   (Some "SUBMITTED").

Lemma get_annotation_after_create_witness :
  ImageAnnotations.get_annotation (Images.new_image "img-1" "b" "x.jpg")
    [Annotations.Annotation.row_of "a2" submitted_revision; first_draft]
  = Some (Annotations.Annotation.row_of "a2" submitted_revision).
Proof.
  exact (get_annotation_after_create (Images.new_image "img-1" "b" "x.jpg")
           "a2" submitted_revision [first_draft] _ _ eq_refl).
Defined.
End ModelQueries.

(** ** One batch at a time *)

Section BatchIsolation.
Import Uploads.

(** A write that concerns batch [k] only: every other batch row, and
    the images of every other batch, are as they were. *)
Definition only_batch (k : string) (d d' : db) : Prop :=
  (∀ j, j ≠ k → tbl_get UploadBatch.id j (batches d') = tbl_get UploadBatch.id j (batches d)) ∧
  filter (λ i, ImageUpload.batch i ≠ k) (images d')
  = filter (λ i, ImageUpload.batch i ≠ k) (images d).

Lemma only_batch_refl k d : only_batch k d d.
Proof. by split. Qed.

Lemma only_batch_trans k d1 d2 d3 :
  only_batch k d1 d2 → only_batch k d2 d3 → only_batch k d1 d3.
Proof.
  intros [Hb12 Hi12] [Hb23 Hi23]. split; [|congruence].
  intros j Hj. by rewrite Hb23, Hb12.
Qed.

Lemma only_batch_save_batch k b d :
  UploadBatch.id b = k → only_batch k d (save_batch b d).
Proof.
  intros Hid. split; [|done]. intros j Hj. simpl. apply tbl_get_save_ne. congruence.
Qed.

Lemma filter_tbl_update {R} (pk : R → string) (P : R → Prop) `{∀ x, Decision (P x)}
    (r : R) (t : list R) :
  (∀ x, x ∈ t → pk x = pk r → ¬ P x) → ¬ P r →
  filter P (tbl_update pk r t) = filter P t.
Proof.
  intros Hold Hnew. unfold tbl_update.
  induction t as [|x t IH]; [done|]. simpl. rewrite !filter_cons.
  assert (IH' : filter P (map (λ x0, if bool_decide (pk x0 = pk r) then r else x0) t)
                = filter P t).
  { apply IH. intros y Hy. apply Hold. by apply elem_of_cons; right. }
  case_bool_decide as Hx.
  - rewrite decide_False by done.
    rewrite decide_False by (apply Hold; [by apply elem_of_cons; left | done]).
    exact IH'.
  - destruct (decide (P x)); by rewrite IH'.
Qed.

Lemma only_batch_save_image k d i i' :
  NoDup (ImageUpload.id <$> images d) →
  tbl_get ImageUpload.id (ImageUpload.id i') (images d) = Some i →
  ImageUpload.batch i = k → ImageUpload.batch i' = k →
  only_batch k d (save_image i' d).
Proof.
  intros Hu Hget Hb Hb'. split; [done|]. simpl. unfold tbl_save. rewrite Hget.
  apply filter_tbl_update.
  - intros x Hx Hid Hne. apply Hne.
    pose proof (tbl_get_NoDup ImageUpload.id x (images d) Hu Hx) as Hgx.
    rewrite Hid, Hget in Hgx. injection Hgx as <-. done.
  - intros Hne. by apply Hne.
Qed.

(** A write that concerns batch [k] only, on a database with unique
    keys and declared statuses. *)
Definition framed (k : string) (d d' : db) : Prop :=
  keys_unique d → statuses_declared d → only_batch k d d'.

Lemma framed_refl k d : framed k d d.
Proof. intros _ _. apply only_batch_refl. Qed.

Lemma framed_trans k d1 d2 d3 :
  framed k d1 d2 → kept d1 d2 → framed k d2 d3 → framed k d1 d3.
Proof.
  intros H12 K12 H23 Hu Hs. destruct (K12 Hu Hs) as [Hr Hs2].
  eapply only_batch_trans; [by apply H12|].
  apply H23; [by eapply same_rows_keys_unique | done].
Qed.

Lemma framed_save_image k d i i' :
  tbl_get ImageUpload.id (ImageUpload.id i') (images d) = Some i →
  ImageUpload.batch i = k → ImageUpload.batch i' = k →
  framed k d (save_image i' d).
Proof. intros Hget Hb Hb' [Hu _] _. by eapply only_batch_save_image. Qed.

Lemma framed_save_batch k b d : UploadBatch.id b = k → framed k d (save_batch b d).
Proof. intros Hid _ _. by apply only_batch_save_batch. Qed.

Lemma framed_record_failure e image_id d k :
  (∀ i, tbl_get ImageUpload.id image_id (images d) = Some i → ImageUpload.batch i = k) →
  framed k d (record_failure e image_id d).
Proof.
  intros Hk. unfold record_failure.
  destruct (tbl_get ImageUpload.id image_id (images d)) as [i|] eqn:Hi; [|apply framed_refl].
  specialize (Hk i eq_refl).
  destruct (tbl_get_Some ImageUpload.id _ _ _ Hi) as [Hid _].
  set (i' := ImageUpload.set_error_message _ _).
  assert (F1 : framed k d (save_image i' d)).
  { apply (framed_save_image k d i i'); [by rewrite <- Hid in Hi | done | done]. }
  assert (K1 : kept d (save_image i' d)).
  { apply (kept_save_image d i i'); [by rewrite <- Hid in Hi | done |].
    apply list_elem_of_In. simpl. tauto. }
  destruct (tbl_get UploadBatch.id (ImageUpload.batch i') (batches (save_image i' d)))
    as [b|] eqn:Hb; [|exact F1].
  eapply framed_trans; [exact F1 | exact K1 |].
  apply framed_save_batch. simpl.
  destruct (tbl_get_Some UploadBatch.id _ _ _ Hb) as [Hkb _]. by rewrite Hkb.
Qed.

Lemma framed_sync_task detector now image_id d k :
  (∀ i, tbl_get ImageUpload.id image_id (images d) = Some i → ImageUpload.batch i = k) →
  framed k d (process_image_with_yolo_sync detector now image_id d).2.
Proof.
  intros Hk. unfold process_image_with_yolo_sync.
  destruct (tbl_get ImageUpload.id image_id (images d)) as [i|] eqn:Hi; [|apply framed_refl].
  pose proof (Hk i eq_refl) as Hki.
  destruct (tbl_get_Some ImageUpload.id _ _ _ Hi) as [Hid _].
  destruct (tbl_get UploadBatch.id (ImageUpload.batch i) (batches d)) as [b|] eqn:Hb.
  2:{ apply framed_record_failure. by rewrite Hi. }
  destruct (tbl_get_Some UploadBatch.id _ _ _ Hb) as [Hkb _].
  set (p := ImageUpload.set_status "processing" i).
  assert (F1 : framed k d (save_image p d)).
  { apply (framed_save_image k d i p); [by rewrite <- Hid in Hi | done | done]. }
  assert (K1 : kept d (save_image p d)).
  { apply (kept_save_image d i p); [by rewrite <- Hid in Hi | done |].
    apply list_elem_of_In. simpl. tauto. }
  assert (Hp : tbl_get ImageUpload.id image_id (images (save_image p d)) = Some p).
  { rewrite <- Hid. apply (tbl_get_save_eq ImageUpload.id p). }
  change (ImageUpload.file_path p) with (ImageUpload.file_path i).
  destruct (detector (ImageUpload.file_path i)) as [results|e]; cbn [snd].
  - eapply framed_trans; [exact F1 | exact K1 |]. unfold record_success. cbv zeta.
    set (c := ImageUpload.set_results _ _ _ _ _).
    assert (F2 : framed k (save_image p d) (save_image c (save_image p d))).
    { apply (framed_save_image k _ p c); [by rewrite <- Hid in Hp | done | done]. }
    assert (K2 : kept (save_image p d) (save_image c (save_image p d))).
    { apply (kept_save_image _ p c); [by rewrite <- Hid in Hp | done |].
      apply list_elem_of_In. simpl. tauto. }
    eapply framed_trans; [exact F2 | exact K2 |].
    apply framed_save_batch. destruct (_ =? _); simpl; congruence.
  - eapply framed_trans; [exact F1 | exact K1 |].
    apply framed_record_failure. rewrite Hp. by intros ? [= <-].
Qed.

Lemma sync_task_after_save detector now image k d :
  ImageUpload.batch image = k →
  framed k (save_image image d)
    (process_image_with_yolo_sync detector now (ImageUpload.id image) (save_image image d)).2.
Proof.
  intros Hb. apply framed_sync_task. intros i Hi.
  change (images (save_image image d)) with (tbl_save ImageUpload.id image (images d)) in Hi.
  rewrite tbl_get_save_eq in Hi. by injection Hi as <-.
Qed.

Lemma framed_process_batch_turn use_async detector now st image k :
  keys_unique (loop_db st) → statuses_declared (loop_db st) →
  still_stored (loop_db st) image → ImageUpload.batch image = k →
  only_batch k (loop_db st) (loop_db (process_batch_turn use_async detector now st image)).
Proof.
  intros Hu Hs (i0 & Hget & Hb0) Hk. unfold process_batch_turn. cbv zeta.
  set (image1 := if bool_decide _ then ImageUpload.set_error_message None image else image).
  set (image2 := ImageUpload.set_status "uploaded" image1).
  assert (Hid2 : ImageUpload.id image2 = ImageUpload.id image
                 ∧ ImageUpload.batch image2 = ImageUpload.batch image).
  { subst image2 image1. by case_bool_decide. }
  destruct Hid2 as [Hid2 Hb2].
  assert (F1 : framed k (loop_db st) (save_image image2 (loop_db st))).
  { apply (framed_save_image k _ i0 image2); [by rewrite Hid2 | congruence | congruence]. }
  assert (K1 : kept (loop_db st) (save_image image2 (loop_db st))).
  { apply (kept_save_image _ i0 image2); [by rewrite Hid2 | congruence |].
    apply list_elem_of_In. simpl. tauto. }
  destruct use_async.
  - cbn [loop_db]. by apply F1.
  - pose proof (sync_task_after_save detector now image2 k (loop_db st)) as F2.
    destruct (process_image_with_yolo_sync detector now (ImageUpload.id image2)
                (save_image image2 (loop_db st))) as [success d1].
    cbn [snd] in F2.
    assert (F : only_batch k (loop_db st) d1).
    { apply (framed_trans k _ _ _ F1 K1); [apply F2; congruence | done | done]. }
    by destruct success.
Qed.

Lemma framed_process_batch_loop use_async detector now k l :
  ∀ st,
    keys_unique (loop_db st) → statuses_declared (loop_db st) →
    Forall (still_stored (loop_db st)) l →
    Forall (λ image, ImageUpload.batch image = k) l →
    only_batch k (loop_db st)
               (loop_db (fold_left (process_batch_turn use_async detector now) l st)).
Proof.
  induction l as [|image l IH]; intros st Hu Hs Hall Hk; simpl; [apply only_batch_refl|].
  apply Forall_cons in Hall as [Himage Hrest]. apply Forall_cons in Hk as [Hkimage Hkrest].
  destruct (kept_process_batch_turn use_async detector now st image Hu Hs Himage)
    as (Hr & Hs1 & _).
  pose proof (same_rows_keys_unique _ _ Hr Hu) as Hu1.
  eapply only_batch_trans; [by apply framed_process_batch_turn|].
  apply IH; try done.
  eapply Forall_impl; [exact Hrest|]. intros x Hx. by eapply still_stored_same_rows.
Qed.

Lemma framed_process_batch_with_yolo use_async detector now user batch_id d :
  framed batch_id d (process_batch_with_yolo use_async detector now user batch_id d).1.2.
Proof.
  unfold process_batch_with_yolo.
  destruct (get_batch batch_id user d) as [batch|] eqn:Hget; [|apply framed_refl].
  destruct (negb _); [apply framed_refl|].
  destruct (filter _ (batch_images batch d)) as [|image0 rest] eqn:Hnone; [apply framed_refl|].
  clear Hnone image0 rest. cbv zeta.
  destruct (get_batch_Some _ _ _ _ Hget) as (Hrow & Hid & _).
  intros Hu Hs.
  set (batch1 := UploadBatch.set_status "processing" batch).
  set (d1 := save_batch batch1 d).
  assert (K1 : kept d d1).
  { apply (kept_save_batch d batch batch1); try done.
    - simpl. by rewrite Hid.
    - apply list_elem_of_In. simpl. tauto. }
  destruct (K1 Hu Hs) as [Hr1 Hs1].
  pose proof (same_rows_keys_unique _ _ Hr1 Hu) as Hu1.
  set (l := filter (λ i, str_in (ImageUpload.status i) ["uploaded"; "failed"] = true)
                   (batch_images batch d1)).
  assert (Hstored : Forall (still_stored d1) l).
  { apply Forall_forall. intros x Hx. apply stored_still_stored; [done|].
    subst l. apply list_elem_of_filter in Hx as [_ Hx].
    unfold batch_images in Hx. by apply list_elem_of_filter in Hx as [_ Hx]. }
  assert (Hin : Forall (λ image, ImageUpload.batch image = batch_id) l).
  { apply Forall_forall. intros x Hx. subst l. apply list_elem_of_filter in Hx as [_ Hx].
    unfold batch_images in Hx. apply list_elem_of_filter in Hx as [Hx _]. congruence. }
  pose proof (framed_process_batch_loop use_async detector now batch_id l
                (mk_loop d1 batch1 0 0 []) Hu1 Hs1 Hstored Hin) as F2.
  pose proof (process_batch_loop_batch use_async detector now l (mk_loop d1 batch1 0 0 []))
    as (Hbid & _).
  set (st := fold_left _ l _) in *. cbn [loop_db loop_batch] in *.
  assert (F3 : only_batch batch_id d (save_batch (loop_batch st) (loop_db st))).
  { eapply only_batch_trans; [by apply (only_batch_save_batch batch_id batch1 d)|].
    eapply only_batch_trans; [exact F2|].
    apply only_batch_save_batch. by rewrite Hbid. }
  destruct (negb use_async && _); cbn [fst snd]; [|exact F3].
  eapply only_batch_trans; [exact F3|]. apply only_batch_save_batch. simpl. by rewrite Hbid.
Qed.

Lemma framed_retry_turn use_async detector now st image k :
  keys_unique (retry_db st) → statuses_declared (retry_db st) →
  still_stored (retry_db st) image → ImageUpload.batch image = k →
  only_batch k (retry_db st) (retry_db (retry_turn use_async detector now st image)).
Proof.
  intros Hu Hs (i0 & Hget & Hb0) Hk. unfold retry_turn. cbv zeta.
  set (image1 := ImageUpload.set_error_message None (ImageUpload.set_status "uploaded" image)).
  assert (F1 : framed k (retry_db st) (save_image image1 (retry_db st))).
  { apply (framed_save_image k _ i0 image1); [done | congruence | done]. }
  assert (K1 : kept (retry_db st) (save_image image1 (retry_db st))).
  { apply (kept_save_image _ i0 image1); [done | done |].
    apply list_elem_of_In. simpl. tauto. }
  destruct use_async.
  - cbn [retry_db]. by apply F1.
  - pose proof (sync_task_after_save detector now image1 k (retry_db st)) as F2.
    destruct (process_image_with_yolo_sync detector now (ImageUpload.id image1)
                (save_image image1 (retry_db st))) as [success d1].
    cbn [snd] in F2.
    assert (F : only_batch k (retry_db st) d1).
    { apply (framed_trans k _ _ _ F1 K1); [by apply F2 | done | done]. }
    by destruct success.
Qed.

Lemma framed_retry_loop use_async detector now k l :
  ∀ st,
    keys_unique (retry_db st) → statuses_declared (retry_db st) →
    Forall (still_stored (retry_db st)) l →
    Forall (λ image, ImageUpload.batch image = k) l →
    only_batch k (retry_db st)
               (retry_db (fold_left (retry_turn use_async detector now) l st)).
Proof.
  induction l as [|image l IH]; intros st Hu Hs Hall Hk; simpl; [apply only_batch_refl|].
  apply Forall_cons in Hall as [Himage Hrest]. apply Forall_cons in Hk as [Hkimage Hkrest].
  destruct (kept_retry_turn use_async detector now st image Hu Hs Himage) as (Hr & Hs1).
  pose proof (same_rows_keys_unique _ _ Hr Hu) as Hu1.
  eapply only_batch_trans; [by apply framed_retry_turn|].
  apply IH; try done.
  eapply Forall_impl; [exact Hrest|]. intros x Hx. by eapply still_stored_same_rows.
Qed.

Lemma framed_retry_failed_images use_async detector now user batch_id d :
  framed batch_id d (retry_failed_images use_async detector now user batch_id d).1.2.
Proof.
  unfold retry_failed_images.
  destruct (get_batch batch_id user d) as [batch|] eqn:Hget; [|apply framed_refl].
  cbv zeta.
  destruct (get_batch_Some _ _ _ _ Hget) as (Hrow & Hid & _).
  set (l := filter (λ i, ImageUpload.status i = "failed") (batch_images batch d)).
  assert (Hl : Forall (λ x, x ∈ images d ∧ ImageUpload.batch x = batch_id) l).
  { apply Forall_forall. intros x Hx. subst l.
    apply list_elem_of_filter in Hx as [_ Hx].
    unfold batch_images in Hx. apply list_elem_of_filter in Hx as [Hb Hx].
    split; [done | congruence]. }
  destruct l as [|image0 rest] eqn:Hnone; [apply framed_refl|]. rewrite <- Hnone in *.
  clear Hnone image0 rest.
  intros Hu Hs. cbn [fst snd].
  eapply only_batch_trans.
  - apply (framed_retry_loop use_async detector now batch_id l (mk_retry d 0 0 [])); try done.
    + eapply Forall_impl; [exact Hl|]. intros x [Hx _]. by apply stored_still_stored.
    + eapply Forall_impl; [exact Hl|]. by intros x [_ Hx].
  - by apply only_batch_save_batch.
Qed.

Lemma framed_process_single_image use_async detector now user image_id d image :
  tbl_get ImageUpload.id image_id (images d) = Some image →
  framed (ImageUpload.batch image) d
         (process_single_image use_async detector now user image_id d).1.2.
Proof.
  intros Hi. unfold process_single_image. rewrite Hi.
  destruct (get_batch (ImageUpload.batch image) user d) as [batch|] eqn:Hget;
    [|apply framed_refl].
  destruct (negb _); [apply framed_refl|]. cbv zeta.
  destruct (tbl_get_Some ImageUpload.id _ _ _ Hi) as [Hk _].
  destruct (get_batch_Some _ _ _ _ Hget) as (Hrow & Hid & _).
  set (image1 := if bool_decide _ then ImageUpload.set_error_message None image else image).
  set (image2 := ImageUpload.set_status "uploaded" image1).
  set (d1 := if bool_decide _ then save_batch _ d else d).
  assert (Hid2 : ImageUpload.id image2 = image_id
                 ∧ ImageUpload.batch image2 = ImageUpload.batch image).
  { subst image2 image1. by case_bool_decide. }
  destruct Hid2 as [Hid2 Hb2].
  assert (K1 : kept d d1).
  { subst d1. case_bool_decide; [|apply kept_refl].
    intros Hu Hs. apply (kept_save_batch d batch); try done.
    - simpl. by rewrite Hid.
    - simpl. by eapply declared_batch_status. }
  assert (F1 : framed (ImageUpload.batch image) d d1).
  { subst d1. case_bool_decide; [|apply framed_refl]. by apply framed_save_batch. }
  assert (Himages : images d1 = images d).
  { subst d1. by case_bool_decide. }
  assert (K2 : kept d1 (save_image image2 d1)).
  { apply (kept_save_image _ image image2); [by rewrite Himages, Hid2 | done |].
    apply list_elem_of_In. simpl. tauto. }
  assert (F2 : framed (ImageUpload.batch image) d1 (save_image image2 d1)).
  { apply (framed_save_image _ _ image image2); [by rewrite Himages, Hid2 | done | done]. }
  pose proof (framed_trans _ _ _ _ F1 K1 F2) as F12.
  pose proof (kept_trans _ _ _ K1 K2) as K12.
  destruct use_async; [exact F12|].
  pose proof (sync_task_after_save detector now image2 (ImageUpload.batch image) d1 Hb2) as F3.
  destruct (process_image_with_yolo_sync detector now (ImageUpload.id image2)
              (save_image image2 d1)) as [success d2].
  cbn [snd] in F3. pose proof (framed_trans _ _ _ _ F12 K12 F3) as F. by destruct success.
Qed.

Lemma filter_fmap_fixed {A} (P : A → Prop) `{∀ x, Decision (P x)} (f : A → A) (l : list A) :
  (∀ x, P x → f x = x) → (∀ x, ¬ P x → ¬ P (f x)) →
  filter P (f <$> l) = filter P l.
Proof.
  intros Hfix Hout. induction l as [|x l IH]; [done|].
  rewrite fmap_cons, !filter_cons. destruct (decide (P x)) as [Hx|Hx].
  - rewrite (Hfix x Hx). rewrite decide_True by done. by rewrite IH.
  - rewrite decide_False by (by apply Hout). exact IH.
Qed.

Lemma only_batch_cancel_batch user batch_id d :
  only_batch batch_id d (cancel_batch user batch_id d).2.
Proof.
  unfold cancel_batch.
  destruct (get_batch batch_id user d) as [batch|] eqn:Hget; [|apply only_batch_refl].
  destruct (str_in _ _); [apply only_batch_refl|]. cbv zeta. cbn [snd].
  destruct (get_batch_Some _ _ _ _ Hget) as (_ & Hid & _).
  split.
  - intros j Hj. cbn [batches save_batch]. apply tbl_get_save_ne. simpl. congruence.
  - cbn [images save_batch]. apply filter_fmap_fixed.
    + intros i Hi. rewrite Hid. by rewrite bool_decide_eq_false_2.
    + intros i Hi. by destruct (_ && _).
Qed.

Lemma tbl_get_filter_ne {R} (pk : R → string) (k j : string) (t : list R) :
  j ≠ k → tbl_get pk j (filter (λ r, pk r ≠ k) t) = tbl_get pk j t.
Proof.
  intros Hj. unfold tbl_get. induction t as [|x t IH]; [done|].
  rewrite filter_cons. destruct (decide (pk x ≠ k)) as [Hx|Hx]; simpl.
  - by rewrite IH.
  - rewrite IH. rewrite bool_decide_eq_false_2; [done|].
    intros Heq. apply Hx. congruence.
Qed.

Lemma only_batch_delete_batch faulty user batch_id d :
  only_batch batch_id d (delete_batch faulty user batch_id d).2.
Proof.
  unfold delete_batch.
  destruct (get_batch batch_id user d) as [batch|] eqn:Hget; [|apply only_batch_refl].
  destruct (get_batch_Some _ _ _ _ Hget) as (_ & Hid & _).
  destruct (delete_files _ _ _) as [files n]. cbn [snd]. rewrite Hid. split.
  - intros j Hj. cbn [batches]. by apply tbl_get_filter_ne.
  - cbn [images]. rewrite list_filter_filter. apply list_filter_iff. tauto.
Qed.

Lemma only_batch_create_upload_batch engine k user total_files d :
  only_batch k d (create_upload_batch engine k user total_files d).2.
Proof.
  unfold create_upload_batch.
  destruct total_files as [n|]; [|apply only_batch_refl].
  destruct (_ || _); [apply only_batch_refl|].
  destruct (negb (integer_field engine n)); [apply only_batch_refl|].
  destruct (tbl_get UploadBatch.id k (batches d)); [apply only_batch_refl|].
  split; [|done]. intros j Hj. cbn [snd batches]. unfold tbl_get. simpl.
  by rewrite bool_decide_eq_false_2.
Qed.

(** What a request leaves alone: either both tables, or all but one
    batch of the caller's, or all but one batch that was not there. *)
Definition spares_others (user : string) (d d' : db) : Prop :=
  (batches d' = batches d ∧ images d' = images d) ∨
  ∃ k, (∀ b, b ∈ batches d → UploadBatch.id b = k → UploadBatch.user b = user) ∧
       only_batch k d d'.

Lemma spares_others_batch user k d d' :
  NoDup (UploadBatch.id <$> batches d) →
  only_batch k d d' →
  (get_batch k user d = None → batches d' = batches d ∧ images d' = images d) →
  spares_others user d d'.
Proof.
  intros Hu Hframe Hnone.
  destruct (get_batch k user d) as [batch|] eqn:Hget; [|left; by apply Hnone].
  right. exists k. split; [|done]. intros b Hb Hid.
  destruct (get_batch_Some _ _ _ _ Hget) as (Hrow & _ & Huser).
  pose proof (tbl_get_NoDup UploadBatch.id b (batches d) Hu Hb) as Hgb.
  rewrite Hid, Hrow in Hgb. by injection Hgb as <-.
Qed.

Lemma only_batch_upload_image env k request d batch_id :
  post_batch_id request = Some batch_id →
  only_batch batch_id d (upload_image env k request d).2 ∧
  (get_batch batch_id (request_user request) d = None →
   batches (upload_image env k request d).2 = batches d ∧
   images (upload_image env k request d).2 = images d).
Proof.
  intros Hpost. unfold upload_image. rewrite Hpost.
  destruct (negb _); [split; [apply only_batch_refl | done]|].
  destruct (post_file_id request) as [file_id|]; [|split; [apply only_batch_refl | done]].
  destruct (files_file request) as [file|]; [|split; [apply only_batch_refl | done]].
  destruct (bool_decide _); [split; [apply only_batch_refl | done]|].
  destruct (negb _); [split; [apply only_batch_refl | done]|].
  destruct (negb _); [split; [apply only_batch_refl | done]|].
  destruct (get_batch batch_id (request_user request) d) as [batch|] eqn:Hget;
    [|split; [apply only_batch_refl | done]].
  split; [|done].
  destruct (get_batch_Some _ _ _ _ Hget) as (_ & Hid & _).
  cbv zeta. cbn [images batches storage].
  destruct (tbl_get ImageUpload.id k (images d)); [by split|].
  set (batch1 := UploadBatch.set_uploaded_files _ batch).
  set (batch2 := if bool_decide _ then _ else batch1).
  assert (Hid2 : UploadBatch.id batch2 = batch_id).
  { subst batch2 batch1. by case_bool_decide. }
  cbn [snd]. split.
  - intros j Hj. cbn [batches save_batch]. apply tbl_get_save_ne. congruence.
  - cbn [images save_batch]. rewrite filter_cons. cbn [ImageUpload.batch].
    by rewrite decide_False by (intros Hne; by apply Hne).
Qed.

(** The requests that a user can make of the views that write. *)
Inductive user_request (user : string) : db → db → Prop :=
  | request_create_upload_batch engine k total_files d :
      user_request user d (create_upload_batch engine k user total_files d).2
  | request_upload_image env k request d :
      request_user request = user →
      user_request user d (upload_image env k request d).2
  | request_cancel_batch batch_id d :
      user_request user d (cancel_batch user batch_id d).2
  | request_process_single_image use_async detector now image_id d :
      user_request user d (process_single_image use_async detector now user image_id d).1.2
  | request_process_batch_with_yolo use_async detector now batch_id d :
      user_request user d (process_batch_with_yolo use_async detector now user batch_id d).1.2
  | request_retry_failed_images use_async detector now batch_id d :
      user_request user d (retry_failed_images use_async detector now user batch_id d).1.2
  | request_delete_batch faulty batch_id d :
      user_request user d (delete_batch faulty user batch_id d).2.

Lemma user_request_spares_others user d d' :
  pipeline_invariant d → user_request user d d' → spares_others user d d'.
Proof.
  intros (Hu & Hs & _ & _) Hreq. pose proof Hu as [_ Hub].
  destruct Hreq as [engine k total_files d | env k request d Huser | batch_id d
                   | use_async detector now image_id d | use_async detector now batch_id d
                   | use_async detector now batch_id d | faulty batch_id d].
  - destruct (tbl_get UploadBatch.id k (batches d)) as [b0|] eqn:Hk.
    + left. unfold create_upload_batch. rewrite Hk.
      destruct total_files as [n|]; [|done]. destruct (_ || _); [done|].
      by destruct (negb _).
    + right. exists k. split; [|apply only_batch_create_upload_batch].
      intros b Hb Hid. apply tbl_get_None in Hk. exfalso. apply Hk.
      rewrite <- Hid. by apply list_elem_of_fmap_2.
  - destruct (post_batch_id request) as [batch_id|] eqn:Hpost.
    + destruct (only_batch_upload_image env k request d batch_id Hpost) as [Hframe Hnone].
      rewrite Huser in Hnone. by eapply spares_others_batch.
    + left. unfold upload_image. rewrite Hpost. done.
  - eapply (spares_others_batch user batch_id); [done | apply only_batch_cancel_batch |].
    intros Hnone. unfold cancel_batch. by rewrite Hnone.
  - destruct (tbl_get ImageUpload.id image_id (images d)) as [image|] eqn:Hi.
    + eapply (spares_others_batch user (ImageUpload.batch image)); [done | |].
      * by apply framed_process_single_image.
      * intros Hnone. unfold process_single_image. by rewrite Hi, Hnone.
    + left. unfold process_single_image. by rewrite Hi.
  - eapply (spares_others_batch user batch_id); [done | |].
    + by apply framed_process_batch_with_yolo.
    + intros Hnone. unfold process_batch_with_yolo. by rewrite Hnone.
  - eapply (spares_others_batch user batch_id); [done | |].
    + by apply framed_retry_failed_images.
    + intros Hnone. unfold retry_failed_images. by rewrite Hnone.
  - eapply (spares_others_batch user batch_id); [done | apply only_batch_delete_batch |].
    intros Hnone. unfold delete_batch. by rewrite Hnone.
Qed.

(** X28.  No request of a user changes what belongs to another: after
    any request to a view that writes, made in a state that requests and
    tasks can reach, a batch of another user is stored as it was, with
    the images it had, each as it was. *)
Theorem requests_spare_other_users (user : string) (d d' : db) (b : UploadBatch.t) :
  api_reachable d →
  user_request user d d' →
  b ∈ batches d →
  UploadBatch.user b ≠ user →
  tbl_get UploadBatch.id (UploadBatch.id b) (batches d') = Some b ∧
  batch_images b d' = batch_images b d.
Proof.
  intros Hreach Hreq Hb Hother.
  pose proof (api_reachable_invariant d Hreach) as Hinv.
  pose proof Hinv as ([_ Hub] & _).
  pose proof (tbl_get_NoDup UploadBatch.id b (batches d) Hub Hb) as Hrow.
  destruct (user_request_spares_others user d d' Hinv Hreq)
    as [[Hbatches Himages] | (k & Hk & Hbk & Hik)].
  - unfold batch_images. by rewrite Hbatches, Himages.
  - assert (Hne : UploadBatch.id b ≠ k).
    { intros Heq. apply Hother. by apply Hk. }
    split; [by rewrite Hbk|]. unfold batch_images.
    assert (Hsub : ∀ l : list ImageUpload.t, filter (λ i, ImageUpload.batch i = UploadBatch.id b) l
                        = filter (λ i, ImageUpload.batch i = UploadBatch.id b)
                                 (filter (λ i, ImageUpload.batch i ≠ k) l)).
    { intros l. rewrite list_filter_filter. apply list_filter_iff.
      intros i. split; [|tauto]. intros Hi. split; [done | congruence]. }
    by rewrite (Hsub (images d')), (Hsub (images d)), Hik.
Qed.

(** Two users with a batch each; the first deletes hers. *)
Definition two_users : db :=
  (create_upload_batch sqlite "b2" "v" (Some 1) after_one_upload).2.

Lemma two_users_reachable : api_reachable two_users.
Proof.
  eapply api_next; [apply after_one_upload_reachable|].
  apply (step_create_upload_batch sqlite "b2" "v" (Some 1)).
Qed.

Lemma requests_spare_other_users_witness :
  tbl_get UploadBatch.id "b1" (batches (delete_batch (λ _, false) "v" "b1" two_users).2)
  = Some (UploadBatch.mk "b1" "u" 2 1 0 0 "uploading" None) ∧
  batch_images (UploadBatch.mk "b1" "u" 2 1 0 0 "uploading" None)
               (delete_batch (λ _, false) "v" "b1" two_users).2
  = batch_images (UploadBatch.mk "b1" "u" 2 1 0 0 "uploading" None) two_users.
Proof.
  apply (requests_spare_other_users "v" two_users _
           (UploadBatch.mk "b1" "u" 2 1 0 0 "uploading" None)).
  - apply two_users_reachable.
  - apply (request_delete_batch "v" (λ _, false) "b1").
  - apply list_elem_of_In. simpl. tauto.
  - discriminate.
Defined.
End BatchIsolation.
